(** * Quick Cleaner: the cleanup task engine of [quick_cleaner_V2.py]

    A shallow embedding of the engine (safe deletion primitives, recycle-bin
    adapter, Chromium cache locator, worker thread, start guard of the main
    window) over an explicit model of the file system the Python code talks
    to, followed by the properties proved about it. *)

From Stdlib Require Import List String Ascii ZArith NArith Bool Arith Lia DecimalString.
Import ListNotations.
Local Open Scope string_scope.
Local Open Scope list_scope.
Local Open Scope Z_scope.
Set Warnings "-register-all".

(** ** The file system

    A tree, as NTFS has it: regular files carry their size and the read-only
    attribute, directories an ordered listing, and symbolic links their
    target (an absolute path) together with the directory flag Windows stores
    in the link itself ([os.symlink(..., target_is_directory=...)]).

    The tree gives every file one name and knows no reparse point other
    than the symbolic link: hard links and junctions are outside it.  Of a
    directory it records the listing only, not the directory's own
    attributes.  The properties below speak of such trees. *)

Definition path := list string.

Inductive node : Type :=
| File (size : N) (readonly : bool)
| Dir (entries : list (string * node))
| Link (dirlink : bool) (target : path).

Inductive kind : Type := KFile | KDir | KLink.

Definition kind_of (n : node) : kind :=
  match n with File _ _ => KFile | Dir _ => KDir | Link _ _ => KLink end.

Definition is_link (n : node) : bool :=
  match n with Link _ _ => true | _ => false end.

Definition is_dir_node (n : node) : bool :=
  match n with Dir _ => true | _ => false end.

Definition is_file_node (n : node) : bool :=
  match n with File _ _ => true | _ => false end.

(** First entry of a listing that carries the name. *)
Fixpoint assoc (x : string) (es : list (string * node)) : option node :=
  match es with
  | [] => None
  | (y, n) :: r => if String.eqb y x then Some n else assoc x r
  end.

(** [node_at n p]: the node reached from [n] along [p] when every component
    on the way is a real directory; no link is followed. *)
Fixpoint node_at (n : node) (p : path) {struct p} : option node :=
  match p with
  | [] => Some n
  | x :: p' =>
      match n with
      | Dir es => match assoc x es with Some c => node_at c p' | None => None end
      | _ => None
      end
  end.

(** One pass of name resolution: it stops at the first link it meets with
    components still to go. *)
Inductive lookup : Type :=
| Found (n : node)
| Missing
| ViaLink (target rest : path).

Fixpoint lookup_path (n : node) (p : path) {struct p} : lookup :=
  match p with
  | [] => Found n
  | x :: p' =>
      match n with
      | Dir es => match assoc x es with Some c => lookup_path c p' | None => Missing end
      | Link _ t => ViaLink t p
      | File _ _ => Missing
      end
  end.

(** [realpath hops root follow p]: the link-free path [p] names, links in the
    middle always followed, a link at the end only when [follow]; [None] when
    the name does not resolve (ENOENT, ENOTDIR, or ELOOP once [hops] links
    have been followed). *)
Fixpoint realpath (hops : nat) (root : node) (follow : bool) (p : path) : option path :=
  match lookup_path root p with
  | Found (Link _ t) =>
      if follow
      then match hops with S h => realpath h root true t | O => None end
      else Some p
  | Found _ => Some p
  | ViaLink t rest =>
      match hops with S h => realpath h root follow (t ++ rest) | O => None end
  | Missing => None
  end.

Definition MAX_LINK_HOPS : nat := 40.

(** Proofs never depend on the value of the bound. *)
Strategy opaque [MAX_LINK_HOPS].

(** What [os.stat] ([follow = true]) and [os.lstat] ([follow = false]) see. *)
Definition stat_node (follow : bool) (root : node) (p : path) : option node :=
  match realpath MAX_LINK_HOPS root follow p with
  | Some q => node_at root q
  | None => None
  end.

Definition named (x : string) (e : string * node) : bool := String.eqb (fst e) x.

(** The first entry carrying a name is the one the name refers to:
    removing it, and replacing its node. *)
Fixpoint remove_entry (x : string) (es : list (string * node)) : list (string * node) :=
  match es with
  | [] => []
  | e :: r => if named x e then r else e :: remove_entry x r
  end.

Fixpoint update_entry (x : string) (f : node -> node) (es : list (string * node))
  : list (string * node) :=
  match es with
  | [] => []
  | e :: r => if named x e then (fst e, f (snd e)) :: r else e :: update_entry x f r
  end.

(** Remove the entry a link-free path names. *)
Fixpoint remove_at (n : node) (p : path) {struct p} : node :=
  match p with
  | [] => n
  | [x] =>
      match n with
      | Dir es => Dir (remove_entry x es)
      | _ => n
      end
  | x :: p' =>
      match n with
      | Dir es => Dir (update_entry x (fun c => remove_at c p') es)
      | _ => n
      end
  end.

(** Replace the node a link-free path names. *)
Fixpoint set_at (n : node) (p : path) (v : node) {struct p} : node :=
  match p with
  | [] => v
  | x :: p' =>
      match n with
      | Dir es => Dir (update_entry x (fun c => set_at c p' v) es)
      | _ => n
      end
  end.

(** Bytes held by the regular files of a tree; a link holds none. *)
Fixpoint du (n : node) : Z :=
  match n with
  | File s _ => Z.of_N s
  | Dir es => (fix go (l : list (string * node)) : Z :=
                 match l with [] => 0 | e :: r => du (snd e) + go r end) es
  | Link _ _ => 0
  end.

Definition du_entries (es : list (string * node)) : Z := du (Dir es).

(** Number of directory levels below a node. *)
Fixpoint height (n : node) : nat :=
  match n with
  | Dir es => (fix go (l : list (string * node)) : nat :=
                 match l with [] => O | e :: r => Nat.max (S (height (snd e))) (go r) end) es
  | _ => O
  end.

(** Every listing of the tree names each of its entries once. *)
Fixpoint unique_names (n : node) : bool :=
  match n with
  | Dir es => (fix go (l : list (string * node)) : bool :=
                 match l with
                 | [] => true
                 | e :: r => unique_names (snd e) && negb (existsb (named (fst e)) r) && go r
                 end) es
  | _ => true
  end.

(** The tree holds no symbolic link. *)
Fixpoint link_free (n : node) : bool :=
  match n with
  | File _ _ => true
  | Link _ _ => false
  | Dir es => (fix go (l : list (string * node)) : bool :=
                 match l with
                 | [] => true
                 | e :: r => link_free (snd e) && go r
                 end) es
  end.

(** ** The world and its effects

    Besides the file system the world holds the recycle bin as the shell
    reports it, and an oracle of transient failures: every system call first
    takes the next bit of [faults], and a set bit makes the call raise
    [OSError] (access denied, sharing violation, a race with another
    process).  An exhausted oracle injects nothing. *)

Record world : Type := mkWorld {
  fs : node;
  faults : list bool;
  bin_bytes : Z;     (* SHQUERYRBINFO.i64Size as the shell would fill it *)
  bin_query : Z      (* HRESULT the size query answers with *)
}.

Definition with_fs (n : node) (w : world) : world :=
  mkWorld n (faults w) (bin_bytes w) (bin_query w).

Definition with_faults (l : list bool) (w : world) : world :=
  mkWorld (fs w) l (bin_bytes w) (bin_query w).

Definition with_bin (b : Z) (w : world) : world :=
  mkWorld (fs w) (faults w) b (bin_query w).

(** No failure is injected from here on. *)
Definition quiet (w : world) : Prop := faults w = [].

(** [Raise] stands for any exception of class [Exception]; every handler of
    the program is [except Exception], so one constructor is enough. *)
Inductive result (A : Type) : Type :=
| Ok (a : A)
| Raise.
Arguments Ok {A} a.
Arguments Raise {A}.

(** Code that may raise, and code whose every exit is a [return]. *)
Definition M (A : Type) : Type := world -> result A * world.
Definition T (A : Type) : Type := world -> A * world.

Definition ret {A} (a : A) : M A := fun w => (Ok a, w).
Definition raise {A} : M A := fun w => (Raise, w).

Definition bind {A B} (m : M A) (k : A -> M B) : M B :=
  fun w => match m w with
           | (Ok a, w') => k a w'
           | (Raise, w') => (Raise, w')
           end.

Definition lift {A} (t : T A) : M A := fun w => let '(a, w') := t w in (Ok a, w').

(** [try: body / except Exception: handler], both ending in a value. *)
Definition try_except {A} (body : M A) (handler : T A) : T A :=
  fun w => match body w with
           | (Ok a, w') => (a, w')
           | (Raise, w') => handler w'
           end.

Definition pass : T unit := fun w => (tt, w).
Definition giving {A} (a : A) : T A := fun w => (a, w).

Declare Scope py_scope.
Delimit Scope py_scope with py.
Notation "x <- m ;; k" := (bind m (fun x => k))
  (at level 61, m at next level, right associativity) : py_scope.
Notation "m ;;; k" := (bind m (fun _ => k))
  (at level 61, right associativity) : py_scope.
Local Open Scope py_scope.

(** [for e in l: freed = body e freed], exceptions propagating. *)
Fixpoint for_M {E} (l : list E) (body : E -> Z -> M Z) (freed : Z) : M Z :=
  match l with
  | [] => ret freed
  | e :: r => freed' <- body e freed ;; for_M r body freed'
  end.

(** The same loop as the whole body of a [try] whose handler is [pass]: an
    exception ends the loop and leaves [freed] as it stood. *)
Fixpoint for_try {E} (l : list E) (body : E -> Z -> M Z) (freed : Z) : T Z :=
  fun w =>
    match l with
    | [] => (freed, w)
    | e :: r =>
        match body e freed w with
        | (Ok freed', w') => for_try r body freed' w'
        | (Raise, w') => (freed, w')
        end
    end.

(** *** System calls *)

Definition fault : M bool :=
  fun w => match faults w with
           | [] => (Ok false, w)
           | b :: r => (Ok b, with_faults r w)
           end.

Definition syscall {A} (call : M A) : M A :=
  failed <- fault ;; if (failed : bool) then raise else call.

Definition get_fs : M node := fun w => (Ok (fs w), w).

(** A call that reads the file system, and one that changes it; [None] is
    the call refusing ([OSError]). *)
Definition fs_query {A} (f : node -> option A) : M A :=
  syscall (fun w => match f (fs w) with
                    | Some a => (Ok a, w)
                    | None => (Raise, w)
                    end).

Definition fs_update (f : node -> option node) : M unit :=
  syscall (fun w => match f (fs w) with
                    | Some root' => (Ok tt, with_fs root' w)
                    | None => (Raise, w)
                    end).

Record stat_result : Type := mkStat { st_kind : kind; st_size : Z }.

Definition stat_of (n : node) : stat_result :=
  match n with
  | File s _ => mkStat KFile (Z.of_N s)
  | Dir _ => mkStat KDir 0
  | Link _ _ => mkStat KLink 0
  end.

Definition exists_at (root : node) (p : path) : bool :=
  match stat_node true root p with Some _ => true | None => false end.

Definition is_dir_at (root : node) (p : path) : bool :=
  match stat_node true root p with Some n => is_dir_node n | None => false end.

Definition is_file_at (root : node) (p : path) : bool :=
  match stat_node true root p with Some n => is_file_node n | None => false end.

Definition is_symlink_at (root : node) (p : path) : bool :=
  match stat_node false root p with Some n => is_link n | None => false end.

(** [Path.exists], [is_dir], [is_file] (all following links) and
    [is_symlink]: a name that does not resolve answers [False], any other
    [OSError] propagates (pathlib's [_ignore_error]). *)
Definition Path_exists (p : path) : M bool := fs_query (fun root => Some (exists_at root p)).
Definition Path_is_dir (p : path) : M bool := fs_query (fun root => Some (is_dir_at root p)).
Definition Path_is_file (p : path) : M bool := fs_query (fun root => Some (is_file_at root p)).
Definition Path_is_symlink (p : path) : M bool := fs_query (fun root => Some (is_symlink_at root p)).

Definition Path_stat (p : path) : M stat_result :=
  fs_query (fun root => option_map stat_of (stat_node true root p)).

(** [os.chmod(p, stat.S_IWRITE | stat.S_IREAD)]: clears the read-only
    attribute of the file the name resolves to.  On a directory the call
    succeeds as well; the attribute it clears there is the directory's own,
    which the tree does not record. *)
Definition chmod_rw_at (root : node) (p : path) : option node :=
  match realpath MAX_LINK_HOPS root true p with
  | Some q =>
      match node_at root q with
      | Some (File s _) => Some (set_at root q (File s false))
      | Some _ => Some root
      | None => None
      end
  | None => None
  end.

Definition os_chmod_rw (p : path) : M unit := fs_update (fun root => chmod_rw_at root p).

(** [Path.unlink(missing_ok=True)]: the entry itself goes, a link included;
    a read-only file and a directory refuse; a name that does not resolve is
    [FileNotFoundError], which [missing_ok] swallows. *)
Definition unlink_at (root : node) (p : path) : option node :=
  match realpath MAX_LINK_HOPS root false p with
  | Some [] => None
  | Some q =>
      match node_at root q with
      | Some (File _ false) => Some (remove_at root q)
      | Some (Link _ _) => Some (remove_at root q)
      | Some (File _ true) => None
      | Some (Dir _) => None
      | None => Some root
      end
  | None => Some root
  end.

Definition Path_unlink_missing_ok (p : path) : M unit := fs_update (fun root => unlink_at root p).

(** [Path.rmdir]: [RemoveDirectoryW] removes an empty directory, and a
    directory link as the link it is; everything else refuses. *)
Definition rmdir_at (root : node) (p : path) : option node :=
  match realpath MAX_LINK_HOPS root false p with
  | Some [] => None
  | Some q =>
      match node_at root q with
      | Some (Dir []) => Some (remove_at root q)
      | Some (Link true _) => Some (remove_at root q)
      | _ => None
      end
  | None => None
  end.

Definition Path_rmdir (p : path) : M unit := fs_update (fun root => rmdir_at root p).

(** [os.DirEntry]: the name, the joined path and the type the listing
    itself reports. *)
Record DirEntry : Type := mkEntry { de_name : string; de_path : path; de_kind : kind }.

Definition entry_of (dir : path) (e : string * node) : DirEntry :=
  mkEntry (fst e) (dir ++ [fst e]) (kind_of (snd e)).

Definition listdir (root : node) (p : path) : option (list DirEntry) :=
  match stat_node true root p with
  | Some (Dir es) => Some (map (entry_of p) es)
  | _ => None
  end.

Definition os_scandir (p : path) : M (list DirEntry) := fs_query (fun root => listdir root p).

(** [DirEntry.is_dir()] and [is_file()] answer from the listing, and for a
    link from the node it resolves to now (a dangling link is neither);
    [is_symlink()] never leaves the listing. *)
Definition entry_is_dir (root : node) (e : DirEntry) : bool :=
  match de_kind e with
  | KDir => true
  | KFile => false
  | KLink => is_dir_at root (de_path e)
  end.

Definition entry_is_file (root : node) (e : DirEntry) : bool :=
  match de_kind e with
  | KFile => true
  | KDir => false
  | KLink => is_file_at root (de_path e)
  end.

Definition entry_is_symlink (e : DirEntry) : bool :=
  match de_kind e with KLink => true | _ => false end.

Definition DirEntry_is_dir (e : DirEntry) : M bool := root <- get_fs ;; ret (entry_is_dir root e).
Definition DirEntry_is_file (e : DirEntry) : M bool := root <- get_fs ;; ret (entry_is_file root e).

Definition bindT {A B} (t : T A) (k : A -> T B) : T B :=
  fun w => let '(a, w') := t w in k a w'.

Notation "x <~ t ;; k" := (bindT t (fun x => k))
  (at level 61, t at next level, right associativity) : py_scope.

(** [for e in l: freed = body e freed] where the body cannot raise. *)
Fixpoint for_T {E} (l : list E) (body : E -> Z -> T Z) (freed : Z) : T Z :=
  match l with
  | [] => giving freed
  | e :: r => freed' <~ body e freed ;; for_T r body freed'
  end.

(** [os.walk(top, topdown=False)] with the loop body run at each yield.
    The listing of [top] is taken first and split into [dirs] (directories
    and links to directories), [nondirs], and the real directories to
    descend into; errors of the listing are swallowed ([onerror=None]).
    [fuel] bounds the depth of the descent; [None] means it ran out. *)
Definition walk_body : Type := path -> list string -> list string -> Z -> T Z.

Definition walk_dirs_of (root : node) (entries : list DirEntry) : list path :=
  map de_path (filter (fun e => entry_is_dir root e && negb (entry_is_symlink e)) entries).

Definition dirs_of (root : node) (entries : list DirEntry) : list string :=
  map de_name (filter (entry_is_dir root) entries).

Definition nondirs_of (root : node) (entries : list DirEntry) : list string :=
  map de_name (filter (fun e => negb (entry_is_dir root e)) entries).

(** [for new_path in walk_dirs: yield from walk(new_path)]. *)
Definition descend (walk : path -> Z -> world -> option (Z * world))
  : list path -> Z -> world -> option (Z * world) :=
  fix each (l : list path) (freed : Z) (w : world) : option (Z * world) :=
    match l with
    | [] => Some (freed, w)
    | d :: r =>
        match walk d freed w with
        | Some (freed', w') => each r freed' w'
        | None => None
        end
    end.

Fixpoint os_walk_bottomup (fuel : nat) (body : walk_body) (top : path) (freed : Z)
  (w : world) : option (Z * world) :=
  match os_scandir top w with
  | (Raise, w1) => Some (freed, w1)
  | (Ok entries, w1) =>
      let dirs := dirs_of (fs w1) entries in
      let nondirs := nondirs_of (fs w1) entries in
      let walk := match fuel with
                  | O => fun _ _ _ => None
                  | S f => os_walk_bottomup f body
                  end in
      match descend walk (walk_dirs_of (fs w1) entries) freed w1 with
      | Some (freed', w2) => Some (body top dirs nondirs freed' w2)
      | None => None
      end
  end.

(** ** Utilities, lines 18-25

    [human_size] computes on a [float].  Every value it holds there is a
    quotient [num / den] with [den] a power of 1024: [float(n)] rounds an
    integer to 53 significant bits (ties to even) and refuses one that rounds
    beyond the largest double ([OverflowError]); dividing by [1024.0] is
    exact (the binary exponent drops by 10), and so are the comparisons. *)
Record float : Type := mkFloat { f_num : Z; f_den : Z }.

(** [float(n)] for [n >= 0]. *)
Definition float_of_int (n : Z) : option float :=
  let bits := if n =? 0 then 0 else Z.log2 n + 1 in
  if bits <=? 53 then Some (mkFloat n 1) else
  let e := bits - 53 in
  let q := Z.shiftr n e in
  let r := Z.land n (Z.ones e) in
  let half := Z.shiftl 1 (e - 1) in
  let q' := if (half <? r) || ((r =? half) && Z.odd q) then q + 1 else q in
  let v := Z.shiftl q' e in
  if v <? 2 ^ 1024 then Some (mkFloat v 1) else None.

(** [f >= k] and [f / k] for an integer [k]. *)
Definition float_ge (f : float) (k : Z) : bool := k * f_den f <=? f_num f.
Definition float_div (f : float) (k : Z) : float := mkFloat (f_num f) (f_den f * k).

(** [int(f)] for [f >= 0]. *)
Definition int_of_float (f : float) : Z := f_num f / f_den f.

(** Decimal digits of a natural number, as [str] and [format] print them. *)
Definition dec (z : Z) : string := NilEmpty.string_of_uint (N.to_uint (Z.to_N z)).

(** [f"{f:.1f}"] for [f >= 0]: the nearest tenth, a tie going to the even
    one; [tenths] is that number of tenths. *)
Definition tenths (f : float) : Z :=
  let q := 10 * f_num f / f_den f in
  let r := 10 * f_num f mod f_den f in
  if (f_den f <? 2 * r) || ((2 * r =? f_den f) && Z.odd q) then q + 1 else q.

Definition format_1f (f : float) : string :=
  let t := tenths f in (dec (t / 10) ++ "." ++ dec (t mod 10))%string.

Definition units : list string := ["B"; "KB"; "MB"; "GB"; "TB"].

(** The [while] loop of [human_size]; it runs at most [len(units) - 1]
    times, so [fuel = len(units)] is never used up. *)
Fixpoint human_size_loop (fuel : nat) (f : float) (i : nat) : float * nat :=
  match fuel with
  | O => (f, i)
  | S fuel' =>
      if float_ge f 1024 && (i <? List.length units - 1)%nat
      then human_size_loop fuel' (float_div f 1024) (S i)
      else (f, i)
  end.

(** [human_size], lines 18-25; [None] is the [OverflowError] of [float]. *)
Definition human_size (n : Z) : option string :=
  match float_of_int (Z.max 0 n) with
  | None => None
  | Some f0 =>
      let '(f, i) := human_size_loop (List.length units) f0 0 in
      Some (if (i =? 0)%nat
            then dec (int_of_float f) ++ " " ++ nth i units ""
            else format_1f f ++ " " ++ nth i units "")%string
  end.

(** ** The engine *)

(** [safe_remove_file], lines 33-49. *)
Definition safe_remove_file (p : path) : T Z :=
  try_except
    (ex <- Path_exists p ;;
     if negb ex then ret 0 else
     sl <- Path_is_symlink p ;;
     if (sl : bool) then ret 0 else
     size <- lift (try_except (st <- Path_stat p ;; ret (st_size st)) (giving 0)) ;;
     lift (try_except (os_chmod_rw p) pass) ;;;
     Path_unlink_missing_ok p ;;;
     ret size)
    (giving 0).

(** The body of the loop of [wipe_tree], lines 58-66. *)
Definition wipe_tree_body : walk_body :=
  fun root dirs files freed =>
    freed' <~ for_T files (fun name freed => d <~ safe_remove_file (root ++ [name]) ;; giving (freed + d)) freed ;;
    _ <~ for_T dirs (fun name z => _ <~ try_except (Path_rmdir (root ++ [name])) pass ;; giving z) 0 ;;
    giving freed'.

(** [wipe_tree], lines 51-73.  The descent may go as deep as the file system
    is high; the last branch is the exhausted descent. *)
Definition wipe_tree (path : path) : T Z :=
  try_except
    (ex <- Path_exists path ;;
     if negb ex then ret 0 else
     sl <- Path_is_symlink path ;;
     if (sl : bool) then ret 0 else
     freed <- lift (fun w => match os_walk_bottomup (height (fs w)) wipe_tree_body path 0 w with
                             | Some r => r
                             | None => (0, w)
                             end) ;;
     lift (try_except (Path_rmdir path) pass) ;;;
     ret freed)
    (giving 0).

(** One entry of the loop of [wipe_dir_contents], lines 83-87. *)
Definition wipe_entry (entry : DirEntry) (freed : Z) : M Z :=
  let p := de_path entry in
  let otherwise : M Z :=
    f <- Path_is_file p ;;
    if (f : bool) then d <- lift (safe_remove_file p) ;; ret (freed + d) else ret freed in
  isdir <- Path_is_dir p ;;
  if (isdir : bool)
  then sl <- Path_is_symlink p ;;
       if (sl : bool) then otherwise else d <- lift (wipe_tree p) ;; ret (freed + d)
  else otherwise.

(** [try: with os.scandir(p) as it: for entry in it: ... / except: pass]
    around a loop that accumulates [freed]. *)
Definition scan_try (p : path) (body : DirEntry -> Z -> M Z) : T Z :=
  fun w => match os_scandir p w with
           | (Ok entries, w') => for_try entries body 0 w'
           | (Raise, w') => (0, w')
           end.

(** [wipe_dir_contents], lines 75-90. *)
Definition wipe_dir_contents (path : path) : M Z :=
  ex <- Path_exists path ;;
  if negb ex then ret 0 else
  isdir <- Path_is_dir path ;;
  if negb isdir then ret 0 else
  lift (scan_try path wipe_entry).

Section Engine.

(** [fnmatch.fnmatch name pattern], a library function the engine is
    parametric in, and the environment read when the module is loaded. *)
Variable fnmatch : string -> string -> bool.
Variables TEMP LOCALAPPDATA APPDATA : path.

(** [delete_globs], lines 92-105. *)
Definition delete_globs (folder : path) (patterns : list string) : M Z :=
  ex <- Path_exists folder ;;
  if negb ex then ret 0 else
  isdir <- Path_is_dir folder ;;
  if negb isdir then ret 0 else
  lift (scan_try folder (fun entry freed =>
          f <- DirEntry_is_file entry ;;
          if (f : bool)
          then if existsb (fnmatch (de_name entry)) patterns
               then d <- lift (safe_remove_file (de_path entry)) ;; ret (freed + d)
               else ret freed
          else ret freed)).

(** *** Recycle bin, lines 107-143

    [SHQueryRecycleBinW] and [SHEmptyRecycleBinW] are declared with
    [restype = HRESULT], so ctypes raises [OSError] on a failure code (a
    negative HRESULT) and hands back the others. *)
Definition SHQueryRecycleBinW : M (Z * Z) :=
  syscall (fun w => if bin_query w <? 0 then (Raise, w)
                    else (Ok (bin_query w, if bin_query w =? 0 then bin_bytes w else 0), w)).

Definition SHEmptyRecycleBinW : M Z :=
  syscall (fun w => (Ok 0, with_bin 0 w)).

Definition empty_recycle_bin : T Z :=
  before <~ try_except
              (r <- SHQueryRecycleBinW ;;
               if fst r =? 0 then ret (snd r) else ret 0)
              (giving 0) ;;
  _ <~ try_except (SHEmptyRecycleBinW ;;; ret tt) pass ;;
  giving (Z.max 0 before).

(** *** Cleaner tasks, lines 145-232 *)

Definition clean_user_temp : M Z := wipe_dir_contents TEMP.

Definition clean_recent_items : M Z :=
  wipe_dir_contents (APPDATA ++ ["Microsoft"; "Windows"; "Recent"]).

Definition clean_thumbnails : M Z :=
  delete_globs (LOCALAPPDATA ++ ["Microsoft"; "Windows"; "Explorer"])
               ["thumbcache*.db"; "iconcache*.db"].

Definition CACHE_RELS : list path :=
  [ ["Cache"]; ["Code Cache"]; ["GPUCache"]; ["ShaderCache"]; ["DawnCache"];
    ["Media Cache"]; ["Service Worker"; "CacheStorage"] ].

(** The [candidates] list of [clean_chromium_user_data], lines 168-175. *)
Definition profile_candidates (root : path) : T (list path) :=
  try_except
    (entries <- os_scandir root ;;
     r <- get_fs ;;
     ret (root :: map de_path (filter (entry_is_dir r) entries)))
    (giving [root]).

(** [clean_chromium_user_data], lines 164-188. *)
Definition clean_chromium_user_data (root : path) : M Z :=
  ex <- Path_exists root ;;
  if negb ex then ret 0 else
  candidates <- lift (profile_candidates root) ;;
  for_M candidates
    (fun base freed =>
       for_M CACHE_RELS
         (fun rel freed => d <- wipe_dir_contents (base ++ rel) ;; ret (freed + d))
         freed)
    0.

Definition clean_chrome : M Z :=
  clean_chromium_user_data (LOCALAPPDATA ++ ["Google"; "Chrome"; "User Data"]).
Definition clean_edge : M Z :=
  clean_chromium_user_data (LOCALAPPDATA ++ ["Microsoft"; "Edge"; "User Data"]).
Definition clean_brave : M Z :=
  clean_chromium_user_data (LOCALAPPDATA ++ ["BraveSoftware"; "Brave-Browser"; "User Data"]).
Definition clean_vivaldi : M Z :=
  clean_chromium_user_data (LOCALAPPDATA ++ ["Vivaldi"; "User Data"]).

Definition clean_opera : M Z :=
  let root := LOCALAPPDATA ++ ["Opera Software"; "Opera Stable"] in
  ex <- Path_exists root ;;
  if (ex : bool)
  then for_M CACHE_RELS
         (fun rel freed => d <- wipe_dir_contents (root ++ rel) ;; ret (freed + d)) 0
  else ret 0.

(** A loop body made of several [freed += ...] statements inside a [try]:
    [Go] carries on with the new total, [Stop] is an exception in flight with
    the total as the last completed statement left it. *)
Inductive flow : Type := Go (freed : Z) | Stop (freed : Z).

Definition plus (m : M Z) (freed : Z) : world -> flow * world :=
  fun w => match m w with
           | (Ok d, w') => (Go (freed + d), w')
           | (Raise, w') => (Stop freed, w')
           end.

Fixpoint for_flow {E} (l : list E) (body : E -> Z -> world -> flow * world) (freed : Z) : T Z :=
  fun w =>
    match l with
    | [] => (freed, w)
    | e :: r =>
        match body e freed w with
        | (Go freed', w') => for_flow r body freed' w'
        | (Stop freed', w') => (freed', w')
        end
    end.

(** [clean_firefox], lines 215-232. *)
Definition firefox_profile (e : DirEntry) (freed : Z) : world -> flow * world :=
  fun w =>
    if entry_is_dir (fs w) e
    then match plus (wipe_dir_contents (de_path e ++ ["cache2"])) freed w with
         | (Go freed', w') => plus (wipe_dir_contents (de_path e ++ ["startupCache"])) freed' w'
         | stopped => stopped
         end
    else (Go freed, w).

Definition clean_firefox : M Z :=
  for_M [ LOCALAPPDATA ++ ["Mozilla"; "Firefox"; "Profiles"];
          APPDATA ++ ["Mozilla"; "Firefox"; "Profiles"] ]
    (fun base freed =>
       ex <- Path_exists base ;;
       if negb ex then ret freed else
       lift (fun w => match os_scandir base w with
                      | (Ok entries, w') => for_flow entries firefox_profile freed w'
                      | (Raise, w') => (freed, w')
                      end))
    0.

(** [path_has_content] and [browser_presence], lines 235-255. *)
Definition path_has_content (p : path) : T bool :=
  try_except
    (ex <- Path_exists p ;;
     if negb ex then ret false else
     entries <- os_scandir p ;;
     ret (match entries with [] => false | _ :: _ => true end))
    (giving false).

Definition browser_presence : T (list (string * bool)) :=
  chrome <~ path_has_content (LOCALAPPDATA ++ ["Google"; "Chrome"; "User Data"]) ;;
  edge <~ path_has_content (LOCALAPPDATA ++ ["Microsoft"; "Edge"; "User Data"]) ;;
  brave <~ path_has_content (LOCALAPPDATA ++ ["BraveSoftware"; "Brave-Browser"; "User Data"]) ;;
  vivaldi <~ path_has_content (LOCALAPPDATA ++ ["Vivaldi"; "User Data"]) ;;
  opera <~ path_has_content (LOCALAPPDATA ++ ["Opera Software"; "Opera Stable"]) ;;
  ff1 <~ path_has_content (APPDATA ++ ["Mozilla"; "Firefox"; "Profiles"]) ;;
  ff2 <~ (if (ff1 : bool) then giving true
          else path_has_content (LOCALAPPDATA ++ ["Mozilla"; "Firefox"; "Profiles"])) ;;
  giving [ ("Google Chrome", chrome); ("Microsoft Edge", edge); ("Brave", brave);
           ("Vivaldi", vivaldi); ("Opera", opera); ("Firefox", ff2) ].

(** *** Task catalog, lines 257-271

    What a task hands back is a Python value; the catalog's own tasks hand
    back integers. *)
Inductive pyval : Type :=
| PyNone
| PyBool (b : bool)
| PyInt (z : Z)
| PyObject (truth : bool) (as_int : option Z).

Definition task : Type := (string * M pyval)%type.

Definition returning_int (m : M Z) : M pyval := z <- m ;; ret (PyInt z).

Definition BASE_TASKS : list task :=
  [ ("Recycle Bin", returning_int (lift empty_recycle_bin));
    ("User Temp", returning_int clean_user_temp);
    ("Recent Items", returning_int clean_recent_items);
    ("Windows Thumbnails", returning_int clean_thumbnails) ].

Definition BROWSER_TASKS : list (string * task) :=
  [ ("Google Chrome", ("Google Chrome Cache", returning_int clean_chrome));
    ("Microsoft Edge", ("Microsoft Edge Cache", returning_int clean_edge));
    ("Brave", ("Brave Cache", returning_int clean_brave));
    ("Vivaldi", ("Vivaldi Cache", returning_int clean_vivaldi));
    ("Opera", ("Opera Cache", returning_int clean_opera));
    ("Firefox", ("Firefox Cache", returning_int clean_firefox)) ].

(** *** Worker thread, lines 274-295 *)

(** The three signals are declared [Signal(str, int, int)], [Signal(int)]
    and [Signal(int)]: an [int] argument travels as a C [int], so emitting a
    Python integer delivers its low 32 bits read in two's complement.  (The
    conversion goes through a 64-bit integer, which the step numbers and
    the totals of a run, sums of file sizes, fit.) *)
Definition c_int (n : Z) : Z := (n + 2147483648) mod 4294967296 - 2147483648.

(** A signal as the window receives it. *)
Inductive event : Type :=
| Stage (name : string) (step total : Z)
| Progress (total_bytes : Z)
| Done (total_bytes : Z).

Definition truthy (v : pyval) : bool :=
  match v with
  | PyNone => false
  | PyBool b => b
  | PyInt z => negb (z =? 0)
  | PyObject t _ => t
  end.

Definition py_or (a b : pyval) : pyval := if truthy a then a else b.

Definition py_int (v : pyval) : M Z :=
  match v with
  | PyInt z => ret z
  | PyBool b => ret (if b then 1 else 0)
  | PyObject _ (Some z) => ret z
  | PyObject _ None => raise
  | PyNone => raise
  end.

(** [try: freed = int(func() or 0) / except Exception: freed = 0]. *)
Definition invoke (func : M pyval) : T Z :=
  try_except (v <- func ;; py_int (py_or v (PyInt 0))) (giving 0).

(** The loop of [run] from step [i] on, with the events it emits. *)
Fixpoint run_from (tasks : list task) (i steps total_freed : Z) : T (list event * Z) :=
  match tasks with
  | [] => giving ([], total_freed)
  | (name, func) :: rest =>
      freed <~ invoke func ;;
      let total_freed' := total_freed + Z.max 0 freed in
      r <~ run_from rest (i + 1) steps total_freed' ;;
      giving (Stage name (c_int i) (c_int steps) :: Progress (c_int total_freed') :: fst r,
              snd r)
  end.

Definition CleanerThread_run (tasks : list task) : T (list event) :=
  r <~ run_from tasks 1 (Z.of_nat (List.length tasks)) 0 ;;
  giving (fst r ++ [Done (c_int (snd r))]).

(** *** Main window, lines 315-512

    Of the window only what [start_clean] and the three slots read and write
    is kept.  A label holds the byte count or the state it renders. *)

Inductive status : Type := Ready | Starting | Cleaning (name : string) | Finished.

Record checkbox : Type := mkCheck { cb_checked : bool; cb_enabled : bool; cb_no_data : bool }.

(** A [CleanerThread] object: the tasks still to run, the loop variables of
    [run], and [isRunning()]. *)
Record worker : Type := mkWorker {
  wk_todo : list task;
  wk_step : Z;
  wk_steps : Z;
  wk_total : Z;
  wk_running : bool
}.

Record QuickCleaner : Type := mkWindow {
  clean_btn : bool;
  close_btn : bool;
  status_label : status;
  total_label : Z;
  progress_max : Z;
  progress_value : Z;
  browser_checks : list (string * checkbox);
  cleaner : option nat
}.

(** The application: the window, the thread objects ever created (a
    [cleaner] is an index into them), the signals queued for the window, and
    the world the workers act on. *)
Record session : Type := mkSession {
  win : QuickCleaner;
  workers : list worker;
  inbox : list event;
  os : world
}.

Definition isRunning (a : session) (t : nat) : bool :=
  match nth_error (workers a) t with Some k => wk_running k | None => false end.

(** [self.cleaner and self.cleaner.isRunning()]. *)
Definition cleaner_running (a : session) : bool :=
  match cleaner (win a) with Some t => isRunning a t | None => false end.

Definition set_busy (busy : bool) (q : QuickCleaner) : QuickCleaner :=
  mkWindow (negb busy) (negb busy) (status_label q) (total_label q)
    (progress_max q) (progress_value q)
    (map (fun c => (fst c, mkCheck (cb_checked (snd c)) (negb busy && cb_enabled (snd c))
                             (cb_no_data (snd c)))) (browser_checks q))
    (cleaner q).

Definition lookup_task (name : string) : option task :=
  match find (fun b => String.eqb (fst b) name) BROWSER_TASKS with
  | Some b => Some (snd b)
  | None => None
  end.

Definition build_task_list (q : QuickCleaner) : list task :=
  BASE_TASKS ++
  flat_map (fun c => if cb_checked (snd c)
                     then match lookup_task (fst c) with Some t => [t] | None => [] end
                     else [])
           (browser_checks q).

(** [start_clean], lines 482-496. *)
Definition start_clean (a : session) : session :=
  if cleaner_running a then a else
  let tasks := build_task_list (win a) in
  let q := win a in
  let q1 := mkWindow (clean_btn q) (close_btn q) Starting 0
              (Z.of_nat (List.length tasks)) 0 (browser_checks q) (cleaner q) in
  let q2 := set_busy true q1 in
  let q3 := mkWindow (clean_btn q2) (close_btn q2) (status_label q2) (total_label q2)
              (progress_max q2) (progress_value q2) (browser_checks q2)
              (Some (List.length (workers a))) in
  mkSession q3
        (workers a ++ [mkWorker tasks 1 (Z.of_nat (List.length tasks)) 0 true])
        (inbox a) (os a).

Definition update_progress_max (q : QuickCleaner) : QuickCleaner :=
  mkWindow (clean_btn q) (close_btn q) (status_label q) (total_label q)
    (Z.of_nat (List.length BASE_TASKS +
               List.length (filter (fun c => cb_checked (snd c)) (browser_checks q))))
    (progress_value q) (browser_checks q) (cleaner q).

Definition refresh_browser_presence (q : QuickCleaner) : T QuickCleaner :=
  present <~ browser_presence ;;
  giving (update_progress_max
            (mkWindow (clean_btn q) (close_btn q) (status_label q) (total_label q)
               (progress_max q) (progress_value q)
               (map (fun c =>
                       (fst c, mkCheck (cb_checked (snd c)) true
                                 (negb (match find (fun b => String.eqb (fst b) (fst c)) present with
                                        | Some b => snd b
                                        | None => false
                                        end))))
                    (browser_checks q))
               (cleaner q))).

(** The slots [on_stage], [on_progress] and [on_done], lines 498-512. *)
Definition deliver (e : event) (q : QuickCleaner) : T QuickCleaner :=
  match e with
  | Stage name step total =>
      giving (mkWindow (clean_btn q) (close_btn q) (Cleaning name) (total_label q)
                total (step - 1) (browser_checks q) (cleaner q))
  | Progress total_bytes =>
      giving (mkWindow (clean_btn q) (close_btn q) (status_label q) total_bytes
                (progress_max q) (progress_value q) (browser_checks q) (cleaner q))
  | Done total_bytes =>
      q' <~ refresh_browser_presence
              (set_busy false
                 (mkWindow (clean_btn q) (close_btn q) Finished total_bytes
                    (progress_max q) (progress_max q) (browser_checks q) (cleaner q))) ;;
      giving (update_progress_max q')
  end.

Fixpoint set_nth {A} (n : nat) (x : A) (l : list A) {struct l} : list A :=
  match l, n with
  | [], _ => []
  | _ :: r, O => x :: r
  | y :: r, S n' => y :: set_nth n' x r
  end.

(** What can happen next: a start request (the button or the tray action),
    a running worker taking its next task or leaving [run], the window
    taking the next queued signal, the user ticking a box. *)
Inductive action : Type :=
| RequestStart
| WorkerTask (t : nat)
| WorkerExit (t : nat)
| Deliver
| Toggle (name : string).

Definition worker_task (t : nat) (a : session) : session :=
  match nth_error (workers a) t with
  | Some (mkWorker ((name, func) :: rest) i steps total true) =>
      let '(freed, w') := invoke func (os a) in
      let total' := total + Z.max 0 freed in
      mkSession (win a)
            (set_nth t (mkWorker rest (i + 1) steps total' true) (workers a))
            (inbox a ++ [Stage name (c_int i) (c_int steps); Progress (c_int total')])
            w'
  | _ => a
  end.

Definition worker_exit (t : nat) (a : session) : session :=
  match nth_error (workers a) t with
  | Some (mkWorker [] i steps total true) =>
      mkSession (win a)
            (set_nth t (mkWorker [] i steps total false) (workers a))
            (inbox a ++ [Done (c_int total)])
            (os a)
  | _ => a
  end.

Definition toggle (name : string) (q : QuickCleaner) : QuickCleaner :=
  mkWindow (clean_btn q) (close_btn q) (status_label q) (total_label q)
    (progress_max q) (progress_value q)
    (map (fun c => if String.eqb (fst c) name && cb_enabled (snd c)
                   then (fst c, mkCheck (negb (cb_checked (snd c))) true (cb_no_data (snd c)))
                   else c)
         (browser_checks q))
    (cleaner q).

Definition act (x : action) (a : session) : session :=
  match x with
  | RequestStart => start_clean a
  | WorkerTask t => worker_task t a
  | WorkerExit t => worker_exit t a
  | Deliver =>
      match inbox a with
      | [] => a
      | e :: r => let '(q, w') := deliver e (win a) (os a) in mkSession q (workers a) r w'
      end
  | Toggle name => mkSession (toggle name (win a)) (workers a) (inbox a) (os a)
  end.

Definition run_actions (xs : list action) (a : session) : session :=
  fold_left (fun a x => act x a) xs a.

(** The window as [__init__] leaves it, lines 316-436. *)
Definition launch (w : world) : session :=
  let q := mkWindow true true Ready 0 (Z.of_nat (List.length BASE_TASKS)) 0
             (map (fun name => (name, mkCheck true true false))
                  ["Google Chrome"; "Microsoft Edge"; "Brave"; "Vivaldi"; "Opera"; "Firefox"])
             None in
  let '(q', w') := refresh_browser_presence q w in
  mkSession q' [] [] w'.

Definition running_workers (a : session) : nat :=
  List.length (filter wk_running (workers a)).

End Engine.

(** ** Observations and sample worlds *)

(** What a listener of each signal receives, in order. *)
Definition stage_events (evs : list event) : list (string * Z * Z) :=
  flat_map (fun e => match e with Stage n i t => [(n, i, t)] | _ => [] end) evs.

Definition progress_values (evs : list event) : list Z :=
  flat_map (fun e => match e with Progress b => [b] | _ => [] end) evs.

Definition done_values (evs : list event) : list Z :=
  flat_map (fun e => match e with Done b => [b] | _ => [] end) evs.

Fixpoint nondecreasing (l : list Z) : Prop :=
  match l with
  | x :: ((y :: _) as r) => x <= y /\ nondecreasing r
  | _ => True
  end.

(** The events of a run whose running totals are [totals]. *)
Fixpoint emitted (names : list string) (i steps : Z) (totals : list Z) : list event :=
  match names, totals with
  | name :: ns, t :: ts =>
      Stage name (c_int i) (c_int steps) :: Progress (c_int t) :: emitted ns (i + 1) steps ts
  | _, _ => []
  end.

(** A matcher for the patterns of the catalog: [*], [?] and literal
    characters, compared without regard to case as [fnmatch] does on
    Windows.  It instantiates the engine in the examples. *)
Definition lower (c : ascii) : ascii :=
  let n := nat_of_ascii c in
  if (65 <=? n)%nat && (n <=? 90)%nat then ascii_of_nat (n + 32) else c.

Fixpoint glob (pat name : string) {struct pat} : bool :=
  match pat with
  | EmptyString => match name with EmptyString => true | String _ _ => false end
  | String c pat' =>
      if Ascii.eqb c "*"
      then (fix star (s : string) : bool :=
              glob pat' s || match s with EmptyString => false | String _ s' => star s' end) name
      else match name with
           | EmptyString => false
           | String d s' => (Ascii.eqb c "?" || Ascii.eqb (lower c) (lower d)) && glob pat' s'
           end
  end.

Definition glob_match (name pat : string) : bool := glob pat name.

(** A user's disk: a folder [d] to clean holding two files (one of them
    read-only), a subtree, a file link and a directory link, both pointing
    out of [d]; and [out], which nothing is asked to clean. *)
Definition sample_fs : node :=
  Dir [ ("d", Dir [ ("a.txt", File 10 false);
                    ("ro.txt", File 5 true);
                    ("sub", Dir [ ("x", File 7 false);
                                  ("deep", Dir [ ("y", File 1 false) ]) ]);
                    ("lnk", Link false ["out"; "secret"]);
                    ("dlnk", Link true ["out"]) ]);
        ("out", Dir [ ("secret", File 100 false) ]) ].

Definition sample_world : world := mkWorld sample_fs [] 4096 0.

(** Three tasks, the middle one raising. *)
Definition sample_before : list task := [ ("first", ret (PyInt 5)) ].
Definition sample_failing : M pyval := raise.
Definition sample_after : list task := [ ("last", ret (PyInt 7)) ].

(** The shell cache folder with a link whose name matches a pattern of the
    catalog, pointing at a file kept elsewhere. *)
Definition sample_explorer_fs : node :=
  Dir [ ("Explorer", Dir [ ("thumbcache_32.db", File 300 false);
                           ("thumbcache_lnk.db", Link false ["keep"; "big.db"]);
                           ("notes.txt", File 4 false);
                           ("thumbcacheX.dat", File 9 false);
                           ("iconcache_1.db", File 50 true) ]);
        ("keep", Dir [ ("big.db", File 1000 false) ]) ].

Definition sample_explorer : world := mkWorld sample_explorer_fs [] 0 0.

(** A browser's data root with two profiles, each holding a 1000-byte
    [Cache] folder next to data that is no cache. *)
Definition sample_profiles_fs : node :=
  Dir [ ("User Data",
         Dir [ ("Default", Dir [ ("Cache", Dir [ ("data_0", File 600 false);
                                                 ("index", Dir [ ("f_01", File 400 true) ]) ]);
                                 ("History", File 77 false) ]);
               ("Profile 1", Dir [ ("Cache", Dir [ ("data_0", File 1000 false) ]);
                                   ("Bookmarks", File 12 false) ]);
               ("Local State", File 3 false) ]) ].

Definition sample_profiles : world := mkWorld sample_profiles_fs [] 0 0.

(** The cache locator in the words of the specification: the candidates are
    the root itself plus every immediate subdirectory, and each candidate is
    wiped at the fixed cache-kind subpaths. *)
Definition subdirs (root : node) (p : path) : list path :=
  match listdir root p with
  | Some entries => map de_path (filter (entry_is_dir root) entries)
  | None => []
  end.

Definition locator_targets (root : node) (p : path) : list path :=
  flat_map (fun base => map (fun rel => base ++ rel) CACHE_RELS) (p :: subdirs root p).

Definition wipe_each (targets : list path) : M Z :=
  for_M targets (fun t freed => d <- wipe_dir_contents t ;; ret (freed + d)) 0.

(** ** Vocabulary of the properties *)

(** The world in which the task after [before] is invoked. *)
Definition world_after (before : list task) (w : world) : world :=
  snd (run_from before 1 0 0 w).

(** What a size query made in [w] observes: [None] when it raises or
    answers with a code other than [S_OK]. *)
Definition bin_snapshot (w : world) : option Z :=
  match fst (SHQueryRecycleBinW w) with
  | Ok (hr, size) => if hr =? 0 then Some size else None
  | Raise => None
  end.

(** Two outcomes of one pass of name resolution that agree, the attributes
    of the file found apart. *)
Definition same_route (a b : lookup) : Prop :=
  match a, b with
  | Found n, Found m => n = m \/ (is_link n = false /\ is_link m = false)
  | Missing, Missing => True
  | ViaLink t r, ViaLink t' r' => t = t' /\ r = r'
  | _, _ => False
  end.

(** One change the engine makes to the file system: clearing a read-only
    attribute, unlinking a regular file and, when [dirs] is set, removing an
    empty directory or a directory link. *)
Inductive fs_step (dirs : bool) : node -> node -> Prop :=
| step_chmod : forall root q s ro,
    node_at root q = Some (File s ro) ->
    fs_step dirs root (set_at root q (File s false))
| step_unlink : forall root q s ro,
    q <> [] -> node_at root q = Some (File s ro) ->
    fs_step dirs root (remove_at root q)
| step_rmdir : forall root q,
    dirs = true -> q <> [] -> node_at root q = Some (Dir []) ->
    fs_step dirs root (remove_at root q)
| step_rmlink : forall root q t,
    dirs = true -> q <> [] -> node_at root q = Some (Link true t) ->
    fs_step dirs root (remove_at root q).

(** Any number of such changes. *)
Inductive fs_steps (dirs : bool) : node -> node -> Prop :=
| steps_refl : forall root, fs_steps dirs root root
| steps_cons : forall root root' root'',
    fs_step dirs root root' -> fs_steps dirs root' root'' -> fs_steps dirs root root''.

(** A node with nothing below it. *)
Definition childless (n : node) : bool :=
  match n with Dir (_ :: _) => false | _ => true end.

(** [wp m Q w]: running [m] in [w] ends in an outcome and a world that
    satisfy [Q]. *)
Definition wp {A} (m : M A) (Q : result A -> world -> Prop) (w : world) : Prop :=
  Q (fst (m w)) (snd (m w)).

(** The same for code that cannot raise. *)
Definition wpT {A} (t : T A) (Q : A -> world -> Prop) (w : world) : Prop :=
  Q (fst (t w)) (snd (t w)).

(** [within dirs root0 freed w]: the file system of [w] came from [root0]
    by changes of the engine, and [freed] is covered by the bytes of the
    regular files that went. *)
Definition within (dirs : bool) (root0 : node) (freed : Z) (w : world) : Prop :=
  fs_steps dirs root0 (fs w) /\ 0 <= freed /\ freed + du (fs w) <= du root0.

(** Every running worker is the one the window holds as its [cleaner]. *)
Definition only_cleaner_runs (a : session) : Prop :=
  forall t k, nth_error (workers a) t = Some k -> wk_running k = true ->
              cleaner (win a) = Some t.

(** The subdirectories and the regular files of a listing. *)
Definition subdir_entries (es : list (string * node)) : list (string * node) :=
  filter (fun e => is_dir_node (snd e)) es.

Definition file_entries (es : list (string * node)) : list (string * node) :=
  filter (fun e => is_file_node (snd e)) es.

(** An entry with its directory, when it is one, emptied. *)
Definition emptied (e : string * node) : string * node :=
  (fst e, match snd e with Dir _ => Dir [] | n => n end).

(** A folder whose subfolder holds a directory link pointing out of it. *)
Definition sample_nested_fs : node :=
  Dir [ ("d", Dir [ ("sub", Dir [ ("x", File 7 false);
                                  ("dlnk", Link true ["out"]) ]) ]);
        ("out", Dir [ ("secret", File 100 false) ]) ].

Definition sample_nested : world := mkWorld sample_nested_fs [] 0 0.

(** Two paths that part ways: neither names a node on the way to, or
    below, the other. *)
Fixpoint diverge (p q : path) : bool :=
  match p, q with
  | x :: p', y :: q' => if String.eqb x y then diverge p' q' else true
  | _, _ => false
  end.

(** [changed_at x es es']: the listing [es'] differs from [es] at the name
    [x] only. *)
Definition changed_at (x : string) (es es' : list (string * node)) : Prop :=
  forall y, y <> x -> assoc y es' = assoc y es.

(** [acts_at top x root root']: from [root] to [root'] only the entry [x]
    of the directory [top] changed. *)
Definition acts_at (top : path) (x : string) (root root' : node) : Prop :=
  exists es es', node_at root top = Some (Dir es) /\
                 root' = set_at root top (Dir es') /\ changed_at x es es'.

(** [confined top root0 w]: the file system of [w] is [root0] with another
    listing at the directory [top]. *)
Definition confined (top : path) (root0 : node) (w : world) : Prop :=
  exists es', fs w = set_at root0 top (Dir es').

(** [covered root0 slack tot w]: the file system of [w] came from [root0]
    by changes of the engine and the total [tot] is covered by the bytes of
    the regular files that went, up to [slack]. *)
Definition covered (root0 : node) (slack tot : Z) (w : world) : Prop :=
  fs_steps true root0 (fs w) /\ 0 <= tot /\ tot + du (fs w) <= du root0 + slack.

(** A task that counts no more than the bytes of the files it removed. *)
Definition file_task (t : M pyval) : Prop :=
  forall w, within true (fs w) (fst (invoke t w)) (snd (invoke t w)).

(** An entry [delete_globs] is after: a regular file whose name matches one
    of the patterns. *)
Definition matched (fnmatch : string -> string -> bool) (patterns : list string)
  (e : string * node) : bool :=
  is_file_node (snd e) && existsb (fnmatch (fst e)) patterns.

(** The listing of [p] shows at least one entry. *)
Definition has_content (root : node) (p : path) : bool :=
  match listdir root p with Some (_ :: _) => true | _ => false end.

(** What each task of a run counts, as [run] takes it: the task's result,
    with 0 for a raise and for a negative result, each task invoked in the
    world the one before it left. *)
Fixpoint counts (tasks : list task) (w : world) : list Z :=
  match tasks with
  | [] => []
  | (_, func) :: rest =>
      let '(freed, w') := invoke func w in Z.max 0 freed :: counts rest w'
  end.

(** The sums of a list taken from the left, starting from [acc]. *)
Fixpoint running (acc : Z) (l : list Z) : list Z :=
  match l with
  | [] => []
  | x :: r => (acc + x) :: running (acc + x) r
  end.

(** A disk with more than 2 GiB to free: the recycle bin holds 2000000000
    bytes and the temporary folder one file of 1000000000 bytes. *)
Definition sample_large_fs : node :=
  Dir [ ("Temp", Dir [ ("setup.tmp", File 1000000000 false) ]);
        ("Local", Dir []);
        ("Roaming", Dir []) ].

Definition sample_large : world := mkWorld sample_large_fs [] 2000000000 0.

(** * Properties *)

(** ** Worker thread *)

Lemma c_int_small : forall n, -2147483648 <= n < 2147483648 -> c_int n = n.
Proof. intros n H. unfold c_int. rewrite Z.mod_small by lia. lia. Qed.

Lemma c_int_range : forall n, -2147483648 <= c_int n < 2147483648.
Proof.
  intros n. unfold c_int.
  pose proof (Z.mod_pos_bound (n + 2147483648) 4294967296 eq_refl). lia.
Qed.

Lemma last_cons_default : forall (l : list Z) a d d', last (a :: l) d = last (a :: l) d'.
Proof.
  induction l as [|b l IH]; intros a d d'; [reflexivity|].
  change (last (b :: l) d = last (b :: l) d'). apply IH.
Qed.


Lemma counts_length : forall tasks w, List.length (counts tasks w) = List.length tasks.
Proof.
  induction tasks as [|[name func] rest IH]; intros w; [reflexivity|].
  cbn [counts]. destruct (invoke func w) as [freed w1]. cbn [List.length]. now rewrite IH.
Qed.

Lemma counts_nonneg : forall tasks w, Forall (fun c => 0 <= c) (counts tasks w).
Proof.
  induction tasks as [|[name func] rest IH]; intros w; [constructor|].
  cbn [counts]. destruct (invoke func w) as [freed w1]. constructor; [lia|apply IH].
Qed.

Lemma running_length : forall l acc, List.length (running acc l) = List.length l.
Proof. induction l as [|x l IH]; intros acc; [reflexivity|]. cbn. now rewrite IH. Qed.

Lemma running_nondecreasing : forall l acc,
  Forall (fun c => 0 <= c) l -> nondecreasing (acc :: running acc l).
Proof.
  induction l as [|x l IH]; intros acc H; [exact I|].
  inversion H as [|? ? Hx Hl]; subst. cbn [running].
  split; [lia|]. apply IH. exact Hl.
Qed.

(** A non-decreasing list is bounded by its ends. *)
Lemma nondecreasing_bounds : forall l a b,
  nondecreasing (a :: l) -> last l a < b -> Forall (fun t => a <= t < b) l.
Proof.
  induction l as [|x l IH]; intros a b Hnd Hlast; [constructor|].
  destruct Hnd as [Hax Hnd].
  assert (Hl : last l x < b).
  { destruct l as [|y l]; [exact Hlast|].
    rewrite (last_cons_default l y x a). exact Hlast. }
  pose proof (IH x b Hnd Hl) as Hall.
  assert (Hxb : x < b).
  { destruct l as [|y l]; [exact Hl|].
    inversion Hall as [|? ? Hy _]; subst. destruct Hnd as [Hxy _]. lia. }
  constructor; [lia|].
  eapply Forall_impl; [|exact Hall]. cbn. intros t Ht. lia.
Qed.

(** The loop of [run] emits, task after task, a stage signal and a progress
    signal carrying the sum of the counts so far. *)
Lemma run_from_events : forall tasks i steps tot w,
  fst (run_from tasks i steps tot w) =
  (emitted (map fst tasks) i steps (running tot (counts tasks w)),
   last (running tot (counts tasks w)) tot).
Proof.
  induction tasks as [|[name func] rest IH]; intros i steps tot w; [reflexivity|].
  cbn [run_from counts map fst]. unfold bindT, giving.
  destruct (invoke func w) as [freed w1].
  specialize (IH (i + 1) steps (tot + Z.max 0 freed) w1).
  destruct (run_from rest (i + 1) steps (tot + Z.max 0 freed) w1) as [[evs t] w2].
  cbn [fst snd] in *. injection IH as -> ->.
  cbn [running emitted]. f_equal.
  destruct (running (tot + Z.max 0 freed) (counts rest w1)) as [|z l]; [reflexivity|].
  change (last (z :: l) (tot + Z.max 0 freed) = last (z :: l) tot).
  apply last_cons_default.
Qed.

Lemma run_from_emitted : forall tasks i steps tot w,
  exists totals,
    List.length totals = List.length tasks /\
    fst (fst (run_from tasks i steps tot w)) = emitted (map fst tasks) i steps totals /\
    snd (fst (run_from tasks i steps tot w)) = last totals tot /\
    nondecreasing (tot :: totals).
Proof.
  intros tasks i steps tot w. exists (running tot (counts tasks w)).
  rewrite run_from_events. cbn [fst snd].
  split; [rewrite running_length; apply counts_length|].
  split; [reflexivity|]. split; [reflexivity|].
  apply running_nondecreasing, counts_nonneg.
Qed.

Lemma emitted_names : forall names i steps totals,
  List.length totals = List.length names ->
  map (fun s => fst (fst s)) (stage_events (emitted names i steps totals)) = names.
Proof.
  induction names as [|n ns IH]; intros i steps totals Hlen; [reflexivity|].
  destruct totals as [|t ts]; [discriminate|]. cbn in Hlen.
  cbn [emitted stage_events flat_map app map fst snd]. f_equal.
  apply IH. lia.
Qed.

Lemma emitted_indices : forall names (a : nat) steps totals,
  List.length totals = List.length names ->
  map (fun s => snd (fst s)) (stage_events (emitted names (Z.of_nat a) steps totals)) =
  map (fun k => c_int (Z.of_nat k)) (seq a (List.length names)).
Proof.
  induction names as [|n ns IH]; intros a steps totals Hlen; [reflexivity|].
  destruct totals as [|t ts]; [discriminate|]. cbn in Hlen.
  cbn [emitted stage_events flat_map app map fst snd List.length seq]. f_equal.
  replace (Z.of_nat a + 1) with (Z.of_nat (S a)) by lia.
  apply IH. lia.
Qed.

Lemma emitted_steps : forall names i steps totals,
  Forall (fun s => snd s = c_int steps) (stage_events (emitted names i steps totals)).
Proof.
  induction names as [|n ns IH]; intros i steps totals; [constructor|].
  destruct totals as [|t ts]; [constructor|].
  cbn [emitted stage_events flat_map app]. constructor; [reflexivity|]. apply IH.
Qed.

Lemma emitted_progress : forall names i steps totals,
  List.length totals = List.length names ->
  progress_values (emitted names i steps totals) = map c_int totals.
Proof.
  induction names as [|n ns IH]; intros i steps totals Hlen.
  - destruct totals; [reflexivity|discriminate].
  - destruct totals as [|t ts]; [discriminate|]. cbn in Hlen.
    cbn [emitted progress_values flat_map app map]. f_equal. apply IH. lia.
Qed.

Lemma emitted_done : forall names i steps totals,
  done_values (emitted names i steps totals) = [].
Proof.
  induction names as [|n ns IH]; intros i steps totals; [reflexivity|].
  destruct totals as [|t ts]; [reflexivity|]. cbn. apply IH.
Qed.

Lemma stage_events_app : forall a b, stage_events (a ++ b) = stage_events a ++ stage_events b.
Proof. intros. unfold stage_events. apply flat_map_app. Qed.

Lemma progress_values_app : forall a b,
  progress_values (a ++ b) = progress_values a ++ progress_values b.
Proof. intros. unfold progress_values. apply flat_map_app. Qed.

Lemma done_values_app : forall a b, done_values (a ++ b) = done_values a ++ done_values b.
Proof. intros. unfold done_values. apply flat_map_app. Qed.

Lemma run_shape : forall tasks w,
  fst (CleanerThread_run tasks w) =
  emitted (map fst tasks) 1 (Z.of_nat (List.length tasks)) (running 0 (counts tasks w)) ++
  [Done (c_int (last (running 0 (counts tasks w)) 0))].
Proof.
  intros tasks w. unfold CleanerThread_run, bindT, giving.
  pose proof (run_from_events tasks 1 (Z.of_nat (List.length tasks)) 0 w) as H.
  destruct (run_from tasks 1 (Z.of_nat (List.length tasks)) 0 w) as [[evs t] w'].
  cbn [fst snd] in *. injection H as -> ->. reflexivity.
Qed.

(** What a listener of each signal receives from a run. *)
Lemma run_signals : forall tasks w,
  let evs := fst (CleanerThread_run tasks w) in
  let totals := running 0 (counts tasks w) in
  map (fun s => fst (fst s)) (stage_events evs) = map fst tasks /\
  map (fun s => snd (fst s)) (stage_events evs) =
    map (fun k => c_int (Z.of_nat k)) (seq 1 (List.length tasks)) /\
  Forall (fun s => snd s = c_int (Z.of_nat (List.length tasks))) (stage_events evs) /\
  progress_values evs = map c_int totals /\
  done_values evs = [c_int (last totals 0)].
Proof.
  intros tasks w evs totals. subst evs totals. rewrite run_shape.
  assert (Hl : List.length (running 0 (counts tasks w)) = List.length (map fst tasks))
    by (rewrite running_length, counts_length, length_map; reflexivity).
  rewrite stage_events_app, progress_values_app, done_values_app.
  rewrite emitted_progress, emitted_done by exact Hl.
  cbn [stage_events progress_values done_values flat_map app].
  rewrite !app_nil_r.
  repeat split.
  - apply emitted_names; exact Hl.
  - change 1 with (Z.of_nat 1). rewrite emitted_indices by exact Hl. now rewrite length_map.
  - apply emitted_steps.
Qed.

(** C1.  The totals of a run travel as C [int]s and wrap at 2^31.  On a disk
    with a recycle bin of 2000000000 bytes and a temporary folder holding
    one file of 1000000000 bytes, the four base tasks count 2000000000,
    1000000000, 0 and 0 bytes; the progress signals deliver 2000000000 and
    then -1294967296, and the done signal -1294967296: the totals received
    decrease. *)
Theorem run_total_wraps_at_2GiB :
  let tasks := BASE_TASKS glob_match ["Temp"] ["Local"] ["Roaming"] in
  let evs := fst (CleanerThread_run tasks sample_large) in
  counts tasks sample_large = [2000000000; 1000000000; 0; 0] /\
  progress_values evs = [2000000000; -1294967296; -1294967296; -1294967296] /\
  done_values evs = [-1294967296] /\
  ~ nondecreasing (0 :: progress_values evs).
Proof.
  cbv zeta.
  assert (Hp : progress_values
                 (fst (CleanerThread_run (BASE_TASKS glob_match ["Temp"] ["Local"] ["Roaming"])
                         sample_large)) =
               [2000000000; -1294967296; -1294967296; -1294967296])
    by (vm_compute; reflexivity).
  split; [vm_compute; reflexivity|]. split; [exact Hp|]. split; [vm_compute; reflexivity|].
  rewrite Hp. cbn [nondecreasing]. intros (_ & H & _). lia.
Qed.


Lemma run_from_world_steps : forall tasks i i' steps steps' tot tot' w,
  snd (run_from tasks i steps tot w) = snd (run_from tasks i' steps' tot' w).
Proof.
  induction tasks as [|[name func] rest IH]; intros; [reflexivity|].
  cbn [run_from]. unfold bindT, giving. destruct (invoke func w) as [freed w1].
  specialize (IH (i + 1) (i' + 1) steps steps' (tot + Z.max 0 freed) (tot' + Z.max 0 freed) w1).
  destruct (run_from rest (i + 1) steps (tot + Z.max 0 freed) w1) as [[e1 t1] w2].
  destruct (run_from rest (i' + 1) steps' (tot' + Z.max 0 freed) w1) as [[e2 t2] w3].
  exact IH.
Qed.

Lemma invoke_raise : forall func w, fst (func w) = Raise -> invoke func w = (0, snd (func w)).
Proof.
  intros func w H. unfold invoke, try_except, bind, giving.
  destruct (func w) as [[v|] w1]; [discriminate|reflexivity].
Qed.


Lemma world_after_cons : forall name func rest w,
  world_after ((name, func) :: rest) w = world_after rest (snd (invoke func w)).
Proof.
  intros name func rest w. unfold world_after. cbn [run_from]. unfold bindT, giving.
  destruct (invoke func w) as [freed w1]. cbn [snd].
  pose proof (run_from_world_steps rest (1 + 1) 1 0 0 (0 + Z.max 0 freed) 0 w1) as H.
  destruct (run_from rest (1 + 1) 0 (0 + Z.max 0 freed) w1) as [[e t] w2].
  cbn [snd] in *. exact H.
Qed.

Lemma counts_nth : forall (tasks : list task) k name func w,
  nth_error tasks k = Some (name, func) ->
  nth k (counts tasks w) 0 = Z.max 0 (fst (invoke func (world_after (firstn k tasks) w))).
Proof.
  induction tasks as [|[name0 func0] rest IH]; intros k name func w Hk.
  - destruct k; discriminate.
  - destruct k as [|k].
    + cbn in Hk. injection Hk as -> ->. cbn [counts firstn].
      change (world_after [] w) with w.
      destruct (invoke func w) as [freed w1]. reflexivity.
    + cbn [nth_error] in Hk. cbn [firstn]. rewrite world_after_cons.
      cbn [counts]. destruct (invoke func0 w) as [freed w1]. cbn [nth snd].
      apply (IH k name func w1 Hk).
Qed.

Lemma running_nth : forall l k acc,
  (k < List.length l)%nat ->
  nth k (running acc l) 0 = nth k (acc :: running acc l) 0 + nth k l 0.
Proof.
  induction l as [|x l IH]; intros k acc Hk; [cbn in Hk; lia|].
  destruct k as [|k]; [reflexivity|].
  cbn [running nth]. cbn [List.length] in Hk.
  rewrite IH by lia. reflexivity.
Qed.

Lemma invoke_int : forall func w n,
  fst (func w) = Ok (PyInt n) -> fst (invoke func w) = n.
Proof.
  intros func w n H. unfold invoke, try_except, bind.
  destruct (func w) as [[v|] w1]; cbn [fst] in H; [|discriminate].
  injection H as ->. unfold py_or. cbn [truthy].
  destruct (n =? 0) eqn:E; cbn [negb py_int]; unfold ret; cbn [fst].
  - apply Z.eqb_eq in E. lia.
  - reflexivity.
Qed.

Lemma c_int_seq : forall n a,
  Z.of_nat (a + n) <= 2147483648 ->
  map (fun k => c_int (Z.of_nat k)) (seq a n) = map Z.of_nat (seq a n).
Proof.
  intros n a H. apply map_ext_in. intros k Hk. apply in_seq in Hk.
  apply c_int_small. lia.
Qed.

Lemma c_int_totals : forall l b,
  b <= 2147483648 -> Forall (fun t => 0 <= t < b) l -> map c_int l = l.
Proof.
  intros l b Hb H. induction H as [|t l Ht _ IH]; [reflexivity|].
  cbn [map]. rewrite IH, c_int_small by lia. reflexivity.
Qed.

(** One run over N tasks (N below 2^31) emits, task after task in selection
    order, a stage signal carrying the step index, from 1 to N, and N as the
    number of steps, followed by a progress signal; then one done signal,
    the last event of the run.  The k-th progress signal carries the sum of
    what the first k tasks counted and the done signal the sum over all of
    them (0 when there is no task), each as a C [int] and so within its
    range.  A task that returns the integer [c] adds [max(0, c)] to the sum
    and a task that raises adds nothing.  The sums themselves never
    decrease, so when the last one is below 2^31 every total is delivered
    as it is. *)
Theorem run_events_in_order : forall tasks w,
  Z.of_nat (List.length tasks) < 2147483648 ->
  let evs := fst (CleanerThread_run tasks w) in
  let n := List.length tasks in
  let totals := running 0 (counts tasks w) in
  evs = emitted (map fst tasks) 1 (Z.of_nat n) totals ++ [Done (c_int (last totals 0))] /\
  map (fun s => fst (fst s)) (stage_events evs) = map fst tasks /\
  map (fun s => snd (fst s)) (stage_events evs) = map Z.of_nat (seq 1 n) /\
  Forall (fun s => snd s = Z.of_nat n) (stage_events evs) /\
  progress_values evs = map c_int totals /\
  done_values evs = [c_int (last totals 0)] /\
  Forall (fun v => -2147483648 <= v < 2147483648) (progress_values evs ++ done_values evs) /\
  nondecreasing (0 :: totals) /\
  (forall k name func,
     nth_error tasks k = Some (name, func) ->
     (forall c, fst (func (world_after (firstn k tasks) w)) = Ok (PyInt c) ->
                nth k totals 0 = nth k (0 :: totals) 0 + Z.max 0 c) /\
     (fst (func (world_after (firstn k tasks) w)) = Raise ->
      nth k totals 0 = nth k (0 :: totals) 0)) /\
  (last totals 0 < 2147483648 ->
   progress_values evs = totals /\ done_values evs = [last totals 0]).
Proof.
  intros tasks w Hn evs n totals.
  pose proof (run_signals tasks w) as (Hnames & Hidx & Hsteps & Hp & Hd).
  cbv zeta in Hnames, Hidx, Hsteps, Hp, Hd.
  fold evs in Hnames, Hidx, Hsteps, Hp, Hd. fold totals in Hp, Hd. fold n in Hidx, Hsteps.
  assert (Hnd : nondecreasing (0 :: totals))
    by (apply running_nondecreasing, counts_nonneg).
  split; [apply run_shape|]. split; [exact Hnames|]. split.
  { rewrite Hidx. apply c_int_seq. subst n. lia. }
  split.
  { rewrite c_int_small in Hsteps by (subst n; lia). exact Hsteps. }
  split; [exact Hp|]. split; [exact Hd|].
  split.
  { rewrite Hp, Hd. apply Forall_app. split.
    - apply Forall_forall. intros v Hv. apply in_map_iff in Hv.
      destruct Hv as (t & <- & _). apply c_int_range.
    - constructor; [apply c_int_range|constructor]. }
  split; [exact Hnd|].
  split.
  { intros k name func Hk.
    assert (Hlt : (k < List.length (counts tasks w))%nat)
      by (rewrite counts_length; apply nth_error_Some; congruence).
    subst totals. split.
    - intros c Hc. rewrite (running_nth _ _ _ Hlt), (counts_nth _ _ _ _ _ Hk).
      rewrite (invoke_int _ _ _ Hc). reflexivity.
    - intros Hr. rewrite (running_nth _ _ _ Hlt), (counts_nth _ _ _ _ _ Hk).
      rewrite (invoke_raise _ _ Hr). cbn [fst]. lia. }
  intros Hlast.
  pose proof (nondecreasing_bounds totals 0 2147483648 Hnd Hlast) as Hall.
  split.
  - rewrite Hp. apply (c_int_totals totals 2147483648); [lia|exact Hall].
  - rewrite Hd. f_equal. apply c_int_small.
    destruct totals as [|t l]; [cbn; lia|].
    assert (Hin : In (last (t :: l) 0) (t :: l)).
    { destruct (exists_last (l := t :: l)) as (l' & x & Hx); [discriminate|].
      rewrite Hx, last_last. apply in_or_app. right. left. reflexivity. }
    rewrite Forall_forall in Hall. specialize (Hall _ Hin). lia.
Qed.

Lemma run_events_in_order_witness :
  let tasks := sample_before ++ ("middle", sample_failing) :: sample_after in
  let evs := fst (CleanerThread_run tasks sample_world) in
  let totals := running 0 (counts tasks sample_world) in
  evs = emitted (map fst tasks) 1 3 totals ++ [Done (c_int (last totals 0))] /\
  map (fun s => fst (fst s)) (stage_events evs) = map fst tasks /\
  map (fun s => snd (fst s)) (stage_events evs) = [1; 2; 3] /\
  Forall (fun s => snd s = 3) (stage_events evs) /\
  progress_values evs = map c_int totals /\
  done_values evs = [c_int (last totals 0)] /\
  Forall (fun v => -2147483648 <= v < 2147483648) (progress_values evs ++ done_values evs) /\
  nondecreasing (0 :: totals) /\
  (forall k name func,
     nth_error tasks k = Some (name, func) ->
     (forall c, fst (func (world_after (firstn k tasks) sample_world)) = Ok (PyInt c) ->
                nth k totals 0 = nth k (0 :: totals) 0 + Z.max 0 c) /\
     (fst (func (world_after (firstn k tasks) sample_world)) = Raise ->
      nth k totals 0 = nth k (0 :: totals) 0)) /\
  (last totals 0 < 2147483648 ->
   progress_values evs = totals /\ done_values evs = [last totals 0]).
Proof.
  exact (run_events_in_order (sample_before ++ ("middle", sample_failing) :: sample_after)
           sample_world eq_refl).
Defined.



(** ** Recycle bin *)

(** C8.  [empty_recycle_bin] returns the size the one query made before the
    emptying observed, clamped at 0, and 0 when that query fails; it makes
    two shell calls in all (the query, then the emptying), so nothing is
    queried afterwards: where the emptying goes through, the bin holds 0
    bytes while the value returned is still the earlier snapshot.  The
    function is of type [T Z]: every exit is a [return]. *)
Theorem empty_recycle_bin_reports_snapshot : forall w,
  let r := fst (empty_recycle_bin w) in
  let w' := snd (empty_recycle_bin w) in
  r = Z.max 0 (match bin_snapshot w with Some s => s | None => 0 end) /\
  0 <= r /\
  (bin_snapshot w = None -> r = 0) /\
  (hd false (faults w) = false -> bin_query w = 0 -> r = Z.max 0 (bin_bytes w)) /\
  faults w' = skipn 2 (faults w) /\
  (hd false (skipn 1 (faults w)) = false -> bin_bytes w' = 0).
Proof.
  intros [root fl bytes hr]. unfold bin_snapshot.
  unfold empty_recycle_bin, bindT, try_except, giving, pass, SHQueryRecycleBinW,
    SHEmptyRecycleBinW, syscall, bind, fault, raise, ret.
  destruct fl as [|[|] [|[|] fl]]; cbn;
    destruct (hr <? 0) eqn:Hneg; cbn;
    destruct (hr =? 0) eqn:Hz; cbn;
    repeat split; intros; try lia; try congruence; try reflexivity.
Qed.

(** ** File system lemmas *)

Ltac string_cases :=
  repeat match goal with
         | |- context [String.eqb ?a ?b] => destruct (String.eqb_spec a b); subst
         | H : context [String.eqb ?a ?b] |- _ => destruct (String.eqb_spec a b); subst
         end.

Lemma assoc_update_entry : forall (f : node -> node) y x es,
  assoc x (update_entry y f es) =
  if String.eqb y x then option_map f (assoc x es) else assoc x es.
Proof.
  intros f y x es. induction es as [|[z n] es IH]; cbn.
  - destruct (String.eqb y x); reflexivity.
  - unfold named. cbn [fst snd].
    destruct (String.eqb_spec z y) as [->|Hzy]; cbn [assoc].
    + destruct (String.eqb y x); reflexivity.
    + rewrite IH. string_cases; try congruence; reflexivity.
Qed.

Lemma assoc_remove_entry_other : forall y x es,
  y <> x -> assoc x (remove_entry y es) = assoc x es.
Proof.
  intros y x es Hne. induction es as [|[z n] es IH]; [reflexivity|].
  cbn. unfold named. cbn [fst snd].
  destruct (String.eqb_spec z y) as [->|Hzy].
  - destruct (String.eqb_spec y x); [contradiction|reflexivity].
  - cbn. rewrite IH. reflexivity.
Qed.

Lemma remove_update_entry : forall x f es,
  remove_entry x (update_entry x f es) = remove_entry x es.
Proof.
  intros x f es. induction es as [|[z n] es IH]; [reflexivity|].
  cbn. unfold named. cbn [fst snd].
  destruct (String.eqb z x) eqn:Hz; cbn; unfold named; cbn [fst snd]; rewrite Hz.
  - reflexivity.
  - rewrite IH. reflexivity.
Qed.

Lemma update_entry_ext : forall x f g es,
  (forall c, assoc x es = Some c -> f c = g c) ->
  update_entry x f es = update_entry x g es.
Proof.
  intros x f g es H. induction es as [|[z n] es IH]; [reflexivity|].
  cbn in *. unfold named. cbn [fst snd].
  destruct (String.eqb z x) eqn:Hz.
  - rewrite H; reflexivity.
  - rewrite IH; [reflexivity|exact H].
Qed.

Lemma update_update_entry : forall x f g es,
  update_entry x f (update_entry x g es) = update_entry x (fun c => f (g c)) es.
Proof.
  intros x f g es. induction es as [|[z n] es IH]; [reflexivity|].
  cbn. unfold named. cbn [fst snd].
  destruct (String.eqb z x) eqn:Hz; cbn; unfold named; cbn [fst snd]; rewrite Hz.
  - reflexivity.
  - rewrite IH. reflexivity.
Qed.

Lemma node_at_app : forall p q n,
  node_at n (p ++ q) = match node_at n p with Some m => node_at m q | None => None end.
Proof.
  induction p as [|x p IH]; intros q n; [reflexivity|].
  cbn. destruct n as [| es |]; try reflexivity.
  destruct (assoc x es); [apply IH|reflexivity].
Qed.

Lemma lookup_path_node_at : forall p n m,
  node_at n p = Some m -> lookup_path n p = Found m.
Proof.
  induction p as [|x p IH]; intros n m H; cbn in *.
  - congruence.
  - destruct n as [| es |]; try discriminate.
    destruct (assoc x es); [apply IH; exact H|discriminate].
Qed.

Lemma lookup_path_found : forall p n m,
  lookup_path n p = Found m -> node_at n p = Some m.
Proof.
  induction p as [|x p IH]; intros n m H; cbn in *.
  - congruence.
  - destruct n as [| es |]; try discriminate.
    destruct (assoc x es); [apply IH; exact H|discriminate].
Qed.

(** A path that reaches a node without crossing a link names itself. *)
Lemma realpath_physical : forall hops root follow p n,
  node_at root p = Some n -> (follow = true -> is_link n = false) ->
  realpath hops root follow p = Some p.
Proof.
  intros hops root follow p n H Hl. apply lookup_path_node_at in H.
  destruct hops; cbn; rewrite H; destruct n; try reflexivity;
    destruct follow; try reflexivity; discriminate Hl; reflexivity.
Qed.

(** What [realpath] answers is link-free, and ends on a link only when the
    last link was not to be followed. *)
Lemma realpath_sound : forall hops root follow p q,
  realpath hops root follow p = Some q ->
  exists n, node_at root q = Some n /\ (follow = true -> is_link n = false).
Proof.
  induction hops as [|h IH]; intros root follow p q H; cbn in H.
  - destruct (lookup_path root p) as [n| |t rest] eqn:Hl; try discriminate.
    apply lookup_path_found in Hl.
    destruct n; try (injection H as <-; eexists; split; [eassumption|reflexivity]).
    destruct follow; [discriminate|]. injection H as <-. eexists; split; [eassumption|discriminate].
  - destruct (lookup_path root p) as [n| |t rest] eqn:Hl; try discriminate.
    + apply lookup_path_found in Hl.
      destruct n; try (injection H as <-; eexists; split; [eassumption|reflexivity]).
      destruct follow; [apply IH in H; exact H|].
      injection H as <-. eexists; split; [eassumption|discriminate].
    + apply IH in H. exact H.
Qed.

Lemma stat_node_sound : forall follow root p n,
  stat_node follow root p = Some n ->
  exists q, realpath MAX_LINK_HOPS root follow p = Some q /\ node_at root q = Some n /\
            (follow = true -> is_link n = false).
Proof.
  unfold stat_node. intros follow root p n H.
  destruct (realpath MAX_LINK_HOPS root follow p) as [q|] eqn:Hq; [|discriminate].
  exists q. split; [reflexivity|]. split; [exact H|].
  destruct (realpath_sound _ _ _ _ _ Hq) as (m & Hm & Hl).
  rewrite H in Hm. injection Hm as <-. exact Hl.
Qed.

Lemma stat_node_physical : forall follow root p n,
  node_at root p = Some n -> (follow = true -> is_link n = false) ->
  stat_node follow root p = Some n.
Proof.
  intros follow root p n H Hl. unfold stat_node.
  rewrite (realpath_physical _ _ _ _ _ H Hl). exact H.
Qed.

Lemma node_at_set_at_same : forall q root n v,
  node_at root q = Some n -> node_at (set_at root q v) q = Some v.
Proof.
  induction q as [|x q IH]; intros root n v H; [reflexivity|].
  destruct root as [| es |]; try discriminate.
  cbn [node_at set_at] in *.
  rewrite assoc_update_entry, String.eqb_refl.
  destruct (assoc x es) as [c|]; [|discriminate]. cbn. eapply IH; eassumption.
Qed.

Lemma remove_at_set_at_same : forall q root v,
  q <> [] -> remove_at (set_at root q v) q = remove_at root q.
Proof.
  induction q as [|x q IH]; intros root v Hne; [congruence|].
  destruct root as [| es |]; try reflexivity.
  destruct q as [|y q].
  - cbn. f_equal. apply remove_update_entry.
  - cbn [set_at remove_at]. f_equal. rewrite update_update_entry.
    apply update_entry_ext. intros c _. apply IH. discriminate.
Qed.

(** ** System calls, evaluated *)

Lemma hd_skipn : forall k (l : list bool), hd false (skipn k l) = nth k l false.
Proof.
  induction k as [|k IH]; intros [|b l]; try reflexivity. cbn. apply IH.
Qed.

Lemma tl_skipn : forall k (l : list bool), tl (skipn k l) = skipn (S k) l.
Proof.
  induction k as [|k IH]; intros [|b l]; try reflexivity.
  change (tl (skipn k l) = skipn (S k) l). apply IH.
Qed.

Lemma syscall_eval : forall A (call : M A) root fl k bb bq,
  syscall call (mkWorld root (skipn k fl) bb bq) =
  if nth k fl false then (Raise, mkWorld root (skipn (S k) fl) bb bq)
  else call (mkWorld root (skipn (S k) fl) bb bq).
Proof.
  intros. unfold syscall, bind, fault. cbn [faults].
  rewrite <- hd_skipn, <- tl_skipn.
  destruct (skipn k fl) as [|[|] r]; reflexivity.
Qed.

Lemma fs_query_eval : forall A (f : node -> option A) root fl k bb bq,
  fs_query f (mkWorld root (skipn k fl) bb bq) =
  if nth k fl false then (Raise, mkWorld root (skipn (S k) fl) bb bq)
  else match f root with
       | Some a => (Ok a, mkWorld root (skipn (S k) fl) bb bq)
       | None => (Raise, mkWorld root (skipn (S k) fl) bb bq)
       end.
Proof. intros. unfold fs_query. rewrite syscall_eval. reflexivity. Qed.

Lemma fs_update_eval : forall (f : node -> option node) root fl k bb bq,
  fs_update f (mkWorld root (skipn k fl) bb bq) =
  if nth k fl false then (Raise, mkWorld root (skipn (S k) fl) bb bq)
  else match f root with
       | Some root' => (Ok tt, mkWorld root' (skipn (S k) fl) bb bq)
       | None => (Raise, mkWorld root (skipn (S k) fl) bb bq)
       end.
Proof. intros. unfold fs_update. rewrite syscall_eval. reflexivity. Qed.

(** [safe_remove_file] call by call: [failed k] says whether the oracle
    fails the k-th call it makes. *)
Lemma safe_remove_file_eval : forall p root fl bb bq,
  safe_remove_file p (mkWorld root fl bb bq) =
  (let failed k := nth k fl false in
   let mk r k := mkWorld r (skipn k fl) bb bq in
   if failed 0%nat then (0, mk root 1%nat) else
   if negb (exists_at root p) then (0, mk root 1%nat) else
   if failed 1%nat then (0, mk root 2%nat) else
   if is_symlink_at root p then (0, mk root 2%nat) else
   let size := if failed 2%nat then 0
               else match stat_node true root p with
                    | Some n => st_size (stat_of n)
                    | None => 0
                    end in
   let root1 := if failed 3%nat then root
                else match chmod_rw_at root p with Some r => r | None => root end in
   if failed 4%nat then (0, mk root1 5%nat) else
   match unlink_at root1 p with
   | Some r => (size, mk r 5%nat)
   | None => (0, mk root1 5%nat)
   end).
Proof.
  intros p root fl bb bq. cbv zeta.
  unfold safe_remove_file, try_except at 1, bind at 1.
  unfold Path_exists. change fl with (skipn 0 fl) at 1. rewrite fs_query_eval.
  destruct (nth 0 fl false); [reflexivity|].
  destruct (exists_at root p); cbn [negb]; [|reflexivity].
  unfold bind at 1, Path_is_symlink. rewrite fs_query_eval.
  destruct (nth 1 fl false); [reflexivity|].
  destruct (is_symlink_at root p); [reflexivity|].
  unfold bind at 1, lift at 1, try_except at 1, bind at 1, Path_stat.
  rewrite fs_query_eval.
  unfold bind at 1, lift at 1, try_except at 1, os_chmod_rw.
  unfold bind at 1, Path_unlink_missing_ok, ret, giving, pass.
  destruct (nth 2 fl false);
    [|destruct (stat_node true root p); cbn [option_map]];
    rewrite fs_update_eval;
    (destruct (nth 3 fl false); [|destruct (chmod_rw_at root p)]);
    rewrite fs_update_eval;
    (destruct (nth 4 fl false); [reflexivity|]);
    match goal with |- context [unlink_at ?r p] => destruct (unlink_at r p) end;
    reflexivity.
Qed.

(** ** Name resolution is blind to file attributes *)

Lemma same_route_refl : forall a, same_route a a.
Proof. intros [n| |t r]; cbn; auto. Qed.

Lemma lookup_path_set_file : forall p root q s ro v,
  node_at root q = Some (File s ro) -> is_file_node v = true ->
  same_route (lookup_path (set_at root q v) p) (lookup_path root p).
Proof.
  induction p as [|x p IH]; intros root q s ro v Hq Hv.
  - cbn. right. destruct q as [|y q].
    + cbn in *. injection Hq as ->. destruct v; try discriminate. auto.
    + destruct root; try discriminate. auto.
  - destruct q as [|y q].
    + cbn in Hq. injection Hq as ->. cbn. destruct v; try discriminate. exact I.
    + destruct root as [| es |]; try discriminate.
      cbn [set_at lookup_path node_at] in *.
      rewrite assoc_update_entry.
      destruct (String.eqb_spec y x) as [->|Hne]; [|apply same_route_refl].
      destruct (assoc x es) as [c|]; [|discriminate]. cbn [option_map].
      eapply IH; eassumption.
Qed.

Lemma realpath_same_route : forall root root',
  (forall p, same_route (lookup_path root' p) (lookup_path root p)) ->
  forall hops follow p, realpath hops root' follow p = realpath hops root follow p.
Proof.
  intros root root' H. induction hops as [|h IH]; intros follow p; cbn;
    specialize (H p);
    destruct (lookup_path root' p) as [n| |t r], (lookup_path root p) as [m| |t' r'];
    cbn in H; try contradiction; try reflexivity.
  - destruct H as [->|[Hn Hm]]; [reflexivity|]. destruct n, m; try discriminate; reflexivity.
  - destruct H as [->|[Hn Hm]]; [destruct m; try reflexivity; destruct follow; auto|].
    destruct n, m; try discriminate; reflexivity.
  - destruct H as [-> ->]. apply IH.
Qed.

Lemma realpath_set_file : forall root q s ro v hops follow p,
  node_at root q = Some (File s ro) -> is_file_node v = true ->
  realpath hops (set_at root q v) follow p = realpath hops root follow p.
Proof.
  intros. apply realpath_same_route. intros p'. eapply lookup_path_set_file; eassumption.
Qed.

(** A name whose last component is no link resolves the same way whether or
    not a last link would be followed. *)
Lemma realpath_follow_plain : forall hops root p q n,
  realpath hops root false p = Some q -> node_at root q = Some n -> is_link n = false ->
  realpath hops root true p = Some q.
Proof.
  induction hops as [|h IH]; intros root p q n H Hq Hl; cbn in *.
  - destruct (lookup_path root p) as [m| |t r] eqn:Hp; try discriminate.
    apply lookup_path_found in Hp.
    destruct m; try exact H. injection H as <-. rewrite Hp in Hq. injection Hq as <-. discriminate.
  - destruct (lookup_path root p) as [m| |t r] eqn:Hp; try discriminate.
    + apply lookup_path_found in Hp.
      destruct m; try exact H. injection H as <-. rewrite Hp in Hq. injection Hq as <-. discriminate.
    + eapply IH; eassumption.
Qed.

(** ** Single-file removal *)

(** C6.  [safe_remove_file] is of type [T Z] (every exit is a [return]) and
    its value is never negative.  It returns 0 and touches nothing when the
    path does not exist, is a symbolic link, or the existence or link check
    fails.  On a regular file it reads the size, tries to clear the read-only
    attribute and unlinks: the file goes unless the unlink fails or the file
    is read-only and the attribute could not be cleared, and then 0 is
    returned; when the file goes the size read is returned, which is 0 when
    reading the size failed.  [failed k] says whether the k-th call (exists,
    is_symlink, stat, chmod, unlink) fails. *)
Theorem safe_remove_file_cases : forall p w,
  let r := fst (safe_remove_file p w) in
  let root' := fs (snd (safe_remove_file p w)) in
  let failed k := nth k (faults w) false in
  0 <= r /\
  (stat_node true (fs w) p = None -> r = 0 /\ root' = fs w) /\
  (forall dl t, stat_node false (fs w) p = Some (Link dl t) -> r = 0 /\ root' = fs w) /\
  (failed 0%nat = true \/ failed 1%nat = true -> r = 0 /\ root' = fs w) /\
  (forall q s ro,
     realpath MAX_LINK_HOPS (fs w) false p = Some q ->
     node_at (fs w) q = Some (File s ro) -> q <> [] ->
     failed 0%nat = false -> failed 1%nat = false ->
     let cleared := negb (failed 3%nat) in
     let deleted := negb (failed 4%nat) && (negb ro || cleared) in
     r = (if deleted && negb (failed 2%nat) then Z.of_N s else 0) /\
     root' = (if deleted then remove_at (fs w) q
              else if cleared then set_at (fs w) q (File s false) else fs w)).
Proof.
  intros p [root fl bb bq]. cbv zeta. cbn [fs faults].
  rewrite safe_remove_file_eval. cbv zeta.
  split; [|split; [|split; [|split]]].
  - destruct (nth 0 fl false); [cbn; lia|].
    destruct (exists_at root p); [|cbn; lia]. cbn [negb].
    destruct (nth 1 fl false); [cbn; lia|].
    destruct (is_symlink_at root p); [cbn; lia|].
    destruct (nth 4 fl false); [cbn; lia|].
    match goal with |- context [unlink_at ?r p] => destruct (unlink_at r p) end; [|cbn; lia].
    cbn [fst]. destruct (nth 2 fl false); [lia|].
    destruct (stat_node true root p) as [[| |]|]; cbn; lia.
  - intros Hmissing. unfold exists_at. rewrite Hmissing. cbn [negb].
    destruct (nth 0 fl false); cbn; auto.
  - intros dl t Hlink. unfold is_symlink_at. rewrite Hlink. cbn [is_link].
    destruct (nth 0 fl false); [cbn; auto|].
    destruct (negb (exists_at root p)); [cbn; auto|].
    destruct (nth 1 fl false); cbn; auto.
  - intros [H|H]; rewrite H; [cbn; auto|].
    destruct (nth 0 fl false); [cbn; auto|].
    destruct (negb (exists_at root p)); cbn; auto.
  - intros q s ro Hq Hn Hne H0 H1. rewrite H0, H1.
    assert (Hqt : realpath MAX_LINK_HOPS root true p = Some q)
      by (eapply realpath_follow_plain; [exact Hq|exact Hn|reflexivity]).
    assert (Hex : exists_at root p = true)
      by (unfold exists_at, stat_node; rewrite Hqt, Hn; reflexivity).
    assert (Hsl : is_symlink_at root p = false)
      by (unfold is_symlink_at, stat_node; rewrite Hq, Hn; reflexivity).
    assert (Hst : stat_node true root p = Some (File s ro))
      by (unfold stat_node; rewrite Hqt; exact Hn).
    assert (Hch : chmod_rw_at root p = Some (set_at root q (File s false)))
      by (unfold chmod_rw_at; rewrite Hqt, Hn; reflexivity).
    assert (Hun : unlink_at root p = if ro then None else Some (remove_at root q)).
    { unfold unlink_at. rewrite Hq, Hn. destruct q; [congruence|]. destruct ro; reflexivity. }
    assert (Hun' : unlink_at (set_at root q (File s false)) p = Some (remove_at root q)).
    { unfold unlink_at. rewrite (realpath_set_file root q s ro (File s false) _ _ _ Hn eq_refl), Hq.
      rewrite (node_at_set_at_same _ _ _ _ Hn), remove_at_set_at_same by exact Hne.
      destruct q; [congruence|reflexivity]. }
    rewrite Hex, Hsl, Hst, Hch. cbn [negb stat_of st_size].
    destruct (nth 2 fl false), (nth 3 fl false), (nth 4 fl false), ro;
      cbn [negb andb orb]; rewrite ?Hun, ?Hun'; cbn [fst snd fs]; auto.
Qed.

(** A writable file, a read-only file whose attribute cannot be cleared, and
    a file whose size cannot be read. *)
Lemma safe_remove_file_cases_witness :
  let p := ["d"; "a.txt"] in
  let w := with_faults [false; false; true] sample_world in
  realpath MAX_LINK_HOPS (fs w) false p = Some p /\
  node_at (fs w) p = Some (File 10 false) /\
  fst (safe_remove_file p w) = 0 /\
  fs (snd (safe_remove_file p w)) = remove_at (fs w) p.
Proof.
  cbv zeta.
  pose proof (safe_remove_file_cases ["d"; "a.txt"]
                (with_faults [false; false; true] sample_world)) as H.
  cbv zeta in H. destruct H as (_ & _ & _ & _ & H).
  specialize (H ["d"; "a.txt"] 10%N false eq_refl eq_refl ltac:(discriminate) eq_refl eq_refl).
  split; [reflexivity|]. split; [reflexivity|]. exact H.
Defined.

(** ** What a call can do to the file system

    One change: clearing a read-only attribute, unlinking a regular file and,
    when [dirs] is set, removing an empty directory or a directory link. *)

Lemma fs_steps_trans : forall dirs a b c,
  fs_steps dirs a b -> fs_steps dirs b c -> fs_steps dirs a c.
Proof.
  intros dirs a b c Hab Hbc. induction Hab; [exact Hbc|].
  eapply steps_cons; [eassumption|]. apply IHHab. exact Hbc.
Qed.

Lemma fs_steps_one : forall dirs a b, fs_step dirs a b -> fs_steps dirs a b.
Proof. intros. eapply steps_cons; [eassumption|apply steps_refl]. Qed.

Lemma fs_step_dirs : forall a b, fs_step false a b -> fs_step true a b.
Proof.
  intros a b H. destruct H; try discriminate.
  - eapply step_chmod; eassumption.
  - eapply step_unlink; eassumption.
Qed.

Lemma fs_steps_dirs : forall a b, fs_steps false a b -> fs_steps true a b.
Proof.
  intros a b H. induction H; [apply steps_refl|].
  eapply steps_cons; [apply fs_step_dirs; eassumption|assumption].
Qed.

(** *** Bytes *)

Lemma du_cons : forall e es, du (Dir (e :: es)) = du (snd e) + du (Dir es).
Proof. reflexivity. Qed.

Lemma du_nonneg : forall n, 0 <= du n.
Proof.
  fix IH 1. intros [s ro|es|dl t]; cbn [du]; try lia.
  induction es as [|e es IHes]; [lia|].
  specialize (IH (snd e)). lia.
Qed.

Lemma du_update_entry : forall x f es c,
  assoc x es = Some c ->
  du (Dir (update_entry x f es)) = du (Dir es) - du c + du (f c).
Proof.
  intros x f es c. induction es as [|[z n] es IH]; intros H; [discriminate|].
  cbn [assoc update_entry] in *. unfold named. cbn [fst snd].
  destruct (String.eqb z x).
  - injection H as ->. rewrite !du_cons. cbn [snd]. lia.
  - rewrite !du_cons, IH by exact H. cbn [snd]. lia.
Qed.

Lemma du_remove_entry : forall x es c,
  assoc x es = Some c ->
  du (Dir (remove_entry x es)) = du (Dir es) - du c.
Proof.
  intros x es c. induction es as [|[z n] es IH]; intros H; [discriminate|].
  cbn [assoc remove_entry] in *. unfold named. cbn [fst snd].
  destruct (String.eqb z x).
  - injection H as ->. rewrite !du_cons. cbn [snd]. lia.
  - rewrite !du_cons, IH by exact H. cbn [snd]. lia.
Qed.

Lemma remove_at_deep : forall es x y q,
  remove_at (Dir es) (x :: y :: q) = Dir (update_entry x (fun c => remove_at c (y :: q)) es).
Proof. reflexivity. Qed.

Lemma du_set_at : forall q root n v,
  node_at root q = Some n -> du (set_at root q v) = du root - du n + du v.
Proof.
  induction q as [|x q IH]; intros root n v H.
  - cbn in *. injection H as ->. lia.
  - destruct root as [| es |]; try discriminate. cbn [node_at set_at] in *.
    destruct (assoc x es) as [c|] eqn:Hc; [|discriminate].
    rewrite (du_update_entry _ _ _ _ Hc). cbv beta. rewrite (IH _ _ _ H). lia.
Qed.

Lemma du_remove_at : forall q root n,
  q <> [] -> node_at root q = Some n -> du (remove_at root q) = du root - du n.
Proof.
  induction q as [|x q IH]; intros root n Hne H; [congruence|].
  destruct root as [| es |]; try discriminate. cbn [node_at] in H.
  destruct (assoc x es) as [c|] eqn:Hc; [|discriminate].
  destruct q as [|y q].
  - cbn in *. injection H as ->. apply du_remove_entry. exact Hc.
  - rewrite remove_at_deep, (du_update_entry _ _ _ _ Hc).
    rewrite (IH c n) by (try discriminate; exact H). lia.
Qed.

Lemma fs_step_du : forall dirs a b, fs_step dirs a b -> du b <= du a.
Proof.
  intros dirs a b H. destruct H.
  - rewrite (du_set_at _ _ _ _ H). cbn. lia.
  - rewrite (du_remove_at _ _ _ H H0). cbn. lia.
  - rewrite (du_remove_at _ _ _ H0 H1). cbn. lia.
  - rewrite (du_remove_at _ _ _ H0 H1). cbn. lia.
Qed.

Lemma fs_steps_du : forall dirs a b, fs_steps dirs a b -> du b <= du a.
Proof.
  intros dirs a b H. induction H; [lia|]. apply fs_step_du in H. lia.
Qed.

(** *** Nodes off the path of a change *)

Lemma node_at_childless : forall n q m,
  childless n = true -> node_at n q = Some m -> q = [].
Proof.
  intros n [|x q] m Hc H; [reflexivity|].
  destruct n as [| [|e es] |]; cbn in *; discriminate.
Qed.

(** A node stays where it is when an entry off its path goes or is
    replaced. *)
Lemma node_at_remove_at : forall q' q root m n',
  node_at root q = Some m -> childless m = true ->
  (forall r, q <> q' ++ r) ->
  node_at root q' = Some n' ->
  node_at (remove_at root q) q' = Some n'.
Proof.
  induction q' as [|x q' IH]; intros q root m n' Hq Hm Hpre Hn'.
  - exfalso. apply (Hpre q). reflexivity.
  - destruct q as [|y q]; [exact Hn'|].
    destruct root as [| es |]; try discriminate.
    cbn [node_at] in Hq, Hn'. destruct (assoc y es) as [c|] eqn:Hc; [|discriminate].
    destruct q as [|z q].
    + cbn in Hq. injection Hq as ->. cbn [remove_at node_at].
      destruct (String.eqb_spec y x) as [->|Hne].
      * rewrite Hc in Hn'. apply node_at_childless in Hn'; [|exact Hm]. subst q'.
        exfalso. apply (Hpre []). reflexivity.
      * rewrite assoc_remove_entry_other by exact Hne. exact Hn'.
    + rewrite remove_at_deep. cbn [node_at]. rewrite assoc_update_entry.
      destruct (String.eqb_spec y x) as [->|Hne]; [|exact Hn'].
      rewrite Hc in *. cbn [option_map]. eapply IH; [exact Hq|exact Hm| |exact Hn'].
      intros r Hr. apply (Hpre r). cbn. congruence.
Qed.

Lemma node_at_set_at : forall q' q root m v n',
  node_at root q = Some m -> childless m = true -> childless v = true ->
  (forall r, q <> q' ++ r) ->
  node_at root q' = Some n' ->
  node_at (set_at root q v) q' = Some n'.
Proof.
  induction q' as [|x q' IH]; intros q root m v n' Hq Hm Hv Hpre Hn'.
  - exfalso. apply (Hpre q). reflexivity.
  - destruct q as [|y q].
    + cbn in Hq. injection Hq as ->. apply node_at_childless in Hn'; [discriminate|exact Hm].
    + destruct root as [| es |]; try discriminate.
      cbn [node_at set_at] in *. rewrite assoc_update_entry.
      destruct (String.eqb_spec y x) as [->|Hne]; [|exact Hn'].
      destruct (assoc x es) as [c|] eqn:Hc; [|discriminate]. cbn [option_map].
      eapply IH; [exact Hq|exact Hm|exact Hv| |exact Hn'].
      intros r Hr. apply (Hpre r). cbn. congruence.
Qed.

(** A leaf is off the path of every change but its own. *)
Lemma leaf_off_path : forall root q q' m n',
  node_at root q = Some m -> node_at root q' = Some n' ->
  childless n' = true -> q <> q' -> forall r, q <> q' ++ r.
Proof.
  intros root q q' m n' Hq Hn' Hleaf Hne r ->.
  rewrite node_at_app, Hn' in Hq.
  apply node_at_childless in Hq; [|exact Hleaf]. subst r.
  apply Hne. apply app_nil_r.
Qed.

(** Links outlive every change that is not their own removal: a file link
    always, a directory link as long as no directory is removed. *)
Lemma fs_step_link : forall dirs root root' q dl t,
  fs_step dirs root root' ->
  dirs && dl = false ->
  node_at root q = Some (Link dl t) -> node_at root' q = Some (Link dl t).
Proof.
  intros dirs root root' q dl t Hstep Hd Hl.
  destruct Hstep as [root p s ro Hp|root p s ro Hne Hp|root p -> Hne Hp|root p t' -> Hne Hp].
  - eapply node_at_set_at; [exact Hp|reflexivity|reflexivity| |exact Hl].
    eapply leaf_off_path; [exact Hp|exact Hl|reflexivity|]. intros ->. congruence.
  - eapply node_at_remove_at; [exact Hp|reflexivity| |exact Hl].
    eapply leaf_off_path; [exact Hp|exact Hl|reflexivity|]. intros ->. congruence.
  - eapply node_at_remove_at; [exact Hp|reflexivity| |exact Hl].
    eapply leaf_off_path; [exact Hp|exact Hl|reflexivity|]. intros ->. congruence.
  - eapply node_at_remove_at; [exact Hp|reflexivity| |exact Hl].
    eapply leaf_off_path; [exact Hp|exact Hl|reflexivity|]. intros ->.
    rewrite Hp in Hl. injection Hl as <- <-. discriminate.
Qed.

Lemma fs_steps_link : forall dirs root root' q dl t,
  fs_steps dirs root root' ->
  dirs && dl = false ->
  node_at root q = Some (Link dl t) -> node_at root' q = Some (Link dl t).
Proof.
  intros dirs root root' q dl t H Hd. induction H; intros Hl; [exact Hl|].
  apply IHfs_steps. eapply fs_step_link; eassumption.
Qed.

(** ** Reasoning about effects

    [wp m Q w]: running [m] in [w] ends in an outcome and a world that
    satisfy [Q]; [wpT] is the same for code that cannot raise. *)

Lemma wp_ret : forall A (a : A) (Q : result A -> world -> Prop) w, Q (Ok a) w -> wp (ret a) Q w.
Proof. intros. exact H. Qed.

Lemma wp_raise : forall A (Q : result A -> world -> Prop) w, Q Raise w -> wp raise Q w.
Proof. intros. exact H. Qed.

Lemma wp_bind : forall A B (m : M A) (k : A -> M B) (Q : result B -> world -> Prop) w,
  wp m (fun r w' => match r with Ok a => wp (k a) Q w' | Raise => Q Raise w' end) w ->
  wp (bind m k) Q w.
Proof.
  unfold wp, bind. intros A B m k Q w H. destruct (m w) as [[a|] w']; exact H.
Qed.

Lemma wp_lift : forall A (t : T A) (Q : result A -> world -> Prop) w,
  wpT t (fun a w' => Q (Ok a) w') w -> wp (lift t) Q w.
Proof.
  unfold wp, wpT, lift. intros A t Q w H. destruct (t w) as [a w']; exact H.
Qed.

Lemma wpT_try : forall A (body : M A) (handler : T A) (Q : A -> world -> Prop) w,
  wp body (fun r w' => match r with Ok a => Q a w' | Raise => wpT handler Q w' end) w ->
  wpT (try_except body handler) Q w.
Proof.
  unfold wp, wpT, try_except. intros A body handler Q w H.
  destruct (body w) as [[a|] w']; exact H.
Qed.

Lemma wpT_bind : forall A B (t : T A) (k : A -> T B) (Q : B -> world -> Prop) w,
  wpT t (fun a w' => wpT (k a) Q w') w -> wpT (bindT t k) Q w.
Proof.
  unfold wpT, bindT. intros A B t k Q w H. destruct (t w) as [a w']; exact H.
Qed.

Lemma wpT_giving : forall A (a : A) (Q : A -> world -> Prop) w, Q a w -> wpT (giving a) Q w.
Proof. intros. exact H. Qed.

Lemma wp_mono : forall A (m : M A) (Q Q' : result A -> world -> Prop) w,
  wp m Q w -> (forall r w', Q r w' -> Q' r w') -> wp m Q' w.
Proof. unfold wp. intros. auto. Qed.

Lemma wpT_mono : forall A (t : T A) (Q Q' : A -> world -> Prop) w,
  wpT t Q w -> (forall a w', Q a w' -> Q' a w') -> wpT t Q' w.
Proof. unfold wpT. intros. auto. Qed.

(** A reading call leaves the file system alone and, unless it fails,
    answers from it. *)
Lemma wp_fs_query : forall A (f : node -> option A) (Q : result A -> world -> Prop) w,
  (forall w', fs w' = fs w ->
     Q Raise w' /\ forall a, f (fs w) = Some a -> Q (Ok a) w') ->
  wp (fs_query f) Q w.
Proof.
  intros A f Q [root fl bb bq] H. unfold wp.
  change fl with (skipn 0 fl). rewrite fs_query_eval.
  destruct (nth 0 fl false); [apply H; reflexivity|].
  destruct (f root) eqn:Hf; apply H; auto.
Qed.

(** A changing call either fails, leaving the file system alone, or leaves
    what its effect says. *)
Lemma wp_fs_update : forall (f : node -> option node) (Q : result unit -> world -> Prop) w,
  (forall w', (fs w' = fs w -> Q Raise w') /\
              (forall root', f (fs w) = Some root' -> fs w' = root' -> Q (Ok tt) w')) ->
  wp (fs_update f) Q w.
Proof.
  intros f Q [root fl bb bq] H. unfold wp.
  change fl with (skipn 0 fl). rewrite fs_update_eval. cbn [fst snd].
  destruct (nth 0 fl false); [apply (proj1 (H _)); reflexivity|].
  destruct (f root) as [root'|] eqn:Hf; cbn [fst snd].
  - apply (proj2 (H _) root'); [exact Hf|reflexivity].
  - apply (proj1 (H _)); reflexivity.
Qed.

Lemma wp_get_fs : forall (Q : result node -> world -> Prop) w,
  Q (Ok (fs w)) w -> wp get_fs Q w.
Proof. intros. exact H. Qed.

(** Loops, by an invariant on the running total and the world. *)
Lemma wpT_for_try : forall E (I : Z -> world -> Prop) (body : E -> Z -> M Z) l freed w,
  (forall e f w1, I f w1 ->
     wp (body e f) (fun r w2 => match r with Ok f' => I f' w2 | Raise => I f w2 end) w1) ->
  I freed w ->
  wpT (for_try l body freed) I w.
Proof.
  intros E I body l. induction l as [|e l IH]; intros freed w Hbody HI; [exact HI|].
  unfold wpT. cbn [for_try]. specialize (Hbody e freed w HI) as Hb. unfold wp in Hb.
  destruct (body e freed w) as [[f'|] w']; cbn [fst snd] in Hb; [|exact Hb].
  apply IH; assumption.
Qed.

Lemma wpT_for_T : forall E (I : Z -> world -> Prop) (body : E -> Z -> T Z) l freed w,
  (forall e f w1, I f w1 -> wpT (body e f) I w1) ->
  I freed w ->
  wpT (for_T l body freed) I w.
Proof.
  intros E I body l. induction l as [|e l IH]; intros freed w Hbody HI; [exact HI|].
  cbn [for_T]. apply wpT_bind. eapply wpT_mono; [apply Hbody; exact HI|].
  intros a w' Ha. apply IH; assumption.
Qed.

Lemma wp_for_M : forall E (I : Z -> world -> Prop) (J : world -> Prop)
    (body : E -> Z -> M Z) l freed w,
  (forall e f w1, I f w1 ->
     wp (body e f) (fun r w2 => match r with Ok f' => I f' w2 | Raise => J w2 end) w1) ->
  I freed w ->
  wp (for_M l body freed) (fun r w' => match r with Ok f => I f w' | Raise => J w' end) w.
Proof.
  intros E I J body l. induction l as [|e l IH]; intros freed w Hbody HI; [exact HI|].
  cbn [for_M]. apply wp_bind. eapply wp_mono; [apply Hbody; exact HI|].
  intros [f'|] w' H; [|exact H]. apply IH; assumption.
Qed.

(** ** What single-file removal does to the file system *)

Lemma realpath_nofollow_of_follow : forall hops root p q,
  realpath hops root true p = Some q -> exists q', realpath hops root false p = Some q'.
Proof.
  induction hops as [|h IH]; intros root p q H; cbn in *;
    destruct (lookup_path root p) as [[| |]| |]; try discriminate; eauto.
Qed.

(** Past the two checks of [safe_remove_file] the name resolves, the same
    way for every call, to a node that is no link. *)
Lemma checks_passed : forall root p,
  exists_at root p = true -> is_symlink_at root p = false ->
  exists q n, realpath MAX_LINK_HOPS root false p = Some q /\
              realpath MAX_LINK_HOPS root true p = Some q /\
              node_at root q = Some n /\ is_link n = false.
Proof.
  unfold exists_at, is_symlink_at, stat_node. intros root p Hex Hsl.
  destruct (realpath MAX_LINK_HOPS root true p) as [q0|] eqn:Ht; [|discriminate].
  destruct (realpath_nofollow_of_follow _ _ _ _ Ht) as [q Hf].
  destruct (realpath_sound _ _ _ _ _ Hf) as (n & Hn & _).
  rewrite Hf, Hn in Hsl.
  pose proof (realpath_follow_plain _ _ _ _ _ Hf Hn Hsl) as Hqq.
  rewrite Ht in Hqq. injection Hqq as ->.
  exists q, n. repeat split; assumption.
Qed.

Lemma safe_remove_file_outcome : forall p w,
  let r := fst (safe_remove_file p w) in
  let root' := fs (snd (safe_remove_file p w)) in
  (r = 0 /\ root' = fs w) \/
  (exists q s ro,
     realpath MAX_LINK_HOPS (fs w) false p = Some q /\
     node_at (fs w) q = Some (File s ro) /\
     ((r = 0 /\ root' = set_at (fs w) q (File s false)) \/
      (q <> [] /\ 0 <= r <= Z.of_N s /\ root' = remove_at (fs w) q))).
Proof.
  intros p [root fl bb bq]. cbv zeta. cbn [fs].
  rewrite safe_remove_file_eval. cbv zeta.
  destruct (nth 0 fl false); [left; auto|].
  destruct (exists_at root p) eqn:Hex; cbn [negb]; [|left; auto].
  destruct (nth 1 fl false); [left; auto|].
  destruct (is_symlink_at root p) eqn:Hsl; [left; auto|].
  destruct (checks_passed _ _ Hex Hsl) as (q & n & Hq & Hqt & Hn & Hl).
  assert (Hst : stat_node true root p = Some n) by (unfold stat_node; rewrite Hqt; exact Hn).
  rewrite Hst.
  destruct n as [s ro|es|]; [| |discriminate].
  - assert (Hch : chmod_rw_at root p = Some (set_at root q (File s false)))
      by (unfold chmod_rw_at; rewrite Hqt, Hn; reflexivity).
    assert (Hun : unlink_at root p =
                  match q with [] => None | _ => if ro then None else Some (remove_at root q) end).
    { unfold unlink_at. rewrite Hq. destruct q; [reflexivity|]. rewrite Hn. destruct ro; reflexivity. }
    assert (Hun' : unlink_at (set_at root q (File s false)) p =
                   match q with [] => None | _ => Some (remove_at root q) end).
    { unfold unlink_at. rewrite (realpath_set_file root q s ro (File s false) _ _ _ Hn eq_refl), Hq.
      destruct q as [|x q]; [reflexivity|].
      rewrite (node_at_set_at_same _ _ _ _ Hn), remove_at_set_at_same by discriminate.
      reflexivity. }
    rewrite Hch. cbn [stat_of st_size].
    assert (Hsize : 0 <= (if nth 2 fl false then 0 else Z.of_N s) <= Z.of_N s)
      by (destruct (nth 2 fl false); lia).
    destruct (nth 3 fl false).
    + (* the attribute stays *)
      destruct (nth 4 fl false); [left; auto|]. rewrite Hun.
      destruct q as [|x q]; [left; auto|].
      destruct ro; [left; auto|].
      right. exists (x :: q), s, false. split; [exact Hq|]. split; [exact Hn|]. right.
      split; [discriminate|]. split; [exact Hsize|reflexivity].
    + (* the attribute is cleared *)
      right. exists q, s, ro. split; [exact Hq|]. split; [exact Hn|].
      destruct (nth 4 fl false); [left; auto|]. rewrite Hun'.
      destruct q as [|x q]; [left; auto|].
      right. split; [discriminate|]. split; [exact Hsize|reflexivity].
  - (* a directory: [unlink] refuses *)
    assert (Hch : chmod_rw_at root p = Some root)
      by (unfold chmod_rw_at; rewrite Hqt, Hn; reflexivity).
    assert (Hun : unlink_at root p = None).
    { unfold unlink_at. rewrite Hq. destruct q; [reflexivity|]. rewrite Hn. reflexivity. }
    rewrite Hch. left.
    destruct (nth 3 fl false), (nth 4 fl false); rewrite ?Hun; auto.
Qed.

Lemma safe_remove_file_link : forall p w dl t,
  stat_node false (fs w) p = Some (Link dl t) ->
  fst (safe_remove_file p w) = 0 /\ fs (snd (safe_remove_file p w)) = fs w.
Proof.
  intros p [root fl bb bq] dl t Hlink. cbn [fs] in *.
  rewrite safe_remove_file_eval. cbv zeta.
  unfold is_symlink_at. rewrite Hlink. cbn [is_link].
  destruct (nth 0 fl false); [cbn; auto|].
  destruct (negb (exists_at root p)); [cbn; auto|].
  destruct (nth 1 fl false); cbn; auto.
Qed.

Lemma within_same_fs : forall dirs root0 freed w w',
  within dirs root0 freed w -> fs w' = fs w -> within dirs root0 freed w'.
Proof. unfold within. intros dirs root0 freed w w' H ->. exact H. Qed.

Lemma within_start : forall dirs w, within dirs (fs w) 0 w.
Proof. intros. split; [apply steps_refl|lia]. Qed.

Lemma within_step : forall dirs root0 freed w w',
  within dirs root0 freed w -> fs_step dirs (fs w) (fs w') -> within dirs root0 freed w'.
Proof.
  intros dirs root0 freed w w' (Hs & Hf & Hd) Hstep. split; [|split; [exact Hf|]].
  - eapply fs_steps_trans; [exact Hs|apply fs_steps_one; exact Hstep].
  - apply fs_step_du in Hstep. lia.
Qed.

Lemma wpT_safe_remove_file : forall dirs root0 p freed w,
  within dirs root0 freed w ->
  wpT (safe_remove_file p) (fun d w' => within dirs root0 (freed + d) w') w.
Proof.
  intros dirs root0 p freed w (Hs & Hf & Hd). unfold wpT, within.
  assert (Hany : forall a b, fs_step false a b -> fs_step dirs a b)
    by (intros a b H; destruct dirs; [apply fs_step_dirs|]; exact H).
  pose proof (safe_remove_file_outcome p w) as H. cbv zeta in H.
  destruct H as [[Hr Hfs]|(q & s & ro & _ & Hq & [[Hr Hfs]|(Hne & Hr & Hfs)])]; rewrite Hfs.
  - rewrite Hr, Z.add_0_r. split; [exact Hs|lia].
  - rewrite Hr, Z.add_0_r. split; [|split; [lia|]].
    + eapply fs_steps_trans; [exact Hs|]. apply fs_steps_one, Hany. eapply step_chmod; exact Hq.
    + rewrite (du_set_at _ _ _ _ Hq). cbn. lia.
  - split; [|split; [lia|]].
    + eapply fs_steps_trans; [exact Hs|]. apply fs_steps_one, Hany. eapply step_unlink; eassumption.
    + rewrite (du_remove_at _ _ _ Hne Hq). cbn. lia.
Qed.

Lemma wpT_scan_try : forall (body : DirEntry -> Z -> M Z) p (Q : Z -> world -> Prop) w,
  (forall w1, fs w1 = fs w ->
     Q 0 w1 /\
     forall entries, listdir (fs w) p = Some entries -> wpT (for_try entries body 0) Q w1) ->
  wpT (scan_try p body) Q w.
Proof.
  intros body p Q w H. unfold wpT, scan_try.
  pose proof (wp_fs_query _ (fun root => listdir root p)
                (fun r w1 => match r with
                             | Ok entries => wpT (for_try entries body 0) Q w1
                             | Raise => Q 0 w1
                             end) w) as Hq.
  unfold wp in Hq. unfold os_scandir.
  destruct (fs_query (fun root => listdir root p) w) as [[entries|] w1]; cbn [fst snd] in *;
    apply Hq; intros w' Hw'; destruct (H w' Hw') as [H0 Hl]; auto.
Qed.

(** ** Pattern deletion *)

Lemma wp_delete_globs : forall fnmatch folder patterns w,
  wp (delete_globs fnmatch folder patterns)
     (fun r w' => within false (fs w) (match r with Ok v => v | Raise => 0 end) w') w.
Proof.
  intros fnmatch folder patterns w. unfold delete_globs.
  assert (Hkeep : forall w', fs w' = fs w -> within false (fs w) 0 w')
    by (intros w' Hw'; eapply within_same_fs; [apply within_start|exact Hw']).
  apply wp_bind, wp_fs_query. intros w1 Hw1. split; [auto|]. intros ex _.
  destruct ex; cbn [negb]; [|apply wp_ret; auto].
  apply wp_bind, wp_fs_query. intros w2 Hw2. rewrite Hw1 in Hw2.
  split; [auto|]. intros isdir _.
  destruct isdir; cbn [negb]; [|apply wp_ret; auto].
  apply wp_lift, wpT_scan_try. intros w3 Hw3. rewrite Hw2 in Hw3. split; [auto|].
  intros entries _. apply wpT_for_try; [|auto].
  intros e f w4 HI. unfold DirEntry_is_file.
  apply wp_bind, wp_bind, wp_get_fs, wp_ret.
  destruct (entry_is_file (fs w4) e); [|apply wp_ret; exact HI].
  destruct (existsb (fnmatch (de_name e)) patterns); [|apply wp_ret; exact HI].
  apply wp_bind, wp_lift. eapply wpT_mono; [apply wpT_safe_remove_file; exact HI|].
  intros d w5 H5. apply wp_ret. exact H5.
Qed.



(** ** One run at a time *)

Section Window.

Variable fnmatch : string -> string -> bool.
Variables TEMP LOCALAPPDATA APPDATA : path.

Abbreviation start_clean' := (start_clean fnmatch TEMP LOCALAPPDATA APPDATA).
Abbreviation act' := (act fnmatch TEMP LOCALAPPDATA APPDATA).
Abbreviation run_actions' := (run_actions fnmatch TEMP LOCALAPPDATA APPDATA).
Abbreviation launch' := (launch fnmatch TEMP LOCALAPPDATA APPDATA).
Abbreviation deliver' := (deliver fnmatch TEMP LOCALAPPDATA APPDATA).

Lemma nth_error_set_nth : forall A (l : list A) n m x,
  nth_error (set_nth n x l) m =
  if Nat.eqb n m then match nth_error l m with Some _ => Some x | None => None end
  else nth_error l m.
Proof.
  induction l as [|y l IH]; intros n m x.
  - cbn. destruct m; destruct (Nat.eqb n _); reflexivity.
  - destruct n as [|n], m as [|m]; cbn; try reflexivity. apply IH.
Qed.

Lemma cleaner_set_busy : forall b q, cleaner (set_busy b q) = cleaner q.
Proof. reflexivity. Qed.

Lemma cleaner_deliver : forall e q w, cleaner (fst (deliver' e q w)) = cleaner q.
Proof.
  intros [name step total|bytes|bytes] q w; try reflexivity.
  cbn [deliver]. unfold bindT, refresh_browser_presence, bindT, giving.
  destruct (browser_presence LOCALAPPDATA APPDATA w) as [present w']. reflexivity.
Qed.

Lemma only_cleaner_runs_act : forall x a,
  only_cleaner_runs a -> only_cleaner_runs (act' x a).
Proof.
  intros x a Inv. destruct x as [|t0|t0| |name]; cbn [act].
  - (* a start request *)
    unfold start_clean. destruct (cleaner_running a) eqn:Hrun; [exact Inv|].
    intros t k Ht Hk. cbn [workers win cleaner] in *.
    destruct (Nat.lt_ge_cases t (List.length (workers a))) as [Hlt|Hge].
    + rewrite nth_error_app1 in Ht by exact Hlt.
      pose proof (Inv t k Ht Hk) as Hc.
      unfold cleaner_running, isRunning in Hrun. rewrite Hc, Ht, Hk in Hrun. discriminate.
    + rewrite nth_error_app2 in Ht by exact Hge.
      destruct (t - List.length (workers a))%nat as [|d] eqn:Hd.
      * f_equal. lia.
      * destruct d; discriminate.
  - (* a worker takes its next task *)
    unfold worker_task.
    destruct (nth_error (workers a) t0) as [[[|[name func] rest] i steps total [|]]|] eqn:H0;
      try exact Inv.
    destruct (invoke func (os a)) as [freed w'].
    intros t k Ht Hk. cbn [workers win] in *. rewrite nth_error_set_nth in Ht.
    destruct (Nat.eqb_spec t0 t) as [->|Hne]; [|exact (Inv t k Ht Hk)].
    eapply Inv; [exact H0|reflexivity].
  - (* a worker leaves [run] *)
    unfold worker_exit.
    destruct (nth_error (workers a) t0) as [[[|[name func] rest] i steps total [|]]|] eqn:H0;
      try exact Inv.
    intros t k Ht Hk. cbn [workers win] in *. rewrite nth_error_set_nth in Ht.
    destruct (Nat.eqb_spec t0 t) as [->|Hne]; [|exact (Inv t k Ht Hk)].
    rewrite H0 in Ht. injection Ht as <-. discriminate.
  - (* the window takes a signal *)
    destruct (inbox a) as [|e r]; [exact Inv|].
    pose proof (cleaner_deliver e (win a) (os a)) as Hc.
    destruct (deliver' e (win a) (os a)) as [q w']. cbn [fst] in Hc.
    intros t k Ht Hk. cbn [workers win] in *. rewrite Hc. exact (Inv t k Ht Hk).
  - (* a box is ticked *)
    intros t k Ht Hk. exact (Inv t k Ht Hk).
Qed.

Lemma only_cleaner_runs_launch : forall w, only_cleaner_runs (launch' w).
Proof.
  intros w t k Ht. unfold launch in Ht.
  destruct (refresh_browser_presence fnmatch TEMP LOCALAPPDATA APPDATA _ w) as [q w'].
  destruct t; discriminate.
Qed.

Lemma only_cleaner_runs_reachable : forall xs a,
  only_cleaner_runs a -> only_cleaner_runs (run_actions' xs a).
Proof.
  induction xs as [|x xs IH]; intros a Inv; [exact Inv|].
  cbn [run_actions fold_left]. apply IH, only_cleaner_runs_act, Inv.
Qed.

Lemma at_most_one_running : forall (l : list worker),
  (forall t t' k k', nth_error l t = Some k -> wk_running k = true ->
                     nth_error l t' = Some k' -> wk_running k' = true -> t = t') ->
  (List.length (filter wk_running l) <= 1)%nat.
Proof.
  induction l as [|k l IH]; intros H; [cbn; lia|].
  cbn [filter]. destruct (wk_running k) eqn:Hk.
  - assert (Hnone : filter wk_running l = []).
    { destruct (filter wk_running l) as [|k' r] eqn:Hf; [reflexivity|].
      assert (Hin : In k' (filter wk_running l)) by (rewrite Hf; left; reflexivity).
      apply filter_In in Hin. destruct Hin as [Hin Hk'].
      apply In_nth_error in Hin. destruct Hin as [t' Ht'].
      specialize (H O (S t') k k' eq_refl Hk Ht' Hk'). discriminate. }
    rewrite Hnone. cbn. lia.
  - apply IH. intros t t' k1 k2 H1 Hr1 H2 Hr2.
    specialize (H (S t) (S t') k1 k2 H1 Hr1 H2 Hr2). lia.
Qed.

(** C9.  In every state the application can reach at most one worker is
    running, and a start request made while the window's worker is running
    returns the state as it is: no worker is added, no signal is queued,
    nothing of the window changes. *)
Theorem one_run_at_a_time : forall w xs,
  let a := run_actions' xs (launch' w) in
  (running_workers a <= 1)%nat /\
  (cleaner_running a = true ->
   start_clean' a = a /\
   workers (act' RequestStart a) = workers a /\
   inbox (act' RequestStart a) = inbox a).
Proof.
  intros w xs a.
  assert (Inv : only_cleaner_runs a)
    by (apply only_cleaner_runs_reachable, only_cleaner_runs_launch).
  split.
  - apply at_most_one_running. intros t t' k k' Ht Hk Ht' Hk'.
    pose proof (Inv t k Ht Hk) as H1. pose proof (Inv t' k' Ht' Hk') as H2. congruence.
  - intros Hrun. cbn [act]. unfold start_clean. rewrite Hrun. auto.
Qed.

End Window.

(** Two start requests in a row on the sample disk: the second finds the
    first run active. *)
Lemma one_run_at_a_time_witness :
  let a := run_actions glob_match ["Temp"] ["Local"] ["Roaming"] [RequestStart]
             (launch glob_match ["Temp"] ["Local"] ["Roaming"] sample_world) in
  cleaner_running a = true /\
  (running_workers a <= 1)%nat /\
  start_clean glob_match ["Temp"] ["Local"] ["Roaming"] a = a.
Proof.
  cbv zeta.
  pose proof (one_run_at_a_time glob_match ["Temp"] ["Local"] ["Roaming"] sample_world
                [RequestStart]) as H.
  cbv zeta in H. destruct H as [H1 H2].
  split; [reflexivity|]. split; [exact H1|]. apply H2. reflexivity.
Defined.

(** ** Resolving a name one component further *)

Lemma lookup_path_app : forall p r n,
  lookup_path n (p ++ r) =
  match lookup_path n p with
  | Found m => lookup_path m r
  | Missing => Missing
  | ViaLink t rest => ViaLink t (rest ++ r)
  end.
Proof.
  induction p as [|x p IH]; intros r n; [reflexivity|].
  cbn [app lookup_path]. destruct n as [| es |]; try reflexivity.
  destruct (assoc x es); [apply IH|reflexivity].
Qed.

(** A name that resolves has a directory at every proper prefix. *)
Lemma realpath_prefix_dir : forall hops root follow p r q,
  r <> [] -> realpath hops root follow (p ++ r) = Some q ->
  exists q' es, realpath hops root true p = Some q' /\ node_at root q' = Some (Dir es).
Proof.
  induction hops as [|h IH]; intros root follow p r q Hr H; cbn [realpath] in *;
    rewrite lookup_path_app in H;
    destruct (lookup_path root p) as [n| |t rest] eqn:Hp; try discriminate.
  - destruct n as [| es |].
    + destruct r; [congruence|discriminate].
    + exists p, es. split; [reflexivity|]. apply lookup_path_found. exact Hp.
    + destruct r; [congruence|discriminate].
  - destruct n as [| es |].
    + destruct r; [congruence|discriminate].
    + exists p, es. split; [reflexivity|]. apply lookup_path_found. exact Hp.
    + destruct r as [|y r]; [congruence|]. cbn [lookup_path] in H.
      eapply IH; [|exact H]. discriminate.
  - rewrite app_assoc in H. eapply IH; eassumption.
Qed.

(** One more component, when the entry it names is no link to follow. *)
Lemma realpath_snoc : forall hops root follow p x q' es,
  realpath hops root true p = Some q' -> node_at root q' = Some (Dir es) ->
  match assoc x es with
  | Some c => is_link c && follow = false ->
              realpath hops root follow (p ++ [x]) = Some (q' ++ [x])
  | None => realpath hops root follow (p ++ [x]) = None
  end.
Proof.
  induction hops as [|h IH]; intros root follow p x q' es Hp Hq';
    cbn [realpath] in *; rewrite lookup_path_app;
    destruct (lookup_path root p) as [n| |t rest] eqn:Hl; try discriminate.
  - pose proof (lookup_path_found _ _ _ Hl) as Hn.
    destruct n as [| es0 |]; try discriminate; injection Hp as <-;
      rewrite Hn in Hq'; try discriminate. injection Hq' as ->.
    cbn [lookup_path]. destruct (assoc x es) as [c|]; [|reflexivity].
    intros Hc. destruct c, follow; try reflexivity; discriminate.
  - pose proof (lookup_path_found _ _ _ Hl) as Hn.
    destruct n as [s ro| es0 |dl t].
    + injection Hp as <-. rewrite Hn in Hq'. discriminate.
    + injection Hp as <-. rewrite Hn in Hq'. injection Hq' as ->.
      cbn [lookup_path]. destruct (assoc x es) as [c|]; [|reflexivity].
      intros Hc. destruct c, follow; try reflexivity; discriminate.
    + cbn [lookup_path]. apply (IH root follow t x q' es Hp Hq').
  - rewrite app_assoc. apply (IH root follow (t ++ rest) x q' es Hp Hq').
Qed.

Lemma assoc_In : forall x es c, assoc x es = Some c -> In (x, c) es.
Proof.
  intros x es c. induction es as [|[z n] es IH]; intros H; [discriminate|].
  cbn in H. destruct (String.eqb_spec z x) as [->|Hne].
  - injection H as ->. left. reflexivity.
  - right. apply IH. exact H.
Qed.

(** A directory below [p] is reached through an entry of [p] that the
    listing of [p] reports as a directory. *)
Lemma is_dir_below : forall root p x rest,
  is_dir_at root (p ++ x :: rest) = true ->
  exists entries e, listdir root p = Some entries /\ In e entries /\
                    entry_is_dir root e = true.
Proof.
  intros root p x rest H.
  assert (Hx : is_dir_at root (p ++ [x]) = true).
  { destruct rest as [|y rest]; [exact H|].
    unfold is_dir_at, stat_node in H.
    destruct (realpath MAX_LINK_HOPS root true (p ++ x :: y :: rest)) as [q|] eqn:Hq;
      [|discriminate].
    replace (p ++ x :: y :: rest) with ((p ++ [x]) ++ y :: rest) in Hq
      by (rewrite <- app_assoc; reflexivity).
    apply realpath_prefix_dir in Hq; [|discriminate].
    destruct Hq as (q' & es & Hq' & Hes).
    unfold is_dir_at, stat_node. rewrite Hq', Hes. reflexivity. }
  clear H. unfold is_dir_at in Hx.
  destruct (stat_node true root (p ++ [x])) as [n|] eqn:Hn; [|discriminate].
  unfold stat_node in Hn.
  destruct (realpath MAX_LINK_HOPS root true (p ++ [x])) as [q|] eqn:Hq; [|discriminate].
  pose proof Hq as Hq0.
  apply realpath_prefix_dir in Hq0; [|discriminate].
  destruct Hq0 as (q' & es & Hq' & Hes).
  pose proof (realpath_snoc MAX_LINK_HOPS root true p x q' es Hq' Hes) as Hs.
  destruct (assoc x es) as [c|] eqn:Hc; [|congruence].
  exists (map (entry_of p) es), (entry_of p (x, c)).
  split; [unfold listdir, stat_node; rewrite Hq', Hes; reflexivity|].
  split; [apply in_map, assoc_In; exact Hc|].
  unfold entry_is_dir, entry_of. cbn [de_kind de_path fst snd].
  destruct c as [s ro|es'|dl t]; cbn [kind_of].
  - rewrite Hs in Hq by reflexivity. injection Hq as <-.
    rewrite node_at_app, Hes in Hn. cbn [node_at] in Hn. rewrite Hc in Hn.
    injection Hn as <-. discriminate.
  - reflexivity.
  - unfold is_dir_at, stat_node. rewrite Hq, Hn. exact Hx.
Qed.

(** ** Quiet worlds *)

Lemma fs_query_quiet : forall A (f : node -> option A) w,
  quiet w ->
  fs_query f w = (match f (fs w) with Some a => Ok a | None => Raise end, w).
Proof.
  unfold quiet, fs_query, syscall, bind, fault, raise. intros A f w ->.
  destruct (f (fs w)); reflexivity.
Qed.

Lemma wipe_dir_contents_not_dir : forall p w,
  quiet w -> is_dir_at (fs w) p = false -> wipe_dir_contents p w = (Ok 0, w).
Proof.
  intros p w Hq Hd. unfold wipe_dir_contents, bind, Path_exists, Path_is_dir.
  rewrite fs_query_quiet by exact Hq.
  destruct (exists_at (fs w) p); cbn [negb]; [|reflexivity].
  rewrite fs_query_quiet by exact Hq. rewrite Hd. reflexivity.
Qed.

(** ** Cache locator *)

Lemma bind_ext : forall A B (m : M A) (k k' : A -> M B) w,
  (forall a w', k a w' = k' a w') -> bind m k w = bind m k' w.
Proof.
  intros A B m k k' w H. unfold bind. destruct (m w) as [[a|] w']; [apply H|reflexivity].
Qed.

Lemma bind_assoc : forall A B C (m : M A) (k : A -> M B) (k' : B -> M C) w,
  bind (bind m k) k' w = bind m (fun a => bind (k a) k') w.
Proof.
  intros. unfold bind. destruct (m w) as [[a|] w']; reflexivity.
Qed.

Lemma for_M_app : forall E (body : E -> Z -> M Z) l1 l2 freed w,
  for_M (l1 ++ l2) body freed w = bind (for_M l1 body freed) (for_M l2 body) w.
Proof.
  induction l1 as [|e l1 IH]; intros l2 freed w; [reflexivity|].
  cbn [app for_M]. rewrite bind_assoc. apply bind_ext. intros a w'. apply IH.
Qed.

Lemma for_M_map : forall E F (h : E -> F) (body : F -> Z -> M Z) l freed w,
  for_M (map h l) body freed w = for_M l (fun e => body (h e)) freed w.
Proof.
  induction l as [|e l IH]; intros freed w; [reflexivity|].
  cbn [map for_M]. apply bind_ext. intros a w'. apply IH.
Qed.

Lemma for_M_nested : forall E F (g : E -> list F) (h : E -> F -> path)
    (body : path -> Z -> M Z) l freed w,
  for_M l (fun e f => for_M (g e) (fun x => body (h e x)) f) freed w =
  for_M (flat_map (fun e => map (h e) (g e)) l) body freed w.
Proof.
  induction l as [|e l IH]; intros freed w; [reflexivity|].
  cbn [flat_map for_M]. rewrite for_M_app. unfold bind.
  rewrite for_M_map.
  destruct (for_M (g e) (fun x => body (h e x)) freed w) as [[f'|] w']; [apply IH|reflexivity].
Qed.

Lemma profile_candidates_quiet : forall root w,
  quiet w -> profile_candidates root w = (root :: subdirs (fs w) root, w).
Proof.
  intros root w Hq. unfold profile_candidates, try_except, bind, os_scandir, subdirs.
  rewrite fs_query_quiet by exact Hq.
  destruct (listdir (fs w) root); reflexivity.
Qed.

Lemma wipe_each_nothing : forall targets freed w,
  quiet w -> Forall (fun t => is_dir_at (fs w) t = false) targets ->
  for_M targets (fun t freed => d <- wipe_dir_contents t ;; ret (freed + d)) freed w =
  (Ok freed, w).
Proof.
  induction targets as [|t targets IH]; intros freed w Hq Hall; [reflexivity|].
  inversion Hall as [|? ? Ht Hrest]; subst.
  cbn [for_M]. rewrite bind_assoc. unfold bind at 1.
  rewrite (wipe_dir_contents_not_dir _ _ Hq Ht). unfold bind, ret.
  rewrite Z.add_0_r. apply IH; assumption.
Qed.

Lemma no_subdirs_no_targets : forall root p,
  subdirs root p = [] ->
  Forall (fun t => is_dir_at root t = false) (locator_targets root p).
Proof.
  intros root p Hs. unfold locator_targets. rewrite Hs. cbn [flat_map]. rewrite app_nil_r.
  apply Forall_forall. intros t Hin. apply in_map_iff in Hin. destruct Hin as (rel & <- & Hrel).
  destruct (is_dir_at root (p ++ rel)) eqn:Hd; [|reflexivity]. exfalso.
  assert (Hne : exists x rest, rel = x :: rest).
  { unfold CACHE_RELS in Hrel. cbn in Hrel.
    repeat (destruct Hrel as [<-|Hrel]; [eauto|]). contradiction. }
  destruct Hne as (x & rest & ->).
  destruct (is_dir_below _ _ _ _ Hd) as (entries & e & Hl & Hin & He).
  unfold subdirs in Hs. rewrite Hl in Hs.
  assert (Hin' : In e (filter (entry_is_dir root) entries))
    by (apply filter_In; split; assumption).
  apply (in_map de_path) in Hin'. rewrite Hs in Hin'. exact Hin'.
Qed.

(** C7.  In a world where no call fails, [clean_chromium_user_data] returns 0
    and touches nothing for a root that does not exist; for one that exists
    it wipes, in order, the fixed cache subpaths of the root itself and of
    every immediate subdirectory; with no subdirectory there is nothing to
    wipe and it returns 0.  On the sample root with two profiles, each with
    1000 bytes under [Cache], it returns 2000 and both profile directories
    (and their other data) are still there. *)
Theorem cache_locator_covers_profiles : forall root w,
  quiet w ->
  (exists_at (fs w) root = false -> clean_chromium_user_data root w = (Ok 0, w)) /\
  (exists_at (fs w) root = true ->
   clean_chromium_user_data root w = wipe_each (locator_targets (fs w) root) w) /\
  (subdirs (fs w) root = [] -> clean_chromium_user_data root w = (Ok 0, w)) /\
  (let out := clean_chromium_user_data ["User Data"] sample_profiles in
   fst out = Ok 2000 /\
   node_at (fs (snd out)) ["User Data"; "Default"] =
     Some (Dir [("Cache", Dir []); ("History", File 77 false)]) /\
   node_at (fs (snd out)) ["User Data"; "Profile 1"] =
     Some (Dir [("Cache", Dir []); ("Bookmarks", File 12 false)])).
Proof.
  intros root w Hq.
  assert (Hmissing : exists_at (fs w) root = false ->
                     clean_chromium_user_data root w = (Ok 0, w)).
  { intros Hex. unfold clean_chromium_user_data, bind, Path_exists.
    rewrite fs_query_quiet by exact Hq. rewrite Hex. reflexivity. }
  assert (Hthere : exists_at (fs w) root = true ->
                   clean_chromium_user_data root w = wipe_each (locator_targets (fs w) root) w).
  { intros Hex. unfold clean_chromium_user_data, bind at 1, Path_exists.
    rewrite fs_query_quiet by exact Hq. rewrite Hex. cbn [negb].
    unfold bind at 1, lift. rewrite (profile_candidates_quiet _ _ Hq).
    unfold wipe_each, locator_targets.
    apply (for_M_nested path path (fun _ => CACHE_RELS) (fun base rel => base ++ rel)
             (fun t freed => d <- wipe_dir_contents t ;; ret (freed + d))). }
  split; [exact Hmissing|]. split; [exact Hthere|]. split.
  - intros Hs. destruct (exists_at (fs w) root) eqn:Hex; [|apply Hmissing; reflexivity].
    rewrite Hthere by reflexivity. unfold wipe_each.
    apply wipe_each_nothing; [exact Hq|]. apply no_subdirs_no_targets. exact Hs.
  - vm_compute. repeat split; reflexivity.
Qed.

Lemma cache_locator_covers_profiles_witness :
  quiet sample_profiles /\
  exists_at (fs sample_profiles) ["User Data"] = true /\
  clean_chromium_user_data ["User Data"] sample_profiles =
    wipe_each (locator_targets (fs sample_profiles) ["User Data"]) sample_profiles /\
  exists_at (fs sample_profiles) ["Nowhere"] = false /\
  clean_chromium_user_data ["Nowhere"] sample_profiles = (Ok 0, sample_profiles).
Proof.
  split; [reflexivity|]. split; [reflexivity|]. split.
  - apply (proj1 (proj2 (cache_locator_covers_profiles ["User Data"] sample_profiles eq_refl))).
    reflexivity.
  - split; [reflexivity|].
    apply (proj1 (cache_locator_covers_profiles ["Nowhere"] sample_profiles eq_refl)).
    reflexivity.
Defined.

(** ** Working inside one directory *)

Lemma node_at_set_at_below : forall top root n v q,
  node_at root top = Some n -> node_at (set_at root top v) (top ++ q) = node_at v q.
Proof.
  intros top root n v q H. rewrite node_at_app, (node_at_set_at_same _ _ _ _ H). reflexivity.
Qed.

Lemma update_entry_id : forall x f es,
  (forall c, assoc x es = Some c -> f c = c) -> update_entry x f es = es.
Proof.
  intros x f es H. induction es as [|[z n] es IH]; [reflexivity|].
  cbn in *. unfold named. cbn [fst snd].
  destruct (String.eqb z x).
  - rewrite H; reflexivity.
  - rewrite IH; [reflexivity|exact H].
Qed.

Lemma set_at_same : forall top root n, node_at root top = Some n -> set_at root top n = root.
Proof.
  induction top as [|x top IH]; intros root n H.
  - cbn in *. congruence.
  - destruct root as [| es |]; try discriminate. cbn [node_at set_at] in *.
    f_equal. apply update_entry_id. intros c Hc. rewrite Hc in H. apply IH. exact H.
Qed.

Lemma set_at_set_at : forall top root v v',
  set_at (set_at root top v) top v' = set_at root top v'.
Proof.
  induction top as [|x top IH]; intros root v v'; [reflexivity|].
  destruct root as [| es |]; try reflexivity.
  cbn [set_at]. f_equal. rewrite update_update_entry.
  apply update_entry_ext. intros c _. apply IH.
Qed.

Lemma set_at_app : forall top root n q v,
  node_at root top = Some n -> set_at root (top ++ q) v = set_at root top (set_at n q v).
Proof.
  induction top as [|x top IH]; intros root n q v H.
  - cbn in *. congruence.
  - destruct root as [| es |]; try discriminate. cbn [node_at set_at app] in *.
    f_equal. apply update_entry_ext. intros c Hc. rewrite Hc in H. apply IH. exact H.
Qed.

Lemma remove_at_cons : forall es x q,
  q <> [] -> remove_at (Dir es) (x :: q) = Dir (update_entry x (fun c => remove_at c q) es).
Proof. intros es x [|y q] H; [congruence|reflexivity]. Qed.

Lemma remove_at_app : forall top root n q,
  node_at root top = Some n -> q <> [] ->
  remove_at root (top ++ q) = set_at root top (remove_at n q).
Proof.
  induction top as [|x top IH]; intros root n q H Hq.
  - cbn in *. congruence.
  - destruct root as [| es |]; try discriminate. cbn [node_at set_at app] in *.
    rewrite remove_at_cons by (destruct top; [exact Hq|discriminate]).
    f_equal. apply update_entry_ext. intros c Hc. rewrite Hc in H. apply IH; assumption.
Qed.

(** *** Listings that name every entry once *)

Lemma unique_names_cons : forall e es,
  unique_names (Dir (e :: es)) =
  unique_names (snd e) && negb (existsb (named (fst e)) es) && unique_names (Dir es).
Proof. reflexivity. Qed.

Lemma link_free_cons : forall e es,
  link_free (Dir (e :: es)) = link_free (snd e) && link_free (Dir es).
Proof. reflexivity. Qed.

Lemma assoc_fresh : forall x es, existsb (named x) es = false -> assoc x es = None.
Proof.
  intros x es. induction es as [|[z n] es IH]; intros H; [reflexivity|].
  cbn in *. unfold named in H at 1. cbn [fst] in H.
  destruct (String.eqb z x); [discriminate|]. apply IH. exact H.
Qed.

Lemma remove_entry_fresh : forall x es, existsb (named x) es = false -> remove_entry x es = es.
Proof.
  intros x es. induction es as [|[z n] es IH]; intros H; [reflexivity|].
  cbn in *. unfold named in *. cbn [fst] in *.
  destruct (String.eqb z x); [discriminate|]. rewrite IH; [reflexivity|exact H].
Qed.

Lemma update_entry_fresh : forall x f es,
  existsb (named x) es = false -> update_entry x f es = es.
Proof.
  intros x f es H. apply update_entry_id. intros c Hc.
  rewrite (assoc_fresh _ _ H) in Hc. discriminate.
Qed.

Lemma assoc_app : forall x a b,
  assoc x (a ++ b) = match assoc x a with Some c => Some c | None => assoc x b end.
Proof.
  intros x a b. induction a as [|[z n] a IH]; [reflexivity|].
  cbn. destruct (String.eqb z x); [reflexivity|exact IH].
Qed.

Lemma remove_entry_app_fresh : forall x a b,
  existsb (named x) a = false -> remove_entry x (a ++ b) = a ++ remove_entry x b.
Proof.
  intros x a b. induction a as [|[z n] a IH]; intros H; [reflexivity|].
  cbn in *. unfold named in *. cbn [fst] in *.
  destruct (String.eqb z x); [discriminate|]. rewrite IH; [reflexivity|exact H].
Qed.

Lemma update_entry_app_fresh : forall x f a b,
  existsb (named x) a = false -> update_entry x f (a ++ b) = a ++ update_entry x f b.
Proof.
  intros x f a b. induction a as [|[z n] a IH]; intros H; [reflexivity|].
  cbn in *. unfold named in *. cbn [fst] in *.
  destruct (String.eqb z x); [discriminate|]. rewrite IH; [reflexivity|exact H].
Qed.

Lemma unique_names_child : forall es x c,
  unique_names (Dir es) = true -> assoc x es = Some c -> unique_names c = true.
Proof.
  induction es as [|[z n] es IH]; intros x c Hu Hc; [discriminate|].
  rewrite unique_names_cons in Hu. cbn [fst snd] in Hu.
  apply andb_prop in Hu. destruct Hu as [Hu Hrest]. apply andb_prop in Hu. destruct Hu as [Hn _].
  cbn in Hc. destruct (String.eqb z x).
  - injection Hc as <-. exact Hn.
  - eapply IH; eassumption.
Qed.

Lemma unique_names_at : forall p root n,
  unique_names root = true -> node_at root p = Some n -> unique_names n = true.
Proof.
  induction p as [|x p IH]; intros root n Hu H.
  - cbn in H. congruence.
  - destruct root as [| es |]; try discriminate. cbn [node_at] in H.
    destruct (assoc x es) as [c|] eqn:Hc; [|discriminate].
    eapply IH; [|exact H]. eapply unique_names_child; eassumption.
Qed.

Lemma assoc_remove_entry_unique : forall x es,
  unique_names (Dir es) = true -> assoc x (remove_entry x es) = None.
Proof.
  induction es as [|[z n] es IH]; intros Hu; [reflexivity|].
  rewrite unique_names_cons in Hu. cbn [fst snd] in Hu.
  apply andb_prop in Hu. destruct Hu as [Hu Hrest]. apply andb_prop in Hu. destruct Hu as [_ Hf].
  cbn. unfold named. cbn [fst].
  destruct (String.eqb_spec z x) as [->|Hne].
  - apply assoc_fresh. apply negb_true_iff. exact Hf.
  - cbn. destruct (String.eqb_spec z x); [contradiction|]. apply IH. exact Hrest.
Qed.

(** Once the entry a path names is removed the path names nothing. *)
Lemma lookup_path_removed : forall p root n,
  unique_names root = true -> node_at root p = Some n -> p <> [] ->
  lookup_path (remove_at root p) p = Missing.
Proof.
  induction p as [|x p IH]; intros root n Hu H Hne; [congruence|].
  destruct root as [| es |]; try discriminate. cbn [node_at] in H.
  destruct (assoc x es) as [c|] eqn:Hc; [|discriminate].
  destruct p as [|y p].
  - cbn. rewrite assoc_remove_entry_unique by exact Hu. reflexivity.
  - rewrite remove_at_cons by discriminate. cbn [lookup_path].
    rewrite assoc_update_entry, String.eqb_refl, Hc. cbn [option_map].
    eapply IH; [eapply unique_names_child; eassumption|exact H|discriminate].
Qed.

(** *** Heights *)

Lemma height_cons : forall e es,
  height (Dir (e :: es)) = Nat.max (S (height (snd e))) (height (Dir es)).
Proof. reflexivity. Qed.

Lemma height_child : forall es x c,
  assoc x es = Some c -> (S (height c) <= height (Dir es))%nat.
Proof.
  induction es as [|[z n] es IH]; intros x c H; [discriminate|].
  rewrite height_cons. cbn [snd]. cbn in H. destruct (String.eqb z x).
  - injection H as ->. lia.
  - apply IH in H. lia.
Qed.

Lemma height_node_at : forall p root n,
  node_at root p = Some n -> (height n <= height root)%nat.
Proof.
  induction p as [|x p IH]; intros root n H.
  - cbn in H. injection H as ->. lia.
  - destruct root as [| es |]; try discriminate. cbn [node_at] in H.
    destruct (assoc x es) as [c|] eqn:Hc; [|discriminate].
    apply IH in H. apply height_child in Hc. lia.
Qed.

(** ** The engine when no call fails *)

Lemma with_fs_same : forall w, with_fs (fs w) w = w.
Proof. intros [root fl bb bq]. reflexivity. Qed.

Lemma with_fs_with_fs : forall a b w, with_fs a (with_fs b w) = with_fs a w.
Proof. reflexivity. Qed.

Lemma quiet_with_fs : forall r w, quiet w -> quiet (with_fs r w).
Proof. intros r w H. exact H. Qed.

Lemma fs_update_quiet : forall (f : node -> option node) w,
  quiet w ->
  fs_update f w = match f (fs w) with
                  | Some root' => (Ok tt, with_fs root' w)
                  | None => (Raise, w)
                  end.
Proof.
  unfold quiet, fs_update, syscall, bind, fault, raise. intros f w ->.
  destruct (f (fs w)); reflexivity.
Qed.

Lemma os_scandir_quiet : forall p es w,
  quiet w -> node_at (fs w) p = Some (Dir es) ->
  os_scandir p w = (Ok (map (entry_of p) es), w).
Proof.
  intros p es w Hq Hp. unfold os_scandir. rewrite fs_query_quiet by exact Hq.
  unfold listdir. rewrite (stat_node_physical true _ _ _ Hp) by reflexivity. reflexivity.
Qed.

Lemma safe_remove_file_quiet : forall p s ro w,
  quiet w -> node_at (fs w) p = Some (File s ro) -> p <> [] ->
  safe_remove_file p w = (Z.of_N s, with_fs (remove_at (fs w) p) w).
Proof.
  intros p s ro [root fl bb bq] Hq Hp Hne. unfold quiet in Hq. cbn [faults fs] in *. subst fl.
  rewrite safe_remove_file_eval. cbv zeta.
  assert (Hr : forall follow, realpath MAX_LINK_HOPS root follow p = Some p)
    by (intros follow; eapply realpath_physical; [exact Hp|reflexivity]).
  assert (Hst : forall follow, stat_node follow root p = Some (File s ro))
    by (intros follow; eapply stat_node_physical; [exact Hp|reflexivity]).
  unfold exists_at, is_symlink_at. rewrite !Hst.
  unfold chmod_rw_at. rewrite Hr, Hp.
  assert (Hun : unlink_at (set_at root p (File s false)) p = Some (remove_at root p)).
  { unfold unlink_at.
    rewrite (realpath_set_file root p s ro (File s false) _ _ _ Hp eq_refl), Hr.
    destruct p as [|x p]; [congruence|]. cbv iota.
    rewrite (node_at_set_at_same _ _ _ _ Hp), remove_at_set_at_same by exact Hne.
    reflexivity. }
  cbn [nth skipn negb is_link]. rewrite Hun. reflexivity.
Qed.

Lemma rmdir_quiet : forall p w,
  quiet w -> node_at (fs w) p = Some (Dir []) -> p <> [] ->
  try_except (Path_rmdir p) pass w = (tt, with_fs (remove_at (fs w) p) w).
Proof.
  intros p w Hq Hp Hne. unfold try_except, Path_rmdir.
  rewrite fs_update_quiet by exact Hq. unfold rmdir_at.
  rewrite (realpath_physical _ _ false _ _ Hp) by discriminate.
  destruct p as [|x p]; [congruence|]. cbv iota. rewrite Hp. reflexivity.
Qed.

(** What [os.walk] makes of the listing of a directory without links. *)
Lemma dirs_of_link_free : forall root top es,
  link_free (Dir es) = true ->
  dirs_of root (map (entry_of top) es) = map fst (subdir_entries es).
Proof.
  intros root top es. unfold dirs_of, subdir_entries.
  induction es as [|[x n] es IH]; intros Hl; [reflexivity|].
  rewrite link_free_cons in Hl. apply andb_prop in Hl. destruct Hl as [Hn Hl].
  cbn [map filter snd fst]. unfold entry_is_dir at 1, entry_of at 1. cbn [de_kind snd fst].
  destruct n; try discriminate; cbn [kind_of is_dir_node map de_name];
    rewrite <- (IH Hl); reflexivity.
Qed.

Lemma nondirs_of_link_free : forall root top es,
  link_free (Dir es) = true ->
  nondirs_of root (map (entry_of top) es) = map fst (file_entries es).
Proof.
  intros root top es. unfold nondirs_of, file_entries.
  induction es as [|[x n] es IH]; intros Hl; [reflexivity|].
  rewrite link_free_cons in Hl. apply andb_prop in Hl. destruct Hl as [Hn Hl].
  cbn [map filter snd fst]. unfold entry_is_dir at 1, entry_of at 1. cbn [de_kind snd fst].
  destruct n; try discriminate; cbn [kind_of is_file_node negb map de_name];
    rewrite <- (IH Hl); reflexivity.
Qed.

Lemma walk_dirs_of_link_free : forall root top es,
  link_free (Dir es) = true ->
  walk_dirs_of root (map (entry_of top) es) = map (fun e => top ++ [fst e]) (subdir_entries es).
Proof.
  intros root top es. unfold walk_dirs_of, subdir_entries.
  induction es as [|[x n] es IH]; intros Hl; [reflexivity|].
  rewrite link_free_cons in Hl. apply andb_prop in Hl. destruct Hl as [Hn Hl].
  cbn [map filter snd fst]. unfold entry_is_dir at 1, entry_is_symlink at 1, entry_of at 1.
  cbn [de_kind snd fst].
  destruct n; try discriminate; cbn [kind_of is_dir_node andb negb map de_path];
    rewrite <- (IH Hl); reflexivity.
Qed.

(** *** Listings, entry by entry *)

Lemma fresh_iff : forall x es, existsb (named x) es = false <-> ~ In x (map fst es).
Proof.
  intros x es. induction es as [|[z n] es IH]; cbn.
  - split; auto.
  - unfold named at 1. cbn [fst]. destruct (String.eqb_spec z x) as [->|Hne]; cbn.
    + split; [discriminate|]. intros H. exfalso. apply H. left. reflexivity.
    + rewrite IH. split; [intros H [Hz|Hin]; [contradiction|auto]|auto].
Qed.

Lemma unique_names_NoDup : forall es,
  unique_names (Dir es) = true -> NoDup (map fst es).
Proof.
  induction es as [|[x n] es IH]; intros H; [constructor|].
  rewrite unique_names_cons in H. cbn [fst snd] in H.
  apply andb_prop in H. destruct H as [H Hrest]. apply andb_prop in H. destruct H as [_ Hf].
  cbn. constructor; [|apply IH; exact Hrest].
  apply fresh_iff. apply negb_true_iff. exact Hf.
Qed.

Lemma unique_names_In : forall es x n,
  unique_names (Dir es) = true -> In (x, n) es -> unique_names n = true.
Proof.
  induction es as [|[z m] es IH]; intros x n H Hin; [contradiction|].
  rewrite unique_names_cons in H. cbn [fst snd] in H.
  apply andb_prop in H. destruct H as [H Hrest]. apply andb_prop in H. destruct H as [Hm _].
  destruct Hin as [Heq|Hin]; [injection Heq as <- <-; exact Hm|eapply IH; eassumption].
Qed.

Lemma link_free_In : forall es x n,
  link_free (Dir es) = true -> In (x, n) es -> link_free n = true.
Proof.
  induction es as [|[z m] es IH]; intros x n H Hin; [contradiction|].
  rewrite link_free_cons in H. cbn [snd] in H. apply andb_prop in H. destruct H as [Hm Hrest].
  destruct Hin as [Heq|Hin]; [injection Heq as <- <-; exact Hm|eapply IH; eassumption].
Qed.

Lemma height_In : forall es x n, In (x, n) es -> (S (height n) <= height (Dir es))%nat.
Proof.
  induction es as [|[z m] es IH]; intros x n Hin; [contradiction|].
  rewrite height_cons. cbn [snd].
  destruct Hin as [Heq|Hin]; [injection Heq as <- <-; lia|apply IH in Hin; lia].
Qed.

Lemma NoDup_middle_fresh : forall (a b : list (string * node)) x n,
  NoDup (map fst (a ++ (x, n) :: b)) -> existsb (named x) a = false.
Proof.
  intros a b x n H. apply fresh_iff. rewrite map_app in H. cbn in H.
  apply NoDup_remove_2 in H. intros Hin. apply H. apply in_or_app. left. exact Hin.
Qed.

Lemma NoDup_middle_remove : forall (a b : list (string * node)) e,
  NoDup (map fst (a ++ e :: b)) -> NoDup (map fst (a ++ b)).
Proof.
  intros a b e H. rewrite map_app in *. cbn in H. apply NoDup_remove_1 in H. exact H.
Qed.

Lemma assoc_middle : forall a b x n,
  existsb (named x) a = false -> assoc x (a ++ (x, n) :: b) = Some n.
Proof.
  intros a b x n H. rewrite assoc_app, (assoc_fresh _ _ H). cbn.
  rewrite String.eqb_refl. reflexivity.
Qed.

Lemma update_entry_middle : forall a b x n f,
  existsb (named x) a = false ->
  update_entry x f (a ++ (x, n) :: b) = a ++ (x, f n) :: b.
Proof.
  intros a b x n f H. rewrite update_entry_app_fresh by exact H.
  cbn. unfold named. cbn [fst snd]. rewrite String.eqb_refl. reflexivity.
Qed.

Lemma remove_entry_middle : forall a b x n,
  existsb (named x) a = false -> remove_entry x (a ++ (x, n) :: b) = a ++ b.
Proof.
  intros a b x n H. rewrite remove_entry_app_fresh by exact H.
  cbn. unfold named. cbn [fst]. rewrite String.eqb_refl. reflexivity.
Qed.

Lemma set_at_entry : forall es x v,
  set_at (Dir es) [x] v = Dir (update_entry x (fun _ => v) es).
Proof. reflexivity. Qed.

Lemma remove_at_entry : forall es x, remove_at (Dir es) [x] = Dir (remove_entry x es).
Proof. reflexivity. Qed.

Lemma node_at_entry : forall top root es x,
  node_at root top = Some (Dir es) -> node_at root (top ++ [x]) = assoc x es.
Proof.
  intros top root es x H. rewrite node_at_app, H. cbn. destruct (assoc x es); reflexivity.
Qed.

Lemma file_entries_emptied : forall es, file_entries (map emptied es) = file_entries es.
Proof.
  unfold file_entries. induction es as [|[x n] es IH]; [reflexivity|].
  cbn [map filter]. unfold emptied at 1. cbn [fst snd].
  destruct n; cbn [is_file_node]; rewrite IH; reflexivity.
Qed.

Lemma not_file_emptied : forall es,
  link_free (Dir es) = true ->
  filter (fun e => negb (is_file_node (snd e))) (map emptied es) =
  map emptied (subdir_entries es).
Proof.
  unfold subdir_entries. induction es as [|[x n] es IH]; intros Hl; [reflexivity|].
  rewrite link_free_cons in Hl. apply andb_prop in Hl. destruct Hl as [Hn Hl].
  cbn [map filter]. unfold emptied at 1. cbn [fst snd].
  destruct n; try discriminate; cbn [is_file_node is_dir_node negb map]; rewrite (IH Hl);
    reflexivity.
Qed.

Lemma emptied_subdirs_empty : forall es e,
  In e (map emptied (subdir_entries es)) -> snd e = Dir [].
Proof.
  intros es e Hin. apply in_map_iff in Hin. destruct Hin as ([x n] & <- & Hin).
  unfold subdir_entries in Hin. apply filter_In in Hin. destruct Hin as [_ Hd].
  cbn in *. destruct n; try discriminate. reflexivity.
Qed.

Lemma map_fst_emptied : forall es, map fst (map emptied es) = map fst es.
Proof. intros es. rewrite map_map. reflexivity. Qed.

Lemma du_split : forall es,
  du (Dir es) = du (Dir (subdir_entries es)) + du (Dir (file_entries es)).
Proof.
  unfold subdir_entries, file_entries. induction es as [|[x n] es IH]; [reflexivity|].
  cbn [filter snd]. rewrite du_cons. cbn [snd].
  destruct n; cbn [is_dir_node is_file_node]; rewrite ?du_cons; cbn [snd]; rewrite IH;
    cbn [du]; lia.
Qed.

Lemma NoDup_filter_names : forall (P : string * node -> bool) es,
  NoDup (map fst es) -> NoDup (map fst (filter P es)).
Proof.
  intros P es. induction es as [|e es IH]; intros H; [constructor|].
  cbn in *. inversion H as [|? ? Hnot Hrest]; subst.
  destruct (P e); [|apply IH; exact Hrest].
  cbn. constructor; [|apply IH; exact Hrest].
  intros Hin. apply Hnot. apply in_map_iff in Hin. destruct Hin as (e' & He' & Hin').
  apply filter_In in Hin'. apply in_map_iff. exists e'. tauto.
Qed.

(** *** The three passes of the walk at one directory *)

Lemma snoc_not_nil : forall (top : path) x, top ++ [x] <> [].
Proof. intros [|y top] x; discriminate. Qed.

Lemma bindT_eval : forall A B (t : T A) (k : A -> T B) w,
  bindT t k w = let '(a, w') := t w in k a w'.
Proof. reflexivity. Qed.

Lemma giving_eval : forall A (a : A) w, giving a w = (a, w).
Proof. reflexivity. Qed.

(** The descent empties the subdirectories one after the other. *)
Lemma descend_emptying : forall walk top todo done w freed,
  quiet w -> node_at (fs w) top = Some (Dir (done ++ todo)) ->
  NoDup (map fst (done ++ todo)) ->
  (forall x es', In (x, Dir es') todo -> forall w' freed',
     quiet w' -> node_at (fs w') (top ++ [x]) = Some (Dir es') ->
     walk (top ++ [x]) freed' w' =
     Some (freed' + du (Dir es'), with_fs (set_at (fs w') (top ++ [x]) (Dir [])) w')) ->
  descend walk (map (fun e => top ++ [fst e]) (subdir_entries todo)) freed w =
  Some (freed + du (Dir (subdir_entries todo)),
        with_fs (set_at (fs w) top (Dir (done ++ map emptied todo))) w).
Proof.
  intros walk top todo. induction todo as [|[x n] todo IH]; intros done w freed Hq Hp Hn Hw.
  - cbn [subdir_entries filter map descend]. rewrite app_nil_r in *.
    rewrite (set_at_same _ _ _ Hp), with_fs_same. cbn [du du_entries].
    replace (freed + 0) with freed by lia. reflexivity.
  - assert (Hfresh : existsb (named x) done = false) by (eapply NoDup_middle_fresh; exact Hn).
    assert (Hstep : forall n', done ++ (x, n') :: todo = (done ++ [(x, n')]) ++ todo)
      by (intros n'; rewrite <- app_assoc; reflexivity).
    assert (Hrest : forall y es', In (y, Dir es') todo -> forall w' freed',
              quiet w' -> node_at (fs w') (top ++ [y]) = Some (Dir es') ->
              walk (top ++ [y]) freed' w' =
              Some (freed' + du (Dir es'), with_fs (set_at (fs w') (top ++ [y]) (Dir [])) w'))
      by (intros y es' Hin; apply Hw; right; exact Hin).
    unfold subdir_entries. cbn [filter snd].
    destruct n as [s ro|es'|dl tg]; cbn [is_dir_node].
    + fold (subdir_entries todo). cbn [map]. unfold emptied at 1. cbn [fst snd].
      rewrite (Hstep (File s ro)) in Hp, Hn.
      pose proof (IH _ _ freed Hq Hp Hn Hrest) as R. rewrite <- app_assoc in R. exact R.
    + fold (subdir_entries todo). cbn [map fst descend].
      assert (Hx : node_at (fs w) (top ++ [x]) = Some (Dir es'))
        by (rewrite (node_at_entry _ _ _ _ Hp); apply assoc_middle; exact Hfresh).
      rewrite (Hw x es' (or_introl eq_refl) w freed Hq Hx).
      rewrite (set_at_app _ _ _ _ _ Hp), set_at_entry, update_entry_middle by exact Hfresh.
      set (w1 := with_fs _ w).
      assert (Hp1 : node_at (fs w1) top = Some (Dir ((done ++ [(x, Dir [])]) ++ todo))).
      { unfold w1. cbn [fs with_fs]. rewrite <- Hstep.
        destruct w as [root fl bb bq]; cbn [fs with_fs] in *. eapply node_at_set_at_same. exact Hp. }
      assert (Hn1 : NoDup (map fst ((done ++ [(x, Dir [])]) ++ todo))).
      { rewrite <- Hstep. rewrite map_app in *. exact Hn. }
      rewrite (IH _ w1 _ (quiet_with_fs _ _ Hq) Hp1 Hn1 Hrest).
      unfold w1. destruct w as [root fl bb bq]. cbn [fs with_fs].
      rewrite set_at_set_at, <- app_assoc. unfold emptied at 2. cbn [fst snd app].
      rewrite (du_cons (x, Dir es')). cbn [snd].
      f_equal. f_equal. lia.
    + fold (subdir_entries todo). cbn [map]. unfold emptied at 1. cbn [fst snd].
      rewrite (Hstep (Link dl tg)) in Hp, Hn.
      pose proof (IH _ _ freed Hq Hp Hn Hrest) as R. rewrite <- app_assoc in R. exact R.
Qed.

(** The loop over the files removes each of them and adds up their sizes. *)
Lemma files_removed : forall top todo done w freed,
  quiet w -> node_at (fs w) top = Some (Dir (done ++ todo)) ->
  NoDup (map fst (done ++ todo)) ->
  for_T (map fst (file_entries todo))
        (fun name freed => d <~ safe_remove_file (top ++ [name]) ;; giving (freed + d))
        freed w =
  (freed + du (Dir (file_entries todo)),
   with_fs (set_at (fs w) top
              (Dir (done ++ filter (fun e => negb (is_file_node (snd e))) todo))) w).
Proof.
  intros top todo. induction todo as [|[x n] todo IH]; intros done w freed Hq Hp Hn.
  - cbn [file_entries filter map for_T giving]. rewrite app_nil_r in *.
    rewrite (set_at_same _ _ _ Hp), with_fs_same. cbn [du du_entries].
    replace (freed + 0) with freed by lia. reflexivity.
  - assert (Hfresh : existsb (named x) done = false) by (eapply NoDup_middle_fresh; exact Hn).
    assert (Hstep : forall n', done ++ (x, n') :: todo = (done ++ [(x, n')]) ++ todo)
      by (intros n'; rewrite <- app_assoc; reflexivity).
    unfold file_entries. cbn [filter snd].
    destruct n as [s ro|es'|dl tg]; cbn [is_file_node negb].
    + fold (file_entries todo). cbn [map fst for_T]. rewrite !bindT_eval.
      assert (Hx : node_at (fs w) (top ++ [x]) = Some (File s ro))
        by (rewrite (node_at_entry _ _ _ _ Hp); apply assoc_middle; exact Hfresh).
      rewrite (safe_remove_file_quiet _ _ _ _ Hq Hx (snoc_not_nil _ _)).
      rewrite (remove_at_app _ _ _ _ Hp) by discriminate.
      rewrite remove_at_entry, remove_entry_middle by exact Hfresh.
      rewrite giving_eval.
      set (w1 := with_fs _ w).
      assert (Hp1 : node_at (fs w1) top = Some (Dir (done ++ todo))).
      { unfold w1. destruct w as [root fl bb bq]; cbn [fs with_fs] in *. eapply node_at_set_at_same. exact Hp. }
      rewrite (IH _ w1 _ (quiet_with_fs _ _ Hq) Hp1 (NoDup_middle_remove _ _ _ Hn)).
      unfold w1. destruct w as [root fl bb bq]. cbn [fs with_fs].
      rewrite set_at_set_at. rewrite (du_cons (x, File s ro)). cbn [snd du].
      f_equal. lia.
    + fold (file_entries todo).
      rewrite (Hstep (Dir es')) in Hp, Hn.
      pose proof (IH _ _ freed Hq Hp Hn) as R. rewrite <- app_assoc in R. exact R.
    + fold (file_entries todo).
      rewrite (Hstep (Link dl tg)) in Hp, Hn.
      pose proof (IH _ _ freed Hq Hp Hn) as R. rewrite <- app_assoc in R. exact R.
Qed.

(** The loop over the directories removes each of them, all empty by now. *)
Lemma dirs_removed : forall top todo w z,
  quiet w -> node_at (fs w) top = Some (Dir todo) ->
  NoDup (map fst todo) -> (forall e, In e todo -> snd e = Dir []) ->
  for_T (map fst todo)
        (fun name z => _ <~ try_except (Path_rmdir (top ++ [name])) pass ;; giving z) z w =
  (z, with_fs (set_at (fs w) top (Dir [])) w).
Proof.
  intros top todo. induction todo as [|[x n] todo IH]; intros w z Hq Hp Hn He.
  - cbn [map for_T giving]. rewrite (set_at_same _ _ _ Hp), with_fs_same. reflexivity.
  - cbn [map fst for_T]. rewrite !bindT_eval.
    assert (Hnx : n = Dir []) by (apply (He (x, n)); left; reflexivity). subst n.
    assert (Hx : node_at (fs w) (top ++ [x]) = Some (Dir [])).
    { rewrite (node_at_entry _ _ _ _ Hp). cbn. rewrite String.eqb_refl. reflexivity. }
    rewrite (rmdir_quiet _ _ Hq Hx (snoc_not_nil _ _)).
    rewrite (remove_at_app _ _ _ _ Hp) by discriminate.
    rewrite remove_at_entry. cbn [remove_entry]. unfold named at 1. cbn [fst].
    rewrite String.eqb_refl. rewrite giving_eval.
    set (w1 := with_fs _ w).
    assert (Hp1 : node_at (fs w1) top = Some (Dir todo)).
    { unfold w1. destruct w as [root fl bb bq]; cbn [fs with_fs] in *. eapply node_at_set_at_same. exact Hp. }
    inversion Hn as [|? ? _ Hn']; subst.
    rewrite (IH w1 z (quiet_with_fs _ _ Hq) Hp1 Hn' (fun e H => He e (or_intror H))).
    unfold w1. destruct w as [root fl bb bq]. cbn [fs with_fs].
    rewrite set_at_set_at. reflexivity.
Qed.

(** *** The walk, [wipe_tree] and [wipe_dir_contents] on a tree without links *)

Lemma os_walk_bottomup_eq : forall fuel body top freed w,
  os_walk_bottomup fuel body top freed w =
  match os_scandir top w with
  | (Raise, w1) => Some (freed, w1)
  | (Ok entries, w1) =>
      match descend (match fuel with
                     | O => fun _ _ _ => None
                     | S f => os_walk_bottomup f body
                     end) (walk_dirs_of (fs w1) entries) freed w1 with
      | Some (freed', w2) =>
          Some (body top (dirs_of (fs w1) entries) (nondirs_of (fs w1) entries) freed' w2)
      | None => None
      end
  end.
Proof. intros [|f] body top freed w; reflexivity. Qed.

Lemma walk_plain : forall fuel top es w freed,
  quiet w -> node_at (fs w) top = Some (Dir es) ->
  unique_names (Dir es) = true -> link_free (Dir es) = true ->
  (height (Dir es) <= fuel)%nat ->
  os_walk_bottomup fuel wipe_tree_body top freed w =
  Some (freed + du (Dir es), with_fs (set_at (fs w) top (Dir [])) w).
Proof.
  induction fuel as [|f IH]; intros top es w freed Hq Hp Hu Hl Hh;
    rewrite os_walk_bottomup_eq, (os_scandir_quiet _ _ _ Hq Hp);
    rewrite walk_dirs_of_link_free, dirs_of_link_free, nondirs_of_link_free by exact Hl.
  all: match goal with
       | |- context [descend ?walk _ _ _] =>
           assert (Hgood : forall x es', In (x, Dir es') es -> forall w' freed',
                     quiet w' -> node_at (fs w') (top ++ [x]) = Some (Dir es') ->
                     walk (top ++ [x]) freed' w' =
                     Some (freed' + du (Dir es'),
                           with_fs (set_at (fs w') (top ++ [x]) (Dir [])) w'))
       end.
  1: { intros x es' Hin. apply height_In in Hin. lia. }
  2: { intros x es' Hin w' freed' Hq' Hp'. apply IH; try assumption.
       - eapply unique_names_In; eassumption.
       - eapply link_free_In; eassumption.
       - apply height_In in Hin. lia. }
  all: rewrite (descend_emptying _ top es [] w freed Hq Hp (unique_names_NoDup _ Hu) Hgood);
    cbn [app]; set (w1 := with_fs _ w);
    assert (Hp1 : node_at (fs w1) top = Some (Dir (map emptied es)))
      by (unfold w1; destruct w as [root fl bb bq]; cbn [fs with_fs] in *;
          eapply node_at_set_at_same; exact Hp);
    assert (Hn1 : NoDup (map fst (map emptied es)))
      by (rewrite map_fst_emptied; apply unique_names_NoDup; exact Hu);
    unfold wipe_tree_body; rewrite bindT_eval;
    rewrite <- (file_entries_emptied es);
    rewrite (files_removed top (map emptied es) [] w1 _ (quiet_with_fs _ _ Hq) Hp1 Hn1);
    cbn [app]; rewrite not_file_emptied by exact Hl;
    set (w2 := with_fs _ w1);
    assert (Hp2 : node_at (fs w2) top = Some (Dir (map emptied (subdir_entries es))))
      by (unfold w2, w1; destruct w as [root fl bb bq]; cbn [fs with_fs] in *;
          eapply node_at_set_at_same; eapply node_at_set_at_same; exact Hp);
    assert (Hn2 : NoDup (map fst (map emptied (subdir_entries es))))
      by (rewrite map_fst_emptied; apply NoDup_filter_names, unique_names_NoDup; exact Hu);
    rewrite bindT_eval, <- (map_fst_emptied (subdir_entries es));
    rewrite (dirs_removed top _ w2 0 (quiet_with_fs _ _ (quiet_with_fs _ _ Hq)) Hp2 Hn2
               (emptied_subdirs_empty es));
    rewrite giving_eval, file_entries_emptied, (du_split es);
    unfold w2, w1; destruct w as [root fl bb bq]; cbn [fs with_fs];
    rewrite !set_at_set_at; f_equal; f_equal; lia.
Qed.

Lemma realpath_missing : forall hops root follow p,
  lookup_path root p = Missing -> realpath hops root follow p = None.
Proof. intros [|h] root follow p H; cbn [realpath]; rewrite H; reflexivity. Qed.

Lemma exists_at_physical : forall root p n,
  node_at root p = Some n -> is_link n = false -> exists_at root p = true.
Proof.
  intros root p n H Hl. unfold exists_at.
  rewrite (stat_node_physical true _ _ _ H) by (intros _; exact Hl). reflexivity.
Qed.

Lemma is_dir_at_physical : forall root p n,
  node_at root p = Some n -> is_link n = false -> is_dir_at root p = is_dir_node n.
Proof.
  intros root p n H Hl. unfold is_dir_at.
  rewrite (stat_node_physical true _ _ _ H) by (intros _; exact Hl). reflexivity.
Qed.

Lemma is_file_at_physical : forall root p n,
  node_at root p = Some n -> is_link n = false -> is_file_at root p = is_file_node n.
Proof.
  intros root p n H Hl. unfold is_file_at.
  rewrite (stat_node_physical true _ _ _ H) by (intros _; exact Hl). reflexivity.
Qed.

Lemma is_symlink_at_physical : forall root p n,
  node_at root p = Some n -> is_symlink_at root p = is_link n.
Proof.
  intros root p n H. unfold is_symlink_at.
  rewrite (stat_node_physical false _ _ _ H) by discriminate. reflexivity.
Qed.

Lemma bind_eval : forall A B (m : M A) (k : A -> M B) w,
  bind m k w = match m w with (Ok a, w') => k a w' | (Raise, w') => (Raise, w') end.
Proof. reflexivity. Qed.

Lemma lift_eval : forall A (t : T A) w, lift t w = let '(a, w') := t w in (Ok a, w').
Proof. reflexivity. Qed.

Lemma try_except_eval : forall A (body : M A) (handler : T A) w,
  try_except body handler w =
  match body w with (Ok a, w') => (a, w') | (Raise, w') => handler w' end.
Proof. reflexivity. Qed.

(** [wipe_tree] on a directory without links removes it and reports the
    bytes it held. *)
Lemma wipe_tree_plain : forall d es w,
  quiet w -> node_at (fs w) d = Some (Dir es) -> d <> [] ->
  unique_names (Dir es) = true -> link_free (Dir es) = true ->
  wipe_tree d w = (du (Dir es), with_fs (remove_at (fs w) d) w).
Proof.
  intros d es w Hq Hp Hne Hu Hl. unfold wipe_tree. rewrite try_except_eval.
  rewrite bind_eval. unfold Path_exists. rewrite fs_query_quiet by exact Hq.
  rewrite (exists_at_physical _ _ _ Hp eq_refl). cbn [negb].
  rewrite bind_eval. unfold Path_is_symlink. rewrite fs_query_quiet by exact Hq.
  rewrite (is_symlink_at_physical _ _ _ Hp). cbn [is_link].
  rewrite bind_eval, lift_eval.
  rewrite (walk_plain _ _ _ _ 0 Hq Hp Hu Hl (height_node_at _ _ _ Hp)).
  cbv beta iota. rewrite bind_eval, lift_eval.
  set (w1 := with_fs _ w).
  assert (Hp1 : node_at (fs w1) d = Some (Dir []))
    by (unfold w1; destruct w as [root fl bb bq]; cbn [fs with_fs] in *;
        eapply node_at_set_at_same; exact Hp).
  rewrite (rmdir_quiet d w1 (quiet_with_fs _ _ Hq) Hp1 Hne).
  unfold ret, w1. destruct w as [root fl bb bq]. cbn [fs with_fs].
  rewrite remove_at_set_at_same by exact Hne. reflexivity.
Qed.

(** One turn of the loop of [wipe_dir_contents], at a file and at a
    directory. *)
Lemma wipe_entry_file : forall d es x s ro freed w,
  quiet w -> node_at (fs w) d = Some (Dir ((x, File s ro) :: es)) ->
  wipe_entry (entry_of d (x, File s ro)) freed w =
  (Ok (freed + Z.of_N s), with_fs (set_at (fs w) d (Dir es)) w).
Proof.
  intros d es x s ro freed w Hq Hp.
  assert (Hx : node_at (fs w) (d ++ [x]) = Some (File s ro)).
  { rewrite (node_at_entry _ _ _ _ Hp). cbn. rewrite String.eqb_refl. reflexivity. }
  unfold wipe_entry, entry_of. cbn [de_path fst snd].
  rewrite bind_eval. unfold Path_is_dir. rewrite fs_query_quiet by exact Hq.
  rewrite (is_dir_at_physical _ _ _ Hx eq_refl). cbn [is_dir_node].
  rewrite bind_eval. unfold Path_is_file. rewrite fs_query_quiet by exact Hq.
  rewrite (is_file_at_physical _ _ _ Hx eq_refl). cbn [is_file_node].
  rewrite bind_eval, lift_eval.
  rewrite (safe_remove_file_quiet _ _ _ _ Hq Hx (snoc_not_nil _ _)).
  rewrite (remove_at_app _ _ _ _ Hp) by discriminate.
  rewrite remove_at_entry. cbn [remove_entry]. unfold named. cbn [fst].
  rewrite String.eqb_refl. reflexivity.
Qed.

Lemma wipe_entry_dir : forall d es x es' freed w,
  quiet w -> node_at (fs w) d = Some (Dir ((x, Dir es') :: es)) ->
  unique_names (Dir es') = true -> link_free (Dir es') = true ->
  wipe_entry (entry_of d (x, Dir es')) freed w =
  (Ok (freed + du (Dir es')), with_fs (set_at (fs w) d (Dir es)) w).
Proof.
  intros d es x es' freed w Hq Hp Hu Hl.
  assert (Hx : node_at (fs w) (d ++ [x]) = Some (Dir es')).
  { rewrite (node_at_entry _ _ _ _ Hp). cbn. rewrite String.eqb_refl. reflexivity. }
  unfold wipe_entry, entry_of. cbn [de_path fst snd].
  rewrite bind_eval. unfold Path_is_dir. rewrite fs_query_quiet by exact Hq.
  rewrite (is_dir_at_physical _ _ _ Hx eq_refl). cbn [is_dir_node].
  rewrite bind_eval. unfold Path_is_symlink. rewrite fs_query_quiet by exact Hq.
  rewrite (is_symlink_at_physical _ _ _ Hx). cbn [is_link].
  rewrite bind_eval, lift_eval.
  rewrite (wipe_tree_plain _ _ _ Hq Hx (snoc_not_nil _ _) Hu Hl).
  rewrite (remove_at_app _ _ _ _ Hp) by discriminate.
  rewrite remove_at_entry. cbn [remove_entry]. unfold named. cbn [fst].
  rewrite String.eqb_refl. reflexivity.
Qed.

Lemma entries_wiped : forall d todo w freed,
  quiet w -> node_at (fs w) d = Some (Dir todo) ->
  unique_names (Dir todo) = true -> link_free (Dir todo) = true ->
  for_try (map (entry_of d) todo) wipe_entry freed w =
  (freed + du (Dir todo), with_fs (set_at (fs w) d (Dir [])) w).
Proof.
  intros d todo. induction todo as [|[x n] todo IH]; intros w freed Hq Hp Hu Hl.
  - cbn [map for_try]. rewrite (set_at_same _ _ _ Hp), with_fs_same. cbn [du].
    replace (freed + 0) with freed by lia. reflexivity.
  - rewrite unique_names_cons in Hu. cbn [fst snd] in Hu.
    apply andb_prop in Hu. destruct Hu as [Hu Hut]. apply andb_prop in Hu.
    destruct Hu as [Hun _].
    rewrite link_free_cons in Hl. cbn [snd] in Hl. apply andb_prop in Hl.
    destruct Hl as [Hln Hlt].
    assert (Hp1 : node_at (fs (with_fs (set_at (fs w) d (Dir todo)) w)) d = Some (Dir todo))
      by (destruct w as [root fl bb bq]; cbn [fs with_fs] in *;
          eapply node_at_set_at_same; exact Hp).
    cbn [map for_try]. rewrite (du_cons (x, n)). cbn [snd].
    destruct n as [s ro|es'|dl tg]; [| |discriminate].
    + rewrite (wipe_entry_file _ _ _ _ _ _ _ Hq Hp).
      rewrite (IH _ _ (quiet_with_fs _ _ Hq) Hp1 Hut Hlt).
      destruct w as [root fl bb bq]. cbn [fs with_fs du].
      rewrite set_at_set_at. f_equal. lia.
    + rewrite (wipe_entry_dir _ _ _ _ _ _ Hq Hp Hun Hln).
      rewrite (IH _ _ (quiet_with_fs _ _ Hq) Hp1 Hut Hlt).
      destruct w as [root fl bb bq]. cbn [fs with_fs].
      rewrite set_at_set_at. f_equal. lia.
Qed.

(** [wipe_dir_contents] on a directory without links empties it and reports
    the bytes it held. *)
Lemma wipe_dir_contents_plain : forall d es w,
  quiet w -> node_at (fs w) d = Some (Dir es) ->
  unique_names (Dir es) = true -> link_free (Dir es) = true ->
  wipe_dir_contents d w = (Ok (du (Dir es)), with_fs (set_at (fs w) d (Dir [])) w).
Proof.
  intros d es w Hq Hp Hu Hl. unfold wipe_dir_contents.
  rewrite bind_eval. unfold Path_exists. rewrite fs_query_quiet by exact Hq.
  rewrite (exists_at_physical _ _ _ Hp eq_refl). cbn [negb].
  rewrite bind_eval. unfold Path_is_dir. rewrite fs_query_quiet by exact Hq.
  rewrite (is_dir_at_physical _ _ _ Hp eq_refl). cbn [is_dir_node negb].
  rewrite lift_eval. unfold scan_try. rewrite (os_scandir_quiet _ _ _ Hq Hp).
  rewrite (entries_wiped _ _ _ 0 Hq Hp Hu Hl). reflexivity.
Qed.

(** ** What a wipe leaves behind *)

Lemma exists_at_removed : forall root p n,
  unique_names root = true -> node_at root p = Some n -> p <> [] ->
  exists_at (remove_at root p) p = false.
Proof.
  intros root p n Hu Hp Hne. unfold exists_at, stat_node.
  rewrite (realpath_missing _ _ _ _ (lookup_path_removed _ _ _ Hu Hp Hne)). reflexivity.
Qed.




(** C3.  [wipe_tree] calls [rmdir] on every name [os.walk] reports in
    [dirs], and a link to a directory is one of them: on the sample folder
    the directory link [dlnk] is gone afterwards, removed as a directory,
    while the file link [lnk] and everything under [out] are as they were
    and only the 23 bytes of the folder's own files are counted.  Through
    [wipe_dir_contents] the same happens one level down: the link inside
    [sub] goes, and [sub] with it. *)
Theorem wipe_tree_removes_directory_links :
  (node_at (fs sample_world) ["d"; "dlnk"] = Some (Link true ["out"]) /\
   fst (wipe_tree ["d"] sample_world) = 23 /\
   fs (snd (wipe_tree ["d"] sample_world)) =
     Dir [ ("d", Dir [ ("lnk", Link false ["out"; "secret"]) ]);
           ("out", Dir [ ("secret", File 100 false) ]) ]) /\
  (node_at (fs sample_nested) ["d"; "sub"; "dlnk"] = Some (Link true ["out"]) /\
   fst (wipe_dir_contents ["d"] sample_nested) = Ok 7 /\
   fs (snd (wipe_dir_contents ["d"] sample_nested)) =
     Dir [ ("d", Dir []); ("out", Dir [ ("secret", File 100 false) ]) ]).
Proof. repeat split; vm_compute; reflexivity. Qed.

(** C4.  The existence check of [wipe_dir_contents] and of [delete_globs]
    stands before the [try]: when that first call fails, the exception
    reaches the caller, whatever the folder, the patterns and the rest of
    the world.  And inside the [try] one failing call ends the whole loop:
    on the sample folder a failure while classifying the first entry leaves
    all 23 bytes in place. *)
Theorem guard_before_try_raises :
  (forall fnmatch d patterns root fl bb bq,
     wipe_dir_contents d (mkWorld root (true :: fl) bb bq) = (Raise, mkWorld root fl bb bq) /\
     delete_globs fnmatch d patterns (mkWorld root (true :: fl) bb bq) =
       (Raise, mkWorld root fl bb bq)) /\
  wipe_dir_contents ["d"] (with_faults [true] sample_world) = (Raise, sample_world) /\
  wipe_dir_contents ["d"] (with_faults [false; false; false; true] sample_world) =
    (Ok 0, sample_world).
Proof.
  split; [|split; vm_compute; reflexivity].
  intros fnmatch d patterns root fl bb bq. split; reflexivity.
Qed.

(** ** The wipes under any failures *)

Lemma rmdir_at_step : forall root p root',
  rmdir_at root p = Some root' -> fs_step true root root'.
Proof.
  intros root p root'. unfold rmdir_at.
  destruct (realpath MAX_LINK_HOPS root false p) as [[|x q]|]; try discriminate.
  destruct (node_at root (x :: q)) as [[s ro|[|e es]|[|] t]|] eqn:Hq; try discriminate;
    intros H; replace root' with (remove_at root (x :: q)) by congruence.
  - eapply step_rmdir; [reflexivity|discriminate|exact Hq].
  - eapply step_rmlink; [reflexivity|discriminate|exact Hq].
Qed.

Lemma wpT_rmdir : forall root0 p freed w,
  within true root0 freed w ->
  wpT (try_except (Path_rmdir p) pass) (fun _ w' => within true root0 freed w') w.
Proof.
  intros root0 p freed w HI. apply wpT_try. unfold Path_rmdir. apply wp_fs_update.
  intros w'. split.
  - intros Hw'. unfold wpT, pass. cbn [fst snd]. eapply within_same_fs; eassumption.
  - intros root' Hr Hw'. eapply within_step; [exact HI|]. rewrite Hw'.
    eapply rmdir_at_step; exact Hr.
Qed.

Lemma os_scandir_fs : forall p w, fs (snd (os_scandir p w)) = fs w.
Proof.
  intros p w. unfold os_scandir.
  apply (wp_fs_query _ (fun root => listdir root p) (fun _ w1 => fs w1 = fs w)).
  intros w' H. split; [exact H|intros; exact H].
Qed.

Lemma descend_invariant : forall (Inv : Z -> world -> Prop) walk,
  (forall d f w, Inv f w ->
     match walk d f w with Some (f', w') => Inv f' w' | None => True end) ->
  forall l f w, Inv f w ->
    match descend walk l f w with Some (f', w') => Inv f' w' | None => True end.
Proof.
  intros Inv walk Hw l. induction l as [|d l IH]; intros f w HI; cbn [descend].
  - exact HI.
  - specialize (Hw d f w HI). destruct (walk d f w) as [[f1 w1]|]; [|exact I].
    apply IH. exact Hw.
Qed.

Lemma wipe_tree_body_within : forall root0 base top dirs files freed w,
  within true root0 (base + freed) w ->
  wpT (wipe_tree_body top dirs files freed)
      (fun f w' => within true root0 (base + f) w') w.
Proof.
  intros root0 base top dirs files freed w HI. unfold wipe_tree_body.
  apply wpT_bind. eapply wpT_mono.
  - apply (wpT_for_T _ (fun f w1 => within true root0 (base + f) w1)); [|exact HI].
    intros name f w1 H1. apply wpT_bind.
    eapply wpT_mono; [apply wpT_safe_remove_file; exact H1|].
    intros d w2 H2. apply wpT_giving. rewrite Z.add_assoc. exact H2.
  - cbv beta. intros f1 w1 H1. apply wpT_bind. eapply wpT_mono.
    + apply (wpT_for_T _ (fun _ w2 => within true root0 (base + f1) w2)); [|exact H1].
      intros name z w2 H2. apply wpT_bind.
      eapply wpT_mono; [apply wpT_rmdir; exact H2|].
      intros u w3 H3. apply wpT_giving. exact H3.
    + intros u w2 H2. apply wpT_giving. exact H2.
Qed.

Lemma wpT_elim : forall A (t : T A) (Q : A -> world -> Prop) w,
  wpT t Q w -> let (a, w') := t w in Q a w'.
Proof. unfold wpT. intros A t Q w H. destruct (t w). exact H. Qed.

Lemma walk_within : forall root0 base fuel top freed w,
  within true root0 (base + freed) w ->
  match os_walk_bottomup fuel wipe_tree_body top freed w with
  | Some (f', w') => within true root0 (base + f') w'
  | None => True
  end.
Proof.
  intros root0 base fuel. induction fuel as [|n IH]; intros top freed w HI;
    rewrite os_walk_bottomup_eq; pose proof (os_scandir_fs top w) as Hfs;
    destruct (os_scandir top w) as [[entries|] w1]; cbn [snd] in Hfs;
    try (eapply within_same_fs; eassumption).
  - destruct (walk_dirs_of (fs w1) entries) as [|d l]; cbn [descend]; [|exact I].
    apply (wpT_elim _ _ (fun f w' => within true root0 (base + f) w')).
    apply wipe_tree_body_within. eapply within_same_fs; eassumption.
  - pose proof (descend_invariant (fun f w' => within true root0 (base + f) w')
                  (os_walk_bottomup n wipe_tree_body) IH
                  (walk_dirs_of (fs w1) entries) freed w1
                  (within_same_fs _ _ _ _ _ HI Hfs)) as Hd.
    destruct (descend _ _ freed w1) as [[f2 w2]|]; [|exact I].
    apply (wpT_elim _ _ (fun f w' => within true root0 (base + f) w')).
    apply wipe_tree_body_within. exact Hd.
Qed.

Lemma wpT_wipe_tree : forall root0 p freed w,
  within true root0 freed w ->
  wpT (wipe_tree p) (fun d w' => within true root0 (freed + d) w') w.
Proof.
  intros root0 p freed w HI. unfold wipe_tree.
  assert (Hkeep : forall w', fs w' = fs w -> within true root0 (freed + 0) w')
    by (intros w' Hw'; rewrite Z.add_0_r; eapply within_same_fs; eassumption).
  apply wpT_try. apply wp_bind, wp_fs_query. intros w1 Hw1.
  split; [apply wpT_giving; auto|]. intros ex _.
  destruct ex; cbn [negb]; [|apply wp_ret; auto].
  apply wp_bind, wp_fs_query. intros w2 Hw2. rewrite Hw1 in Hw2.
  split; [apply wpT_giving; auto|]. intros sl _.
  destruct sl; [apply wp_ret; auto|].
  apply wp_bind, wp_lift. unfold wpT at 1.
  pose proof (walk_within root0 freed (height (fs w2)) p 0 w2 (Hkeep w2 Hw2)) as Hwalk.
  destruct (os_walk_bottomup (height (fs w2)) wipe_tree_body p 0 w2) as [[f3 w3]|];
    cbn [fst snd].
  - apply wp_bind, wp_lift. eapply wpT_mono; [apply wpT_rmdir; exact Hwalk|].
    intros u w4 H4. apply wp_ret. exact H4.
  - apply wp_bind, wp_lift. eapply wpT_mono; [apply wpT_rmdir; apply (Hkeep w2 Hw2)|].
    intros u w4 H4. apply wp_ret. exact H4.
Qed.

Lemma wp_wipe_entry : forall root0 e f w,
  within true root0 f w ->
  wp (wipe_entry e f)
     (fun r w' => match r with
                  | Ok f' => within true root0 f' w'
                  | Raise => within true root0 f w'
                  end) w.
Proof.
  intros root0 e f w HI. unfold wipe_entry. cbv zeta.
  assert (Hkeep : forall w', fs w' = fs w -> within true root0 f w')
    by (intros w' Hw'; eapply within_same_fs; eassumption).
  assert (Hother : forall w1, fs w1 = fs w ->
            wp (isf <- Path_is_file (de_path e) ;;
                if (isf : bool)
                then d <- lift (safe_remove_file (de_path e)) ;; ret (f + d)
                else ret f)
               (fun r w' => match r with
                            | Ok f' => within true root0 f' w'
                            | Raise => within true root0 f w'
                            end) w1).
  { intros w1 Hw1. apply wp_bind, wp_fs_query. intros w2 Hw2. rewrite Hw1 in Hw2.
    split; [auto|]. intros isf _. destruct isf; [|apply wp_ret; auto].
    apply wp_bind, wp_lift. eapply wpT_mono; [apply wpT_safe_remove_file; apply (Hkeep w2 Hw2)|].
    intros d w3 H3. apply wp_ret. exact H3. }
  apply wp_bind, wp_fs_query. intros w1 Hw1. split; [auto|]. intros isdir _.
  destruct isdir; [|apply Hother; exact Hw1].
  apply wp_bind, wp_fs_query. intros w2 Hw2. rewrite Hw1 in Hw2.
  split; [auto|]. intros sl _.
  destruct sl; [apply Hother; exact Hw2|].
  apply wp_bind, wp_lift. eapply wpT_mono; [apply wpT_wipe_tree; apply (Hkeep w2 Hw2)|].
  intros d w3 H3. apply wp_ret. exact H3.
Qed.

Lemma wp_wipe_dir_contents : forall p w,
  wp (wipe_dir_contents p)
     (fun r w' => within true (fs w) (match r with Ok v => v | Raise => 0 end) w') w.
Proof.
  intros p w. unfold wipe_dir_contents.
  assert (Hkeep : forall w', fs w' = fs w -> within true (fs w) 0 w')
    by (intros w' Hw'; eapply within_same_fs; [apply within_start|exact Hw']).
  apply wp_bind, wp_fs_query. intros w1 Hw1. split; [auto|]. intros ex _.
  destruct ex; cbn [negb]; [|apply wp_ret; auto].
  apply wp_bind, wp_fs_query. intros w2 Hw2. rewrite Hw1 in Hw2.
  split; [auto|]. intros isdir _.
  destruct isdir; cbn [negb]; [|apply wp_ret; auto].
  apply wp_lift, wpT_scan_try. intros w3 Hw3. rewrite Hw2 in Hw3. split; [auto|].
  intros entries _. apply wpT_for_try; [|auto].
  intros e f w4 HI. apply wp_wipe_entry. exact HI.
Qed.

(** ** Where the wipes act

    Every change a wipe makes is made inside the directory it was given:
    the file system afterwards is the one before with another listing at
    that directory, whatever links the directory holds and whichever calls
    fail. *)

Lemma node_at_set_at_diverge : forall p q root v,
  diverge p q = true -> node_at (set_at root p v) q = node_at root q.
Proof.
  induction p as [|x p IH]; intros q root v H; [discriminate|].
  destruct q as [|y q]; [discriminate|]. cbn [diverge] in H.
  destruct root as [s ro|es|dl t]; try reflexivity.
  cbn [set_at node_at]. rewrite assoc_update_entry.
  destruct (String.eqb x y) eqn:Hxy; [|reflexivity].
  destruct (assoc y es) as [c|]; cbn [option_map]; [|reflexivity].
  apply IH. exact H.
Qed.

Lemma node_at_remove_at_diverge : forall p q root,
  diverge p q = true -> node_at (remove_at root p) q = node_at root q.
Proof.
  induction p as [|x p IH]; intros q root H; [discriminate|].
  destruct q as [|y q]; [discriminate|]. cbn [diverge] in H.
  destruct root as [s ro|es|dl t]; try (destruct p; reflexivity).
  destruct p as [|x' p].
  - cbn [remove_at node_at].
    destruct (String.eqb_spec x y) as [->|Hne]; [destruct q; discriminate|].
    rewrite (assoc_remove_entry_other _ _ _ Hne). reflexivity.
  - rewrite remove_at_deep. cbn [node_at]. rewrite assoc_update_entry.
    destruct (String.eqb x y) eqn:Hxy; [|reflexivity].
    destruct (assoc y es) as [c|]; cbn [option_map]; [|reflexivity].
    apply IH. exact H.
Qed.

(** An entry of a directory reached without crossing a link resolves to
    itself when the last link is not followed. *)
Lemma realpath_child : forall hops root top es x,
  node_at root top = Some (Dir es) ->
  realpath hops root false (top ++ [x]) =
  match assoc x es with Some _ => Some (top ++ [x]) | None => None end.
Proof.
  intros hops root top es x H.
  assert (Hl : lookup_path root (top ++ [x]) =
               match assoc x es with Some c => Found c | None => Missing end).
  { rewrite lookup_path_app, (lookup_path_node_at _ _ _ H). cbn.
    destruct (assoc x es); reflexivity. }
  destruct hops; cbn [realpath]; rewrite Hl;
    destruct (assoc x es) as [[| |]|]; reflexivity.
Qed.

Lemma changed_at_refl : forall x es, changed_at x es es.
Proof. intros x es y _. reflexivity. Qed.

Lemma changed_at_update : forall x f es, changed_at x es (update_entry x f es).
Proof.
  intros x f es y Hy. rewrite assoc_update_entry.
  destruct (String.eqb_spec x y) as [->|_]; [congruence|reflexivity].
Qed.

Lemma changed_at_remove : forall x es, changed_at x es (remove_entry x es).
Proof.
  intros x es y Hy. apply assoc_remove_entry_other. congruence.
Qed.

Lemma acts_at_same : forall top x root es,
  node_at root top = Some (Dir es) -> acts_at top x root root.
Proof.
  intros top x root es H. exists es, es. split; [exact H|]. split.
  - symmetry. apply set_at_same. exact H.
  - apply changed_at_refl.
Qed.

Lemma acts_at_set : forall top x root es v,
  node_at root top = Some (Dir es) ->
  acts_at top x root (set_at root (top ++ [x]) v).
Proof.
  intros top x root es v H. exists es, (update_entry x (fun _ => v) es).
  split; [exact H|]. split.
  - rewrite (set_at_app _ _ _ _ _ H). reflexivity.
  - apply changed_at_update.
Qed.

Lemma acts_at_remove : forall top x root es,
  node_at root top = Some (Dir es) ->
  acts_at top x root (remove_at root (top ++ [x])).
Proof.
  intros top x root es H. exists es, (remove_entry x es).
  split; [exact H|]. split.
  - rewrite (remove_at_app _ _ _ _ H) by discriminate. reflexivity.
  - apply changed_at_remove.
Qed.

Lemma safe_remove_file_acts : forall top es x w,
  node_at (fs w) top = Some (Dir es) ->
  acts_at top x (fs w) (fs (snd (safe_remove_file (top ++ [x]) w))).
Proof.
  intros top es x w H.
  pose proof (safe_remove_file_outcome (top ++ [x]) w) as Ho. cbv zeta in Ho.
  destruct Ho as [[_ Hfs]|(q & s & ro & Hq & _ & [[_ Hfs]|(_ & _ & Hfs)])]; rewrite Hfs.
  - eapply acts_at_same; exact H.
  - rewrite (realpath_child _ _ _ _ x H) in Hq.
    destruct (assoc x es); [|discriminate]. injection Hq as <-.
    eapply acts_at_set; exact H.
  - rewrite (realpath_child _ _ _ _ x H) in Hq.
    destruct (assoc x es); [|discriminate]. injection Hq as <-.
    eapply acts_at_remove; exact H.
Qed.

Lemma rmdir_acts : forall top es x w,
  node_at (fs w) top = Some (Dir es) ->
  acts_at top x (fs w) (fs (snd (try_except (Path_rmdir (top ++ [x])) pass w))).
Proof.
  intros top es x w H.
  apply (wpT_try _ (Path_rmdir (top ++ [x])) pass (fun _ w' => acts_at top x (fs w) (fs w'))).
  unfold Path_rmdir. apply wp_fs_update. intros w'. split.
  - intros Hw'. unfold wpT, pass. cbn [fst snd]. rewrite Hw'. eapply acts_at_same; exact H.
  - intros root' Hr Hw'. rewrite Hw'. unfold rmdir_at in Hr.
    rewrite (realpath_child _ _ _ _ x H) in Hr.
    destruct (assoc x es); [|discriminate].
    destruct (top ++ [x]) as [|y r] eqn:Hp; [discriminate|]. rewrite <- Hp in *.
    destruct (node_at (fs w) (top ++ [x])) as [[s ro|[|e l]|[|] t]|]; try discriminate;
      injection Hr as <-; eapply acts_at_remove; exact H.
Qed.

Lemma confined_node : forall top root0 n0 w,
  node_at root0 top = Some n0 -> confined top root0 w ->
  exists es', node_at (fs w) top = Some (Dir es').
Proof.
  intros top root0 n0 w H0 [es' Hw]. exists es'. rewrite Hw.
  eapply node_at_set_at_same. exact H0.
Qed.

Lemma confined_acts : forall top x root0 w w',
  confined top root0 w -> acts_at top x (fs w) (fs w') -> confined top root0 w'.
Proof.
  intros top x root0 w w' [es1 Hw] (es & es' & _ & Hw' & _).
  exists es'. rewrite Hw', Hw. apply set_at_set_at.
Qed.

Lemma confined_start : forall top es w,
  node_at (fs w) top = Some (Dir es) -> confined top (fs w) w.
Proof. intros top es w H. exists es. symmetry. apply set_at_same. exact H. Qed.

Lemma confined_same_fs : forall top root0 w w',
  confined top root0 w -> fs w' = fs w -> confined top root0 w'.
Proof. intros top root0 w w' [es H] Hw. exists es. congruence. Qed.

Lemma wipe_tree_body_confined : forall top root0 n0 dirs files freed w,
  node_at root0 top = Some n0 -> confined top root0 w ->
  wpT (wipe_tree_body top dirs files freed) (fun _ w' => confined top root0 w') w.
Proof.
  intros top root0 n0 dirs files freed w H0 HI. unfold wipe_tree_body.
  apply wpT_bind. eapply wpT_mono.
  - apply (wpT_for_T _ (fun _ w1 => confined top root0 w1)); [|exact HI].
    intros name f w1 H1. apply wpT_bind. unfold wpT at 1. apply wpT_giving.
    destruct (confined_node _ _ _ _ H0 H1) as [es1 Hn1].
    eapply confined_acts; [exact H1|]. eapply safe_remove_file_acts; exact Hn1.
  - cbv beta. intros f1 w1 H1. apply wpT_bind. eapply wpT_mono.
    + apply (wpT_for_T _ (fun _ w2 => confined top root0 w2)); [|exact H1].
      intros name z w2 H2. apply wpT_bind. unfold wpT at 1. apply wpT_giving.
      destruct (confined_node _ _ _ _ H0 H2) as [es2 Hn2].
      eapply confined_acts; [exact H2|]. eapply rmdir_acts; exact Hn2.
    + intros u w2 H2. apply wpT_giving. exact H2.
Qed.

(** The descent, one subdirectory after the other: each is still the
    directory the listing showed when its turn comes. *)
Lemma descend_confined : forall walk top root0 n0,
  node_at root0 top = Some n0 ->
  (forall x esx f w,
     node_at (fs w) (top ++ [x]) = Some (Dir esx) -> unique_names (Dir esx) = true ->
     match walk (top ++ [x]) f w with
     | Some (f', w') => exists es', fs w' = set_at (fs w) (top ++ [x]) (Dir es')
     | None => True
     end) ->
  forall names es freed w,
    NoDup names -> fs w = set_at root0 top (Dir es) ->
    (forall x, In x names ->
       exists esx, assoc x es = Some (Dir esx) /\ unique_names (Dir esx) = true) ->
    match descend walk (map (fun x => top ++ [x]) names) freed w with
    | Some (f', w') => confined top root0 w'
    | None => True
    end.
Proof.
  intros walk top root0 n0 H0 Hwalk names.
  induction names as [|x names IH]; intros es freed w Hnd Hw Hdirs; cbn [map descend].
  - exists es. exact Hw.
  - assert (Hn : node_at (fs w) top = Some (Dir es))
      by (rewrite Hw; eapply node_at_set_at_same; exact H0).
    destruct (Hdirs x (or_introl eq_refl)) as (esx & Hx & Hux).
    assert (Hnx : node_at (fs w) (top ++ [x]) = Some (Dir esx))
      by (rewrite (node_at_entry _ _ _ _ Hn); exact Hx).
    specialize (Hwalk x esx freed w Hnx Hux).
    destruct (walk (top ++ [x]) freed w) as [[f1 w1]|]; [|exact I].
    destruct Hwalk as [es' Hw1]. inversion Hnd as [|? ? Hnotin Hnd']; subst.
    apply (IH (update_entry x (fun _ => Dir es') es) f1 w1 Hnd').
    + rewrite Hw1, (set_at_app _ _ _ _ _ Hn), set_at_entry. rewrite Hw at 1.
      apply set_at_set_at.
    + intros y Hy. rewrite assoc_update_entry.
      destruct (String.eqb_spec x y) as [->|_]; [contradiction|].
      apply Hdirs. right. exact Hy.
Qed.

Lemma os_scandir_listing : forall top es w,
  node_at (fs w) top = Some (Dir es) ->
  fs (snd (os_scandir top w)) = fs w /\
  (forall entries, fst (os_scandir top w) = Ok entries -> entries = map (entry_of top) es).
Proof.
  intros top es w H. unfold os_scandir.
  apply (wp_fs_query _ (fun root => listdir root top)
           (fun r w1 => fs w1 = fs w /\
                        forall entries, r = Ok entries -> entries = map (entry_of top) es)).
  intros w' Hw'. split; [split; [exact Hw'|discriminate]|].
  intros a Ha. split; [exact Hw'|]. intros entries [= <-].
  unfold listdir in Ha. rewrite (stat_node_physical true _ _ _ H) in Ha by reflexivity.
  congruence.
Qed.

Lemma walk_dirs_of_listing : forall root top es,
  walk_dirs_of root (map (entry_of top) es) =
  map (fun x => top ++ [x]) (map fst (subdir_entries es)).
Proof.
  intros root top es. unfold walk_dirs_of, subdir_entries.
  induction es as [|[x n] es IH]; [reflexivity|].
  cbn [map filter snd fst]. unfold entry_is_dir at 1, entry_is_symlink at 1, entry_of at 1.
  cbn [de_kind snd fst].
  destruct n; cbn [kind_of is_dir_node andb negb map de_path fst]; rewrite ?andb_false_r;
    rewrite <- IH; reflexivity.
Qed.

Lemma In_assoc : forall es x n,
  NoDup (map fst es) -> In (x, n) es -> assoc x es = Some n.
Proof.
  induction es as [|[z m] es IH]; intros x n Hnd Hin; [contradiction|].
  cbn in Hnd. inversion Hnd as [|? ? Hnot Hnd']; subst. cbn [assoc].
  destruct Hin as [Heq|Hin].
  - injection Heq as -> ->. rewrite String.eqb_refl. reflexivity.
  - destruct (String.eqb_spec z x) as [->|_]; [|apply IH; assumption].
    exfalso. apply Hnot. apply (in_map fst) in Hin. exact Hin.
Qed.

Lemma subdir_entries_dirs : forall es x,
  unique_names (Dir es) = true -> In x (map fst (subdir_entries es)) ->
  exists esx, assoc x es = Some (Dir esx) /\ unique_names (Dir esx) = true.
Proof.
  intros es x Hu Hin. apply in_map_iff in Hin. destruct Hin as ([y n] & <- & Hin).
  unfold subdir_entries in Hin. apply filter_In in Hin. destruct Hin as [Hin Hd].
  cbn [fst snd] in *. destruct n as [|esx|]; try discriminate.
  exists esx. split.
  - apply In_assoc; [apply unique_names_NoDup; exact Hu|exact Hin].
  - eapply unique_names_In; eassumption.
Qed.

(** The walk changes nothing but the listing of the directory it is given. *)
Lemma walk_confined : forall fuel top es freed w,
  node_at (fs w) top = Some (Dir es) -> unique_names (Dir es) = true ->
  match os_walk_bottomup fuel wipe_tree_body top freed w with
  | Some (f', w') => exists es', fs w' = set_at (fs w) top (Dir es')
  | None => True
  end.
Proof.
  induction fuel as [|n IH]; intros top es freed w Hn Hu;
    rewrite os_walk_bottomup_eq;
    destruct (os_scandir_listing _ _ _ Hn) as [Hfs Hent];
    destruct (os_scandir top w) as [[entries|] w1]; cbn [fst snd] in *;
    try (exists es; rewrite Hfs; symmetry; apply set_at_same; exact Hn);
    rewrite (Hent entries eq_refl), walk_dirs_of_listing;
    rewrite <- Hfs in Hn |- *.
  - pose proof (descend_confined (fun _ _ _ => None) top (fs w1) (Dir es) Hn
                  (fun _ _ _ _ _ _ => I)
                  (map fst (subdir_entries es)) es freed w1
                  (NoDup_filter_names _ _ (unique_names_NoDup _ Hu))
                  (eq_sym (set_at_same _ _ _ Hn))
                  (fun x Hx => subdir_entries_dirs es x Hu Hx)) as Hd.
    destruct (descend _ _ freed w1) as [[f2 w2]|]; [|exact I].
    apply (wpT_elim _ _ (fun _ w' => confined top (fs w1) w')).
    eapply wipe_tree_body_confined; [exact Hn|exact Hd].
  - pose proof (descend_confined (os_walk_bottomup n wipe_tree_body) top (fs w1) (Dir es) Hn
                  (fun x esx f w0 Hx Hux => IH (top ++ [x]) esx f w0 Hx Hux)
                  (map fst (subdir_entries es)) es freed w1
                  (NoDup_filter_names _ _ (unique_names_NoDup _ Hu))
                  (eq_sym (set_at_same _ _ _ Hn))
                  (fun x Hx => subdir_entries_dirs es x Hu Hx)) as Hd.
    destruct (descend _ _ freed w1) as [[f2 w2]|]; [|exact I].
    apply (wpT_elim _ _ (fun _ w' => confined top (fs w1) w')).
    eapply wipe_tree_body_confined; [exact Hn|exact Hd].
Qed.

Lemma rmdir_top : forall p es w,
  node_at (fs w) p = Some (Dir es) ->
  fs (snd (try_except (Path_rmdir p) pass w)) = fs w \/
  (p <> [] /\ es = [] /\ fs (snd (try_except (Path_rmdir p) pass w)) = remove_at (fs w) p).
Proof.
  intros p es w H.
  apply (wpT_try _ (Path_rmdir p) pass
           (fun _ w' => fs w' = fs w \/ (p <> [] /\ es = [] /\ fs w' = remove_at (fs w) p))).
  unfold Path_rmdir. apply wp_fs_update. intros w'. split.
  - intros Hw'. unfold wpT, pass. cbn [fst snd]. left. exact Hw'.
  - intros root' Hr Hw'. unfold rmdir_at in Hr.
    rewrite (realpath_physical _ _ false _ _ H) in Hr by discriminate.
    destruct p as [|x p]; [discriminate|]. rewrite H in Hr.
    destruct es; [|discriminate]. injection Hr as <-.
    right. split; [discriminate|]. split; [reflexivity|exact Hw'].
Qed.

(** [wipe_tree] on a directory leaves the file system as it was but for
    that directory, which has another listing or is gone. *)
Lemma wipe_tree_confined : forall p es w,
  node_at (fs w) p = Some (Dir es) -> unique_names (Dir es) = true ->
  confined p (fs w) (snd (wipe_tree p w)) \/
  (p <> [] /\ fs (snd (wipe_tree p w)) = remove_at (fs w) p).
Proof.
  intros p es w Hn Hu.
  set (Q := fun (_ : Z) w' =>
              confined p (fs w) w' \/ (p <> [] /\ fs w' = remove_at (fs w) p)).
  change (wpT (wipe_tree p) Q w).
  assert (Hkeep : forall z w', fs w' = fs w -> Q z w').
  { intros z w' Hw'. left. eapply confined_same_fs; [|exact Hw'].
    eapply confined_start. exact Hn. }
  assert (Hlast : forall z es3 w3, fs w3 = set_at (fs w) p (Dir es3) ->
            Q z (snd (try_except (Path_rmdir p) pass w3))).
  { intros z es3 w3 Hw3.
    assert (Hn3 : node_at (fs w3) p = Some (Dir es3))
      by (rewrite Hw3; eapply node_at_set_at_same; exact Hn).
    destruct (rmdir_top _ _ _ Hn3) as [Hsame|(Hne & -> & Hrm)].
    - left. exists es3. congruence.
    - right. split; [exact Hne|]. rewrite Hrm, Hw3. apply remove_at_set_at_same. exact Hne. }
  unfold wipe_tree. apply wpT_try. apply wp_bind, wp_fs_query. intros w1 Hw1.
  split; [apply wpT_giving; auto|]. intros ex _.
  destruct ex; cbn [negb]; [|apply wp_ret; auto].
  apply wp_bind, wp_fs_query. intros w2 Hw2. rewrite Hw1 in Hw2.
  split; [apply wpT_giving; auto|]. intros sl _.
  destruct sl; [apply wp_ret; auto|].
  apply wp_bind, wp_lift. unfold wpT at 1.
  assert (Hn2 : node_at (fs w2) p = Some (Dir es)) by (rewrite Hw2; exact Hn).
  pose proof (walk_confined (height (fs w2)) p es 0 w2 Hn2 Hu) as Hwalk.
  destruct (os_walk_bottomup (height (fs w2)) wipe_tree_body p 0 w2) as [[f3 w3]|];
    cbn [fst snd]; apply wp_bind, wp_lift; unfold wpT at 1; apply wp_ret.
  - destruct Hwalk as [es3 Hw3]. rewrite Hw2 in Hw3. eapply Hlast. exact Hw3.
  - apply (Hlast _ es). rewrite Hw2. symmetry. apply set_at_same. exact Hn.
Qed.

Lemma wipe_tree_acts : forall top es x esx w,
  node_at (fs w) top = Some (Dir es) -> assoc x es = Some (Dir esx) ->
  unique_names (Dir esx) = true ->
  acts_at top x (fs w) (fs (snd (wipe_tree (top ++ [x]) w))).
Proof.
  intros top es x esx w Hn Hx Hu.
  assert (Hnx : node_at (fs w) (top ++ [x]) = Some (Dir esx))
    by (rewrite (node_at_entry _ _ _ _ Hn); exact Hx).
  destruct (wipe_tree_confined _ _ _ Hnx Hu) as [[es' Hw]|[_ Hw]]; rewrite Hw.
  - eapply acts_at_set; exact Hn.
  - eapply acts_at_remove; exact Hn.
Qed.

(** One turn of the loop of [wipe_dir_contents] changes the entry it is at,
    and no other. *)
Lemma wipe_entry_acts : forall top es x n f w,
  node_at (fs w) top = Some (Dir es) -> assoc x es = Some n -> unique_names n = true ->
  acts_at top x (fs w) (fs (snd (wipe_entry (entry_of top (x, n)) f w))).
Proof.
  intros top es x n f w Hn Hx Hu.
  assert (Hnx : node_at (fs w) (top ++ [x]) = Some n)
    by (rewrite (node_at_entry _ _ _ _ Hn); exact Hx).
  set (Q := fun (_ : result Z) w' => acts_at top x (fs w) (fs w')).
  change (wp (wipe_entry (entry_of top (x, n)) f) Q w).
  assert (Hkeep : forall r w', fs w' = fs w -> Q r w')
    by (intros r w' Hw'; unfold Q; rewrite Hw'; eapply acts_at_same; exact Hn).
  unfold wipe_entry, entry_of. cbn [de_path fst snd]. cbv zeta.
  assert (Hother : forall w1, fs w1 = fs w ->
            wp (isf <- Path_is_file (top ++ [x]) ;;
                if (isf : bool)
                then d <- lift (safe_remove_file (top ++ [x])) ;; ret (f + d)
                else ret f) Q w1).
  { intros w1 Hw1. apply wp_bind, wp_fs_query. intros w2 Hw2. rewrite Hw1 in Hw2.
    split; [auto|]. intros isf _. destruct isf; [|apply wp_ret; auto].
    apply wp_bind, wp_lift. unfold wpT. apply wp_ret. unfold Q. rewrite <- Hw2.
    eapply safe_remove_file_acts. rewrite Hw2. exact Hn. }
  apply wp_bind, wp_fs_query. intros w1 Hw1. split; [auto|]. intros isdir Hisdir.
  destruct isdir; [|apply Hother; exact Hw1].
  apply wp_bind, wp_fs_query. intros w2 Hw2. rewrite Hw1 in Hw2.
  split; [auto|]. intros sl Hsl.
  destruct sl; [apply Hother; exact Hw2|].
  injection Hisdir as Hisdir. injection Hsl as Hsl. rewrite ?Hw1 in Hsl.
  rewrite (is_symlink_at_physical _ _ _ Hnx) in Hsl.
  rewrite (is_dir_at_physical _ _ _ Hnx Hsl) in Hisdir.
  destruct n as [|esx|]; try discriminate.
  apply wp_bind, wp_lift. unfold wpT. apply wp_ret. unfold Q. rewrite <- Hw2.
  eapply wipe_tree_acts; [rewrite Hw2; exact Hn|exact Hx|exact Hu].
Qed.

(** At a link the turn changes nothing at all. *)
Lemma wipe_entry_link : forall top es x dl t f w,
  node_at (fs w) top = Some (Dir es) -> assoc x es = Some (Link dl t) ->
  fs (snd (wipe_entry (entry_of top (x, Link dl t)) f w)) = fs w.
Proof.
  intros top es x dl t f w Hn Hx.
  assert (Hnx : node_at (fs w) (top ++ [x]) = Some (Link dl t))
    by (rewrite (node_at_entry _ _ _ _ Hn); exact Hx).
  set (Q := fun (_ : result Z) w' => fs w' = fs w).
  change (wp (wipe_entry (entry_of top (x, Link dl t)) f) Q w).
  unfold wipe_entry, entry_of. cbn [de_path fst snd]. cbv zeta.
  assert (Hother : forall w1, fs w1 = fs w ->
            wp (isf <- Path_is_file (top ++ [x]) ;;
                if (isf : bool)
                then d <- lift (safe_remove_file (top ++ [x])) ;; ret (f + d)
                else ret f) Q w1).
  { intros w1 Hw1. apply wp_bind, wp_fs_query. intros w2 Hw2. rewrite Hw1 in Hw2.
    split; [exact Hw2|]. intros isf _. destruct isf; [|apply wp_ret; exact Hw2].
    apply wp_bind, wp_lift. unfold wpT. apply wp_ret. unfold Q. rewrite <- Hw2.
    eapply (safe_remove_file_link _ _ dl t).
    rewrite Hw2. apply stat_node_physical; [exact Hnx|discriminate]. }
  apply wp_bind, wp_fs_query. intros w1 Hw1. split; [exact Hw1|]. intros isdir _.
  destruct isdir; [|apply Hother; exact Hw1].
  apply wp_bind, wp_fs_query. intros w2 Hw2. rewrite Hw1 in Hw2.
  split; [exact Hw2|]. intros sl Hsl. injection Hsl as Hsl. rewrite ?Hw1 in Hsl.
  rewrite (is_symlink_at_physical _ _ _ Hnx) in Hsl. cbn [is_link] in Hsl. subst sl.
  apply Hother. exact Hw2.
Qed.

Lemma wipe_entry_step : forall top es x n f w,
  node_at (fs w) top = Some (Dir es) -> assoc x es = Some n -> unique_names n = true ->
  exists es1,
    fs (snd (wipe_entry (entry_of top (x, n)) f w)) = set_at (fs w) top (Dir es1) /\
    changed_at x es es1 /\ (is_link n = true -> es1 = es).
Proof.
  intros top es x n f w Hn Hx Hu.
  destruct (wipe_entry_acts top es x n f w Hn Hx Hu) as (es0 & es1 & Hn0 & Hw1 & Hch).
  rewrite Hn in Hn0. injection Hn0 as <-.
  exists es1. split; [exact Hw1|]. split; [exact Hch|].
  intros Hl. destruct n as [| |dl t]; try discriminate.
  pose proof (wipe_entry_link top es x dl t f w Hn Hx) as Hsame.
  rewrite Hw1 in Hsame. apply (f_equal (fun r => node_at r top)) in Hsame.
  rewrite (node_at_set_at_same _ _ _ _ Hn), Hn in Hsame. congruence.
Qed.

(** The loop of [wipe_dir_contents]: only the listing of [top] changes, and
    the links it holds stay. *)
Lemma entries_confined : forall top root0 n0 todo es f w,
  node_at root0 top = Some n0 -> NoDup (map fst todo) ->
  fs w = set_at root0 top (Dir es) ->
  (forall x n, In (x, n) todo -> assoc x es = Some n /\ unique_names n = true) ->
  exists es',
    fs (snd (for_try (map (entry_of top) todo) wipe_entry f w)) = set_at root0 top (Dir es') /\
    forall l dl t, assoc l es = Some (Link dl t) -> assoc l es' = Some (Link dl t).
Proof.
  intros top root0 n0 todo. induction todo as [|[x n] todo IH]; intros es f w H0 Hnd Hw Hall.
  - exists es. split; [exact Hw|auto].
  - assert (Hn : node_at (fs w) top = Some (Dir es))
      by (rewrite Hw; eapply node_at_set_at_same; exact H0).
    destruct (Hall x n (or_introl eq_refl)) as [Hx Hu].
    destruct (wipe_entry_step top es x n f w Hn Hx Hu) as (es1 & Hw1 & Hch & Hlink).
    assert (Hw1' : fs (snd (wipe_entry (entry_of top (x, n)) f w)) = set_at root0 top (Dir es1))
      by (rewrite Hw1; rewrite Hw at 1; apply set_at_set_at).
    assert (Hkeep : forall l dl t, assoc l es = Some (Link dl t) ->
                                   assoc l es1 = Some (Link dl t)).
    { intros l dl t Hl. destruct (String.eqb_spec l x) as [->|Hne].
      - rewrite Hl in Hx. injection Hx as <-. rewrite Hlink by reflexivity. exact Hl.
      - rewrite (Hch l Hne). exact Hl. }
    cbn [map for_try].
    destruct (wipe_entry (entry_of top (x, n)) f w) as [[f1|] w1]; cbn [snd] in *.
    + cbn in Hnd. inversion Hnd as [|? ? Hnot Hnd']; subst.
      destruct (IH es1 f1 w1 H0 Hnd' Hw1') as (es' & Hfin & Hl').
      * intros y m Hin. destruct (Hall y m (or_intror Hin)) as [Hy Hum].
        split; [|exact Hum]. rewrite Hch; [exact Hy|].
        intros ->. apply Hnot. apply (in_map fst) in Hin. exact Hin.
      * exists es'. split; [exact Hfin|]. intros l dl t Hl. apply Hl', Hkeep, Hl.
    + exists es1. split; [exact Hw1'|exact Hkeep].
Qed.

(** [wipe_dir_contents] on a directory leaves the file system as it was but
    for the listing of that directory, in which every link is kept. *)
Lemma wipe_dir_contents_confined : forall p es w,
  node_at (fs w) p = Some (Dir es) -> unique_names (Dir es) = true ->
  exists es',
    fs (snd (wipe_dir_contents p w)) = set_at (fs w) p (Dir es') /\
    forall l dl t, assoc l es = Some (Link dl t) -> assoc l es' = Some (Link dl t).
Proof.
  intros p es w Hn Hu.
  set (Q := fun (_ : result Z) w' =>
              exists es', fs w' = set_at (fs w) p (Dir es') /\
                          forall l dl t, assoc l es = Some (Link dl t) ->
                                         assoc l es' = Some (Link dl t)).
  change (wp (wipe_dir_contents p) Q w).
  assert (Hkeep : forall r w', fs w' = fs w -> Q r w').
  { intros r w' Hw'. exists es. split; [|auto].
    rewrite Hw'. symmetry. apply set_at_same. exact Hn. }
  unfold wipe_dir_contents.
  apply wp_bind, wp_fs_query. intros w1 Hw1. split; [auto|]. intros ex _.
  destruct ex; cbn [negb]; [|apply wp_ret; auto].
  apply wp_bind, wp_fs_query. intros w2 Hw2. rewrite Hw1 in Hw2.
  split; [auto|]. intros isdir _.
  destruct isdir; cbn [negb]; [|apply wp_ret; auto].
  apply wp_lift, wpT_scan_try. intros w3 Hw3. rewrite Hw2 in Hw3. split; [auto|].
  intros entries Hl. rewrite ?Hw2 in Hl. unfold listdir in Hl.
  rewrite (stat_node_physical true _ _ _ Hn) in Hl by reflexivity. injection Hl as <-.
  unfold wpT, Q.
  apply (entries_confined p (fs w) (Dir es) es es 0 w3 Hn (unique_names_NoDup _ Hu)).
  - rewrite Hw3. symmetry. apply set_at_same. exact Hn.
  - intros x n Hin. split.
    + apply In_assoc; [apply unique_names_NoDup; exact Hu|exact Hin].
    + eapply unique_names_In; eassumption.
Qed.

(** ** What the wipes guarantee under any failures *)

(** In a tree of regular files, directories and symbolic links: whatever
    the directory holds (symbolic links included) and whichever calls fail,
    [wipe_dir_contents] and [wipe_tree] change nothing outside the directory
    they are given: every path that parts ways with it names afterwards
    what it named before.  In particular the target of a symbolic link that
    points out of the directory is untouched. *)
Theorem wipes_stay_inside : forall p es w,
  node_at (fs w) p = Some (Dir es) -> unique_names (Dir es) = true ->
  forall q, diverge p q = true ->
    node_at (fs (snd (wipe_dir_contents p w))) q = node_at (fs w) q /\
    node_at (fs (snd (wipe_tree p w))) q = node_at (fs w) q.
Proof.
  intros p es w Hn Hu q Hq. split.
  - destruct (wipe_dir_contents_confined _ _ _ Hn Hu) as (es' & -> & _).
    apply node_at_set_at_diverge. exact Hq.
  - destruct (wipe_tree_confined _ _ _ Hn Hu) as [[es' ->]|[_ ->]].
    + apply node_at_set_at_diverge. exact Hq.
    + apply node_at_remove_at_diverge. exact Hq.
Qed.

Lemma wipes_stay_inside_witness :
  node_at (fs (snd (wipe_dir_contents ["d"] sample_world))) ["out"; "secret"] =
    Some (File 100 false) /\
  node_at (fs (snd (wipe_tree ["d"] sample_world))) ["out"; "secret"] =
    Some (File 100 false).
Proof.
  exact (wipes_stay_inside ["d"] _ sample_world eq_refl eq_refl ["out"; "secret"] eq_refl).
Defined.

(** [wipe_dir_contents] keeps every link that is a direct child of the
    directory, file link or directory link, whichever calls fail. *)
Theorem wipe_dir_contents_keeps_child_links : forall p es w l dl t,
  node_at (fs w) p = Some (Dir es) -> unique_names (Dir es) = true ->
  assoc l es = Some (Link dl t) ->
  node_at (fs (snd (wipe_dir_contents p w))) (p ++ [l]) = Some (Link dl t).
Proof.
  intros p es w l dl t Hn Hu Hl.
  destruct (wipe_dir_contents_confined _ _ _ Hn Hu) as (es' & -> & Hkeep).
  rewrite (node_at_set_at_below _ _ _ _ _ Hn). cbn [node_at].
  rewrite (Hkeep _ _ _ Hl). reflexivity.
Qed.

Lemma wipe_dir_contents_keeps_child_links_witness :
  node_at (fs (snd (wipe_dir_contents ["d"] sample_world))) ["d"; "dlnk"] =
  Some (Link true ["out"]).
Proof.
  exact (wipe_dir_contents_keeps_child_links ["d"] _ sample_world "dlnk" true ["out"]
           eq_refl eq_refl eq_refl).
Defined.

(** For every path and every world, [wipe_tree] (which cannot raise) and
    [wipe_dir_contents] (when it returns) give a total that is not negative
    and is covered by the bytes of the regular files that went, and no link
    to a file is removed anywhere in the file system. *)
Theorem wipes_cover_their_total : forall p w,
  (0 <= fst (wipe_tree p w) /\
   fst (wipe_tree p w) + du (fs (snd (wipe_tree p w))) <= du (fs w) /\
   forall q t, node_at (fs w) q = Some (Link false t) ->
               node_at (fs (snd (wipe_tree p w))) q = Some (Link false t)) /\
  (match fst (wipe_dir_contents p w) with
   | Ok v => 0 <= v /\ v + du (fs (snd (wipe_dir_contents p w))) <= du (fs w)
   | Raise => True
   end /\
   forall q t, node_at (fs w) q = Some (Link false t) ->
               node_at (fs (snd (wipe_dir_contents p w))) q = Some (Link false t)).
Proof.
  intros p w. split.
  - pose proof (wpT_wipe_tree (fs w) p 0 w (within_start true w)) as H.
    unfold wpT in H. cbn [Z.add] in H.
    replace (0 + fst (wipe_tree p w)) with (fst (wipe_tree p w)) in H by lia.
    destruct H as (Hs & Hpos & Hdu). split; [exact Hpos|]. split; [exact Hdu|].
    intros q t Hl. eapply fs_steps_link; [exact Hs|reflexivity|exact Hl].
  - pose proof (wp_wipe_dir_contents p w) as H. unfold wp in H.
    destruct H as (Hs & Hpos & Hdu). split.
    + destruct (fst (wipe_dir_contents p w)); [split; assumption|exact I].
    + intros q t Hl. eapply fs_steps_link; [exact Hs|reflexivity|exact Hl].
Qed.

(** ** The tasks of the catalog under any failures *)

Lemma within_trans : forall dirs root0 f w v w',
  within dirs root0 f w -> within dirs (fs w) v w' -> within dirs root0 (f + v) w'.
Proof.
  intros dirs root0 f w v w' (Hs & Hf & Hd) (Hs' & Hv & Hd').
  split; [eapply fs_steps_trans; eassumption|]. split; lia.
Qed.

Lemma within_zero : forall dirs root0 f w, within dirs root0 f w -> within dirs root0 0 w.
Proof. intros dirs root0 f w (Hs & Hf & Hd). split; [exact Hs|]. split; lia. Qed.

Lemma within_dirs : forall root0 f w, within false root0 f w -> within true root0 f w.
Proof. intros root0 f w (Hs & H). split; [apply fs_steps_dirs; exact Hs|exact H]. Qed.

(** One [freed += wipe_dir_contents(p)] of a loop. *)
Lemma wp_wipe_add : forall root0 p f w,
  within true root0 f w ->
  wp (d <- wipe_dir_contents p ;; ret (f + d))
     (fun r w' => match r with
                  | Ok f' => within true root0 f' w'
                  | Raise => within true root0 0 w'
                  end) w.
Proof.
  intros root0 p f w HI. apply wp_bind.
  eapply wp_mono; [apply wp_wipe_dir_contents|].
  intros [v|] w' H; cbv beta iota.
  - apply wp_ret. eapply within_trans; eassumption.
  - eapply within_zero. eapply within_trans; eassumption.
Qed.

Lemma wp_wipe_rels : forall root0 base rels f w,
  within true root0 f w ->
  wp (for_M rels (fun rel freed => d <- wipe_dir_contents (base ++ rel) ;; ret (freed + d)) f)
     (fun r w' => match r with
                  | Ok f' => within true root0 f' w'
                  | Raise => within true root0 0 w'
                  end) w.
Proof.
  intros root0 base rels f w HI.
  apply (wp_for_M _ (fun f w1 => within true root0 f w1) (fun w1 => within true root0 0 w1));
    [|exact HI].
  intros rel f1 w1 H1. apply wp_wipe_add. exact H1.
Qed.

Lemma profile_candidates_fs : forall root w,
  fs (snd (profile_candidates root w)) = fs w.
Proof.
  intros root w.
  apply (wpT_try _ _ _ (fun _ w' => fs w' = fs w)).
  apply wp_bind. unfold os_scandir. apply wp_fs_query. intros w1 Hw1.
  split; [apply wpT_giving; exact Hw1|]. intros entries _.
  apply wp_bind, wp_get_fs, wp_ret. exact Hw1.
Qed.

Lemma wp_clean_chromium_user_data : forall root w,
  wp (clean_chromium_user_data root)
     (fun r w' => within true (fs w) (match r with Ok v => v | Raise => 0 end) w') w.
Proof.
  intros root w. unfold clean_chromium_user_data.
  assert (Hkeep : forall w', fs w' = fs w -> within true (fs w) 0 w')
    by (intros w' Hw'; eapply within_same_fs; [apply within_start|exact Hw']).
  apply wp_bind, wp_fs_query. intros w1 Hw1. split; [auto|]. intros ex _.
  destruct ex; cbn [negb]; [|apply wp_ret; auto].
  apply wp_bind, wp_lift. unfold wpT.
  pose proof (profile_candidates_fs root w1) as Hc.
  destruct (profile_candidates root w1) as [candidates w2]. cbn [fst snd] in *.
  eapply wp_mono.
  - apply (wp_for_M _ (fun f w3 => within true (fs w) f w3)
             (fun w3 => within true (fs w) 0 w3)).
    + intros base f w3 H3. apply wp_wipe_rels. exact H3.
    + apply Hkeep. congruence.
  - intros [v|] w' H; exact H.
Qed.

Lemma wp_clean_opera : forall L w,
  wp (clean_opera L)
     (fun r w' => within true (fs w) (match r with Ok v => v | Raise => 0 end) w') w.
Proof.
  intros L w. unfold clean_opera. cbv zeta.
  assert (Hkeep : forall w', fs w' = fs w -> within true (fs w) 0 w')
    by (intros w' Hw'; eapply within_same_fs; [apply within_start|exact Hw']).
  apply wp_bind, wp_fs_query. intros w1 Hw1. split; [auto|]. intros ex _.
  destruct ex; [|apply wp_ret; auto].
  eapply wp_mono; [apply (wp_wipe_rels (fs w)); apply Hkeep; exact Hw1|].
  intros [v|] w' H; exact H.
Qed.

(** A loop whose body is a sequence of [freed += ...] inside a [try]. *)
Lemma for_flow_invariant : forall E (Inv : Z -> world -> Prop)
    (body : E -> Z -> world -> flow * world) l f w,
  (forall e f1 w1, Inv f1 w1 ->
     match body e f1 w1 with
     | (Go f2, w2) => Inv f2 w2
     | (Stop f2, w2) => Inv f2 w2
     end) ->
  Inv f w -> Inv (fst (for_flow l body f w)) (snd (for_flow l body f w)).
Proof.
  intros E Inv body l. induction l as [|e l IH]; intros f w Hb HI; cbn [for_flow].
  - exact HI.
  - specialize (Hb e f w HI) as Hstep.
    destruct (body e f w) as [[f2|f2] w2]; [apply IH; assumption|exact Hstep].
Qed.

Lemma plus_wipe_within : forall root0 p f w,
  within true root0 f w ->
  match plus (wipe_dir_contents p) f w with
  | (Go f2, w2) => within true root0 f2 w2
  | (Stop f2, w2) => within true root0 f2 w2
  end.
Proof.
  intros root0 p f w HI. unfold plus.
  pose proof (wp_wipe_dir_contents p w) as H. unfold wp in H.
  destruct (wipe_dir_contents p w) as [[v|] w2]; cbn [fst snd] in H.
  - eapply within_trans; eassumption.
  - replace f with (f + 0) by lia. eapply within_trans; eassumption.
Qed.

Lemma firefox_profile_within : forall root0 e f w,
  within true root0 f w ->
  match firefox_profile e f w with
  | (Go f2, w2) => within true root0 f2 w2
  | (Stop f2, w2) => within true root0 f2 w2
  end.
Proof.
  intros root0 e f w HI. unfold firefox_profile.
  destruct (entry_is_dir (fs w) e); [|exact HI].
  pose proof (plus_wipe_within root0 (de_path e ++ ["cache2"]) f w HI) as H1.
  destruct (plus (wipe_dir_contents (de_path e ++ ["cache2"])) f w) as [[f1|f1] w1];
    [|exact H1].
  apply plus_wipe_within. exact H1.
Qed.

Lemma wp_clean_firefox : forall L A w,
  wp (clean_firefox L A)
     (fun r w' => within true (fs w) (match r with Ok v => v | Raise => 0 end) w') w.
Proof.
  intros L A w. unfold clean_firefox.
  eapply wp_mono.
  - apply (wp_for_M _ (fun f w1 => within true (fs w) f w1)
             (fun w1 => within true (fs w) 0 w1)); [|apply within_start].
    intros base f w1 H1.
    assert (Hkeep : forall w', fs w' = fs w1 -> within true (fs w) f w')
      by (intros w' Hw'; eapply within_same_fs; eassumption).
    apply wp_bind, wp_fs_query. intros w2 Hw2.
    split; [eapply within_zero; auto|]. intros ex _.
    destruct ex; cbn [negb]; [|apply wp_ret; auto].
    apply wp_lift. unfold wpT.
    pose proof (os_scandir_fs base w2) as Hs.
    destruct (os_scandir base w2) as [[entries|] w3]; cbn [fst snd] in *.
    + apply (for_flow_invariant _ (fun f w4 => within true (fs w) f w4)).
      * intros e f1 w4 H4. apply firefox_profile_within. exact H4.
      * apply Hkeep. congruence.
    + apply Hkeep. congruence.
  - intros [v|] w' H; exact H.
Qed.

Lemma empty_recycle_bin_bound : forall w,
  0 <= fst (empty_recycle_bin w) <= Z.max 0 (bin_bytes w) /\
  fs (snd (empty_recycle_bin w)) = fs w.
Proof.
  intros [root fl bytes hr].
  unfold empty_recycle_bin, bindT, try_except, giving, pass, SHQueryRecycleBinW,
    SHEmptyRecycleBinW, syscall, bind, fault, raise, ret.
  destruct fl as [|[|] [|[|] fl]]; cbn;
    destruct (hr <? 0) eqn:Hneg; cbn;
    destruct (hr =? 0) eqn:Hz; cbn;
    repeat split; try lia; try reflexivity.
Qed.

(** What the worker gets from a task that hands back an integer. *)
Lemma invoke_returning_int : forall (m : M Z) w,
  invoke (returning_int m) w =
  (match fst (m w) with Ok v => v | Raise => 0 end, snd (m w)).
Proof.
  intros m w. unfold invoke, returning_int, try_except, bind, ret, giving.
  destruct (m w) as [[v|] w1]; cbn [fst snd]; [|reflexivity].
  unfold py_or, truthy. destruct (v =? 0) eqn:Hv; cbn [negb py_int]; unfold ret.
  - apply Z.eqb_eq in Hv. subst. reflexivity.
  - reflexivity.
Qed.

Lemma file_task_returning_int : forall (m : M Z),
  (forall w, wp m (fun r w' => within true (fs w)
                                 (match r with Ok v => v | Raise => 0 end) w') w) ->
  file_task (returning_int m).
Proof.
  intros m H w. rewrite invoke_returning_int. cbn [fst snd]. apply H.
Qed.

Lemma browser_tasks_file_tasks : forall L A name t,
  In (name, t) (map snd (BROWSER_TASKS L A)) -> file_task t.
Proof.
  intros L A name t Hin. cbn in Hin.
  repeat (destruct Hin as [Heq|Hin];
          [injection Heq as <- <-; apply file_task_returning_int; intros w;
           first [apply wp_clean_chromium_user_data|apply wp_clean_opera|apply wp_clean_firefox]|]).
  contradiction.
Qed.

Lemma base_file_tasks : forall fnmatch TEMP L A name t,
  In (name, t) (tl (BASE_TASKS fnmatch TEMP L A)) -> file_task t.
Proof.
  intros fnmatch TEMP L A name t Hin. cbn in Hin.
  destruct Hin as [Heq|[Heq|[Heq|[]]]]; injection Heq as <- <-;
    apply file_task_returning_int; intros w.
  - apply wp_wipe_dir_contents.
  - apply wp_wipe_dir_contents.
  - unfold clean_thumbnails. eapply wp_mono; [apply wp_delete_globs|].
    intros r w' H. apply within_dirs. exact H.
Qed.

Lemma recycle_task_bound : forall w,
  let out := invoke (returning_int (lift empty_recycle_bin)) w in
  0 <= fst out <= Z.max 0 (bin_bytes w) /\ fs (snd out) = fs w.
Proof.
  intros w. cbv zeta. rewrite invoke_returning_int. unfold lift.
  pose proof (empty_recycle_bin_bound w) as H.
  destruct (empty_recycle_bin w) as [r w1]. exact H.
Qed.

Lemma covered_file_task : forall root0 slack tot t w,
  file_task t -> covered root0 slack tot w ->
  covered root0 slack (tot + Z.max 0 (fst (invoke t w))) (snd (invoke t w)).
Proof.
  intros root0 slack tot t w Ht (Hs & Hpos & Hdu).
  destruct (Ht w) as (Hs' & Hv & Hd').
  split; [eapply fs_steps_trans; eassumption|]. split; lia.
Qed.

Lemma run_from_covered : forall tasks root0 slack i steps tot w,
  Forall (fun nt => file_task (snd nt)) tasks ->
  covered root0 slack tot w ->
  covered root0 slack (snd (fst (run_from tasks i steps tot w)))
          (snd (run_from tasks i steps tot w)).
Proof.
  induction tasks as [|[name func] rest IH]; intros root0 slack i steps tot w Hall HI.
  - exact HI.
  - inversion Hall as [|? ? Hf Hrest]; subst. cbn [snd] in Hf.
    pose proof (covered_file_task root0 slack tot func w Hf HI) as H1.
    cbn [run_from]. unfold bindT, giving.
    destruct (invoke func w) as [freed w1]. cbn [fst snd] in H1.
    specialize (IH root0 slack (i + 1) steps (tot + Z.max 0 freed) w1 Hrest H1).
    destruct (run_from rest (i + 1) steps (tot + Z.max 0 freed) w1) as [[evs t] w2].
    exact IH.
Qed.

Lemma lookup_task_catalog : forall L A name t,
  lookup_task L A name = Some t -> In t (map snd (BROWSER_TASKS L A)).
Proof.
  intros L A name t H. unfold lookup_task in H.
  destruct (find _ (BROWSER_TASKS L A)) as [b|] eqn:Hf; [|discriminate].
  injection H as <-. apply find_some in Hf. destruct Hf as [Hin _].
  apply in_map. exact Hin.
Qed.

Lemma build_task_list_shape : forall fnmatch TEMP L A q,
  exists rest,
    build_task_list fnmatch TEMP L A q =
      ("Recycle Bin", returning_int (lift empty_recycle_bin)) :: rest /\
    Forall (fun nt => file_task (snd nt)) rest.
Proof.
  intros fnmatch TEMP L A q. unfold build_task_list.
  exists (tl (BASE_TASKS fnmatch TEMP L A) ++
          flat_map (fun c => if cb_checked (snd c)
                             then match lookup_task L A (fst c) with
                                  | Some t => [t]
                                  | None => []
                                  end
                             else [])
                   (browser_checks q)).
  split; [reflexivity|]. apply Forall_app. split.
  - apply Forall_forall. intros [name t] Hin.
    eapply (base_file_tasks fnmatch TEMP L A). exact Hin.
  - apply Forall_forall. intros [name t] Hin. apply in_flat_map in Hin.
    destruct Hin as (c & _ & Hin). destruct (cb_checked (snd c)); [|contradiction].
    destruct (lookup_task L A (fst c)) as [t'|] eqn:Hl; [|contradiction].
    destruct Hin as [Heq|[]]. subst t'. cbn [snd].
    eapply (browser_tasks_file_tasks L A name). eapply lookup_task_catalog. exact Hl.
Qed.

Lemma run_from_no_done : forall tasks i steps tot w,
  done_values (fst (fst (run_from tasks i steps tot w))) = [].
Proof.
  intros tasks i steps tot w.
  destruct (run_from_emitted tasks i steps tot w) as (totals & _ & Hev & _).
  rewrite Hev. apply emitted_done.
Qed.

(** Every file task of the catalog (all but the recycle bin), invoked as
    the worker invokes it, whichever calls fail: what it counts is not
    negative and no more than the sizes of the regular files it removed,
    and no symbolic link to a file is removed. *)
Theorem catalog_tasks_never_overcount : forall fnmatch TEMP L A name t w,
  In (name, t) (tl (BASE_TASKS fnmatch TEMP L A) ++ map snd (BROWSER_TASKS L A)) ->
  0 <= fst (invoke t w) /\
  fst (invoke t w) + du (fs (snd (invoke t w))) <= du (fs w) /\
  (forall q tg, node_at (fs w) q = Some (Link false tg) ->
                node_at (fs (snd (invoke t w))) q = Some (Link false tg)).
Proof.
  intros fnmatch TEMP L A name t w Hin.
  assert (Ht : file_task t).
  { apply in_app_or in Hin. destruct Hin as [Hin|Hin].
    - eapply base_file_tasks; exact Hin.
    - eapply browser_tasks_file_tasks; exact Hin. }
  destruct (Ht w) as (Hs & Hpos & Hdu). split; [exact Hpos|]. split; [exact Hdu|].
  intros q tg Hl. eapply fs_steps_link; [exact Hs|reflexivity|exact Hl].
Qed.

Lemma catalog_tasks_never_overcount_witness :
  0 <= fst (invoke (returning_int (clean_user_temp ["d"])) sample_world) /\
  fst (invoke (returning_int (clean_user_temp ["d"])) sample_world) +
    du (fs (snd (invoke (returning_int (clean_user_temp ["d"])) sample_world)))
    <= du (fs sample_world) /\
  (forall q tg, node_at (fs sample_world) q = Some (Link false tg) ->
                node_at (fs (snd (invoke (returning_int (clean_user_temp ["d"]))
                                    sample_world))) q = Some (Link false tg)).
Proof.
  apply (catalog_tasks_never_overcount glob_match ["d"] [] [] "User Temp").
  left. reflexivity.
Defined.

(** A whole run over the tasks the window builds, whichever boxes are
    ticked and whichever calls fail: the [done] signal carries the total of
    the run as a C [int].  That total is not negative and no more than the
    sizes of the regular files removed plus the size of the recycle bin at
    the start; so where the files of the disk and the bin together hold
    less than 2^31 bytes, the value delivered is the total itself.  No link
    to a file is removed. *)
Theorem run_total_is_covered : forall fnmatch TEMP L A q w,
  exists total,
    done_values (fst (CleanerThread_run (build_task_list fnmatch TEMP L A q) w)) =
      [c_int total] /\
    0 <= total /\
    total + du (fs (snd (CleanerThread_run (build_task_list fnmatch TEMP L A q) w)))
      <= du (fs w) + Z.max 0 (bin_bytes w) /\
    (du (fs w) + Z.max 0 (bin_bytes w) < 2147483648 -> c_int total = total) /\
    (forall p tg, node_at (fs w) p = Some (Link false tg) ->
       node_at (fs (snd (CleanerThread_run (build_task_list fnmatch TEMP L A q) w))) p =
       Some (Link false tg)).
Proof.
  intros fnmatch TEMP L A q w.
  destruct (build_task_list_shape fnmatch TEMP L A q) as (rest & -> & Hrest).
  unfold CleanerThread_run. cbn [run_from]. unfold bindT, giving.
  destruct (recycle_task_bound w) as [Hr Hfs].
  destruct (invoke (returning_int (lift empty_recycle_bin)) w) as [r w1]. cbn [fst snd] in *.
  set (n := Z.of_nat (List.length _)).
  assert (H1 : covered (fs w) (Z.max 0 (bin_bytes w)) (0 + Z.max 0 r) w1).
  { split; [rewrite Hfs; apply steps_refl|]. split; [lia|]. rewrite Hfs. lia. }
  pose proof (run_from_covered rest _ _ (1 + 1) n _ w1 Hrest H1) as Hc.
  pose proof (run_from_no_done rest (1 + 1) n (0 + Z.max 0 r) w1) as Hd.
  destruct (run_from rest (1 + 1) n (0 + Z.max 0 r) w1) as [[evs t] w2].
  cbn [fst snd] in *.
  destruct Hc as (Hs & Hpos & Hdu). exists t. split.
  - rewrite done_values_app. cbn [app]. unfold done_values at 1. cbn [flat_map app].
    fold (done_values evs). rewrite Hd. reflexivity.
  - split; [exact Hpos|]. split; [exact Hdu|]. split.
    + intros Hsmall. apply c_int_small. pose proof (du_nonneg (fs w2)). lia.
    + intros p tg Hl. eapply fs_steps_link; [exact Hs|reflexivity|exact Hl].
Qed.

(** ** Pattern deletion when no call fails *)

Lemma safe_remove_file_link_quiet : forall p dl t w,
  quiet w -> stat_node false (fs w) p = Some (Link dl t) ->
  safe_remove_file p w = (0, w).
Proof.
  intros p dl t [root fl bb bq] Hq Hl. unfold quiet in Hq. cbn [faults fs] in *. subst fl.
  rewrite safe_remove_file_eval. cbv zeta. cbn [nth skipn].
  unfold is_symlink_at. rewrite Hl. cbn [is_link].
  destruct (negb (exists_at root p)); reflexivity.
Qed.

Lemma for_try_cons_eval : forall E (body : E -> Z -> M Z) e r f w,
  for_try (e :: r) body f w =
  match body e f w with
  | (Ok f', w') => for_try r body f' w'
  | (Raise, w') => (f, w')
  end.
Proof. reflexivity. Qed.

(** One turn of the loop of [delete_globs]. *)
Lemma delete_globs_turn : forall (fnmatch : string -> string -> bool) (patterns : list string)
    (e : DirEntry) (freed : Z) (w : world),
  (f <- DirEntry_is_file e ;;
   if (f : bool)
   then if existsb (fnmatch (de_name e)) patterns
        then d <- lift (safe_remove_file (de_path e)) ;; ret (freed + d)
        else ret freed
   else ret freed) w =
  if entry_is_file (fs w) e && existsb (fnmatch (de_name e)) patterns
  then (Ok (freed + fst (safe_remove_file (de_path e) w)), snd (safe_remove_file (de_path e) w))
  else (Ok freed, w).
Proof.
  intros fnmatch patterns e freed w. unfold DirEntry_is_file, bind, get_fs, ret, lift.
  destruct (entry_is_file (fs w) e); [|reflexivity].
  destruct (existsb (fnmatch (de_name e)) patterns); [|reflexivity].
  cbn [andb]. destruct (safe_remove_file (de_path e) w). reflexivity.
Qed.

Lemma delete_globs_loop : forall fnmatch patterns d todo done w freed,
  quiet w -> node_at (fs w) d = Some (Dir (done ++ todo)) ->
  NoDup (map fst (done ++ todo)) ->
  for_try (map (entry_of d) todo)
    (fun entry freed =>
       f <- DirEntry_is_file entry ;;
       if (f : bool)
       then if existsb (fnmatch (de_name entry)) patterns
            then d <- lift (safe_remove_file (de_path entry)) ;; ret (freed + d)
            else ret freed
       else ret freed) freed w =
  (freed + du (Dir (filter (matched fnmatch patterns) todo)),
   with_fs (set_at (fs w) d
              (Dir (done ++ filter (fun e => negb (matched fnmatch patterns e)) todo))) w).
Proof.
  intros fnmatch patterns d todo.
  match goal with |- context [for_try _ ?b _ _] => set (body := b) end.
  induction todo as [|[x n] todo IH]; intros done w freed Hq Hp Hn.
  - cbn [map for_try filter]. rewrite app_nil_r in *.
    rewrite (set_at_same _ _ _ Hp), with_fs_same. cbn [du].
    replace (freed + 0) with freed by lia. reflexivity.
  - assert (Hfresh : existsb (named x) done = false) by (eapply NoDup_middle_fresh; exact Hn).
    assert (Hx : node_at (fs w) (d ++ [x]) = Some n)
      by (rewrite (node_at_entry _ _ _ _ Hp); apply assoc_middle; exact Hfresh).
    assert (Hkeep : matched fnmatch patterns (x, n) = false ->
              for_try (map (entry_of d) todo) body freed w =
              (freed + du (Dir (filter (matched fnmatch patterns) ((x, n) :: todo))),
               with_fs (set_at (fs w) d
                          (Dir (done ++ filter (fun e => negb (matched fnmatch patterns e))
                                          ((x, n) :: todo)))) w)).
    { intros Hm. cbn [filter]. rewrite Hm. cbn [negb].
      assert (Hp' : node_at (fs w) d = Some (Dir ((done ++ [(x, n)]) ++ todo)))
        by (rewrite <- app_assoc; exact Hp).
      assert (Hn' : NoDup (map fst ((done ++ [(x, n)]) ++ todo)))
        by (rewrite <- app_assoc; exact Hn).
      rewrite (IH _ _ freed Hq Hp' Hn'). rewrite <- app_assoc. reflexivity. }
    cbn [map]. rewrite for_try_cons_eval.
    assert (Hturn : body (entry_of d (x, n)) freed w =
              if entry_is_file (fs w) (entry_of d (x, n)) && existsb (fnmatch x) patterns
              then (Ok (freed + fst (safe_remove_file (d ++ [x]) w)),
                    snd (safe_remove_file (d ++ [x]) w))
              else (Ok freed, w))
      by (unfold body; apply delete_globs_turn).
    rewrite Hturn. unfold entry_is_file, entry_of. cbn [de_kind de_path kind_of fst snd].
    destruct n as [s ro|es'|dl tg]; cbn [kind_of andb].
    + destruct (existsb (fnmatch x) patterns) eqn:Hpat.
      * rewrite (safe_remove_file_quiet _ _ _ _ Hq Hx (snoc_not_nil _ _)). cbn [fst snd].
        rewrite (remove_at_app _ _ _ _ Hp) by discriminate.
        rewrite remove_at_entry, remove_entry_middle by exact Hfresh.
        set (w1 := with_fs _ w).
        assert (Hp1 : node_at (fs w1) d = Some (Dir (done ++ todo)))
          by (unfold w1; destruct w as [root fl bb bq]; cbn [fs with_fs] in *;
              eapply node_at_set_at_same; exact Hp).
        rewrite (IH _ w1 _ (quiet_with_fs _ _ Hq) Hp1 (NoDup_middle_remove _ _ _ Hn)).
        cbn [filter].
        change (matched fnmatch patterns (x, File s ro)) with (existsb (fnmatch x) patterns).
        rewrite Hpat. cbn [negb]. rewrite (du_cons (x, File s ro)). cbn [snd du].
        unfold w1. destruct w as [root fl bb bq]. cbn [fs with_fs].
        rewrite set_at_set_at. f_equal. lia.
      * apply Hkeep. unfold matched. cbn [fst snd is_file_node andb]. exact Hpat.
    + apply Hkeep. reflexivity.
    + assert (Hlink : safe_remove_file (d ++ [x]) w = (0, w))
        by (apply (safe_remove_file_link_quiet _ dl tg _ Hq);
            apply stat_node_physical; [exact Hx|discriminate]).
      rewrite Hlink. cbn [fst snd]. replace (freed + 0) with freed by lia.
      destruct (is_file_at (fs w) (d ++ [x]) && existsb (fnmatch x) patterns);
        apply Hkeep; reflexivity.
Qed.

Lemma delete_globs_quiet : forall fnmatch patterns d es w,
  quiet w -> node_at (fs w) d = Some (Dir es) -> unique_names (Dir es) = true ->
  delete_globs fnmatch d patterns w =
  (Ok (du (Dir (filter (matched fnmatch patterns) es))),
   with_fs (set_at (fs w) d
              (Dir (filter (fun e => negb (matched fnmatch patterns e)) es))) w).
Proof.
  intros fnmatch patterns d es w Hq Hp Hu. unfold delete_globs.
  rewrite bind_eval. unfold Path_exists. rewrite fs_query_quiet by exact Hq.
  rewrite (exists_at_physical _ _ _ Hp eq_refl). cbn [negb].
  rewrite bind_eval. unfold Path_is_dir. rewrite fs_query_quiet by exact Hq.
  rewrite (is_dir_at_physical _ _ _ Hp eq_refl). cbn [is_dir_node negb].
  rewrite lift_eval. unfold scan_try. rewrite (os_scandir_quiet _ _ _ Hq Hp).
  rewrite (delete_globs_loop fnmatch patterns d es [] w 0 Hq Hp (unique_names_NoDup _ Hu)).
  reflexivity.
Qed.

(** When no call fails, [delete_globs] removes from a folder exactly the
    regular files whose name matches one of the patterns, read-only ones
    included, and returns the sum of their sizes; every other entry (files
    that match no pattern, subfolders, links whatever their name) stays as
    it is, in its place. *)
Theorem delete_globs_removes_matching_files : forall fnmatch patterns d es w,
  quiet w -> node_at (fs w) d = Some (Dir es) -> unique_names (Dir es) = true ->
  delete_globs fnmatch d patterns w =
  (Ok (du (Dir (filter (matched fnmatch patterns) es))),
   with_fs (set_at (fs w) d
              (Dir (filter (fun e => negb (matched fnmatch patterns e)) es))) w).
Proof.
  intros fnmatch patterns d es w Hq Hp Hu. apply delete_globs_quiet; assumption.
Qed.

Lemma delete_globs_removes_matching_files_witness :
  delete_globs glob_match ["Explorer"] ["thumbcache*.db"; "iconcache*.db"] sample_explorer =
  (Ok 350,
   with_fs (Dir [ ("Explorer", Dir [ ("thumbcache_lnk.db", Link false ["keep"; "big.db"]);
                                     ("notes.txt", File 4 false);
                                     ("thumbcacheX.dat", File 9 false) ]);
                  ("keep", Dir [ ("big.db", File 1000 false) ]) ]) sample_explorer).
Proof.
  exact (delete_globs_removes_matching_files glob_match ["thumbcache*.db"; "iconcache*.db"]
           ["Explorer"] _ sample_explorer eq_refl eq_refl eq_refl).
Defined.

(** ** Browser detection *)

Lemma listdir_exists : forall root p entries,
  listdir root p = Some entries -> exists_at root p = true.
Proof.
  unfold listdir, exists_at. intros root p entries H.
  destruct (stat_node true root p); [reflexivity|discriminate].
Qed.

Lemma path_has_content_quiet : forall p w,
  quiet w -> path_has_content p w = (has_content (fs w) p, w).
Proof.
  intros p w Hq. unfold path_has_content, has_content.
  rewrite try_except_eval, bind_eval. unfold Path_exists.
  rewrite fs_query_quiet by exact Hq.
  destruct (exists_at (fs w) p) eqn:Hex; cbn [negb].
  - rewrite bind_eval. unfold os_scandir. rewrite fs_query_quiet by exact Hq.
    destruct (listdir (fs w) p) as [[|e es]|]; reflexivity.
  - destruct (listdir (fs w) p) as [entries|] eqn:Hl; [|reflexivity].
    apply listdir_exists in Hl. congruence.
Qed.

(** [path_has_content] looks and does not touch: whichever calls fail the
    file system is as it was, an answer [True] is never wrong (the path does
    list a directory with an entry in it), and when no call fails the answer
    is [True] for every such path. *)
Theorem path_has_content_sound : forall p w,
  fs (snd (path_has_content p w)) = fs w /\
  (fst (path_has_content p w) = true -> has_content (fs w) p = true) /\
  (quiet w -> fst (path_has_content p w) = has_content (fs w) p).
Proof.
  intros p w. split; [|split].
  - apply (wpT_try _ _ _ (fun _ w' => fs w' = fs w)).
    apply wp_bind, wp_fs_query. intros w1 Hw1. split; [apply wpT_giving; exact Hw1|].
    intros ex _. destruct ex; cbn [negb]; [|apply wp_ret; exact Hw1].
    apply wp_bind. unfold os_scandir. apply wp_fs_query. intros w2 Hw2.
    rewrite Hw1 in Hw2. split; [apply wpT_giving; exact Hw2|].
    intros entries _. apply wp_ret. exact Hw2.
  - apply (wpT_try _ _ _ (fun b _ => b = true -> has_content (fs w) p = true)).
    apply wp_bind, wp_fs_query. intros w1 Hw1. split; [apply wpT_giving; discriminate|].
    intros ex _. destruct ex; cbn [negb]; [|apply wp_ret; discriminate].
    apply wp_bind. unfold os_scandir. apply wp_fs_query. intros w2 Hw2.
    split; [apply wpT_giving; discriminate|].
    intros entries Hl. rewrite Hw1 in Hl. apply wp_ret. unfold has_content. rewrite Hl.
    destruct entries; [discriminate|reflexivity].
  - intros Hq. rewrite (path_has_content_quiet _ _ Hq). reflexivity.
Qed.

Lemma no_content_below : forall root p rel,
  has_content root p = false -> rel <> [] -> is_dir_at root (p ++ rel) = false.
Proof.
  intros root p [|x rest] Hc Hne; [congruence|].
  destruct (is_dir_at root (p ++ x :: rest)) eqn:Hd; [|reflexivity]. exfalso.
  destruct (is_dir_below _ _ _ _ Hd) as (entries & e & Hl & Hin & _).
  unfold has_content in Hc. rewrite Hl in Hc. destruct entries; [contradiction|discriminate].
Qed.

Lemma no_content_no_subdirs : forall root p,
  has_content root p = false -> subdirs root p = [].
Proof.
  unfold has_content, subdirs. intros root p H.
  destruct (listdir root p) as [[|e es]|]; [reflexivity|discriminate|reflexivity].
Qed.

Lemma cache_rels_not_nil : forall rel, In rel CACHE_RELS -> rel <> [].
Proof.
  intros rel Hrel. unfold CACHE_RELS in Hrel. cbn in Hrel.
  repeat (destruct Hrel as [<-|Hrel]; [discriminate|]). contradiction.
Qed.

Lemma wipe_rels_nothing : forall (base : path) (rels : list path) freed w,
  quiet w -> (forall rel, In rel rels -> is_dir_at (fs w) (base ++ rel) = false) ->
  for_M rels (fun (rel : path) freed => d <- wipe_dir_contents (base ++ rel) ;; ret (freed + d))
        freed w =
  (Ok freed, w).
Proof.
  intros base rels freed w Hq H.
  etransitivity;
    [symmetry; apply (for_M_map path path (fun rel => base ++ rel)
                        (fun t freed => d <- wipe_dir_contents t ;; ret (freed + d)))|].
  apply wipe_each_nothing; [exact Hq|].
  apply Forall_forall. intros t Hin. apply in_map_iff in Hin. destruct Hin as (rel & <- & Hrel).
  apply H. exact Hrel.
Qed.

Lemma clean_chromium_no_content : forall root w,
  quiet w -> has_content (fs w) root = false ->
  clean_chromium_user_data root w = (Ok 0, w).
Proof.
  intros root w Hq Hc. unfold clean_chromium_user_data, bind at 1, Path_exists.
  rewrite fs_query_quiet by exact Hq.
  destruct (exists_at (fs w) root); cbn [negb]; [|reflexivity].
  unfold bind at 1, lift. rewrite (profile_candidates_quiet _ _ Hq).
  rewrite (no_content_no_subdirs _ _ Hc).
  cbn [for_M]. rewrite bind_eval.
  rewrite (wipe_rels_nothing root CACHE_RELS 0 w Hq); [reflexivity|].
  intros rel Hrel. apply no_content_below; [exact Hc|apply cache_rels_not_nil; exact Hrel].
Qed.

Lemma clean_opera_no_content : forall L w,
  quiet w -> has_content (fs w) (L ++ ["Opera Software"; "Opera Stable"]) = false ->
  clean_opera L w = (Ok 0, w).
Proof.
  intros L w Hq Hc. unfold clean_opera. cbv zeta. unfold bind at 1, Path_exists.
  rewrite fs_query_quiet by exact Hq.
  destruct (exists_at (fs w) _); [|reflexivity].
  apply wipe_rels_nothing; [exact Hq|].
  intros rel Hrel. apply no_content_below; [exact Hc|apply cache_rels_not_nil; exact Hrel].
Qed.

Lemma firefox_base_no_content : forall base freed w,
  quiet w -> has_content (fs w) base = false ->
  (ex <- Path_exists base ;;
   if negb ex then ret freed else
   lift (fun w => match os_scandir base w with
                  | (Ok entries, w') => for_flow entries firefox_profile freed w'
                  | (Raise, w') => (freed, w')
                  end)) w = (Ok freed, w).
Proof.
  intros base freed w Hq Hc. rewrite bind_eval. unfold Path_exists.
  rewrite fs_query_quiet by exact Hq.
  destruct (exists_at (fs w) base); cbn [negb]; [|reflexivity].
  rewrite lift_eval. unfold os_scandir. rewrite fs_query_quiet by exact Hq.
  unfold has_content in Hc.
  destruct (listdir (fs w) base) as [[|e es]|]; [reflexivity|discriminate|reflexivity].
Qed.

Lemma clean_firefox_no_content : forall L A w,
  quiet w ->
  has_content (fs w) (L ++ ["Mozilla"; "Firefox"; "Profiles"]) = false ->
  has_content (fs w) (A ++ ["Mozilla"; "Firefox"; "Profiles"]) = false ->
  clean_firefox L A w = (Ok 0, w).
Proof.
  intros L A w Hq HL HA. unfold clean_firefox. cbn [for_M].
  rewrite bind_eval, (firefox_base_no_content _ _ _ Hq HL).
  rewrite bind_eval, (firefox_base_no_content _ _ _ Hq HA). reflexivity.
Qed.

Lemma browser_presence_quiet : forall L A w,
  quiet w ->
  browser_presence L A w =
  ([ ("Google Chrome", has_content (fs w) (L ++ ["Google"; "Chrome"; "User Data"]));
     ("Microsoft Edge", has_content (fs w) (L ++ ["Microsoft"; "Edge"; "User Data"]));
     ("Brave", has_content (fs w) (L ++ ["BraveSoftware"; "Brave-Browser"; "User Data"]));
     ("Vivaldi", has_content (fs w) (L ++ ["Vivaldi"; "User Data"]));
     ("Opera", has_content (fs w) (L ++ ["Opera Software"; "Opera Stable"]));
     ("Firefox", has_content (fs w) (A ++ ["Mozilla"; "Firefox"; "Profiles"]) ||
                 has_content (fs w) (L ++ ["Mozilla"; "Firefox"; "Profiles"])) ], w).
Proof.
  intros L A w Hq. unfold browser_presence.
  repeat (rewrite bindT_eval, (path_has_content_quiet _ _ Hq)).
  destruct (has_content (fs w) (A ++ ["Mozilla"; "Firefox"; "Profiles"])).
  - rewrite bindT_eval, !giving_eval. reflexivity.
  - rewrite bindT_eval, (path_has_content_quiet _ _ Hq), giving_eval. reflexivity.
Qed.

(** The tool tip tells the truth: when no call fails, the task of a browser
    that [browser_presence] reports as absent frees nothing and changes
    nothing. *)
Theorem absent_browser_task_is_noop : forall L A w name label t,
  quiet w ->
  In (name, (label, t)) (BROWSER_TASKS L A) ->
  In (name, false) (fst (browser_presence L A w)) ->
  t w = (Ok (PyInt 0), w).
Proof.
  intros L A w name label t Hq Hin Hp.
  rewrite (browser_presence_quiet _ _ _ Hq) in Hp. cbn [fst] in Hp.
  assert (Hint : forall (m : M Z), m w = (Ok 0, w) -> returning_int m w = (Ok (PyInt 0), w))
    by (intros m Hm; unfold returning_int, bind; rewrite Hm; reflexivity).
  unfold BROWSER_TASKS in Hin. cbn [In] in Hin.
  destruct Hin as [Heq|[Heq|[Heq|[Heq|[Heq|[Heq|[]]]]]]];
    injection Heq as <- <- <-; cbn [In] in Hp;
    repeat (destruct Hp as [Hp|Hp]; [injection Hp as Hp; try discriminate|]);
    try contradiction; apply Hint.
  - apply clean_chromium_no_content; assumption.
  - apply clean_chromium_no_content; assumption.
  - apply clean_chromium_no_content; assumption.
  - apply clean_chromium_no_content; assumption.
  - apply clean_opera_no_content; assumption.
  - apply orb_false_elim in Hp. destruct Hp as [HA HL].
    apply clean_firefox_no_content; assumption.
Qed.

Lemma absent_browser_task_is_noop_witness :
  returning_int (clean_firefox ["d"] ["out"]) sample_world = (Ok (PyInt 0), sample_world).
Proof.
  apply (absent_browser_task_is_noop ["d"] ["out"] sample_world "Firefox" "Firefox Cache").
  - reflexivity.
  - do 5 right. left. reflexivity.
  - do 5 right. left. reflexivity.
Defined.

(** ** The task list and the range of the progress bar *)

Section TaskCount.

Variable fnmatch : string -> string -> bool.
Variables TEMP LOCALAPPDATA APPDATA : path.

Lemma names_set_busy : forall b q,
  map fst (browser_checks (set_busy b q)) = map fst (browser_checks q).
Proof. intros b q. cbn [set_busy browser_checks]. rewrite map_map. reflexivity. Qed.

Lemma names_update_progress_max : forall q,
  map fst (browser_checks (update_progress_max fnmatch TEMP LOCALAPPDATA APPDATA q)) =
  map fst (browser_checks q).
Proof. reflexivity. Qed.

Lemma names_refresh : forall q w,
  map fst (browser_checks
             (fst (refresh_browser_presence fnmatch TEMP LOCALAPPDATA APPDATA q w))) =
  map fst (browser_checks q).
Proof.
  intros q w. unfold refresh_browser_presence, bindT, giving.
  destruct (browser_presence LOCALAPPDATA APPDATA w) as [present w'].
  cbn [fst update_progress_max browser_checks]. rewrite map_map. reflexivity.
Qed.

Lemma names_deliver : forall e q w,
  map fst (browser_checks (fst (deliver fnmatch TEMP LOCALAPPDATA APPDATA e q w))) =
  map fst (browser_checks q).
Proof.
  intros [name step total|bytes|bytes] q w; try reflexivity.
  cbn [deliver]. unfold bindT, giving.
  pose proof (names_refresh
                (set_busy false
                   (mkWindow (clean_btn q) (close_btn q) Finished bytes (progress_max q)
                      (progress_max q) (browser_checks q) (cleaner q))) w) as H.
  destruct (refresh_browser_presence _ _ _ _ _ w) as [q' w']. cbn [fst] in *.
  rewrite names_update_progress_max, H, names_set_busy. reflexivity.
Qed.

Lemma names_toggle : forall name q,
  map fst (browser_checks (toggle name q)) = map fst (browser_checks q).
Proof.
  intros name q. cbn [toggle browser_checks]. rewrite map_map. apply map_ext.
  intros c. destruct (String.eqb (fst c) name && cb_enabled (snd c)); reflexivity.
Qed.

Lemma names_act : forall x a,
  map fst (browser_checks (win (act fnmatch TEMP LOCALAPPDATA APPDATA x a))) =
  map fst (browser_checks (win a)).
Proof.
  intros [|t|t| |name] a; cbn [act].
  - unfold start_clean. destruct (cleaner_running a); [reflexivity|].
    cbn [win browser_checks]. rewrite names_set_busy. reflexivity.
  - unfold worker_task.
    destruct (nth_error (workers a) t) as [[[|[name func] rest] i steps total [|]]|];
      try reflexivity.
    destruct (invoke func (os a)). reflexivity.
  - unfold worker_exit.
    destruct (nth_error (workers a) t) as [[[|[name func] rest] i steps total [|]]|];
      reflexivity.
  - destruct (inbox a) as [|e r]; [reflexivity|].
    pose proof (names_deliver e (win a) (os a)) as H.
    destruct (deliver _ _ _ _ e (win a) (os a)) as [q w']. exact H.
  - apply names_toggle.
Qed.

Lemma names_reachable : forall xs a,
  map fst (browser_checks (win (run_actions fnmatch TEMP LOCALAPPDATA APPDATA xs a))) =
  map fst (browser_checks (win a)).
Proof.
  induction xs as [|x xs IH]; intros a; [reflexivity|].
  cbn [run_actions fold_left]. etransitivity; [apply IH|apply names_act].
Qed.

Lemma names_launch : forall w,
  map fst (browser_checks (win (launch fnmatch TEMP LOCALAPPDATA APPDATA w))) =
  ["Google Chrome"; "Microsoft Edge"; "Brave"; "Vivaldi"; "Opera"; "Firefox"].
Proof.
  intros w. unfold launch.
  match goal with |- context [refresh_browser_presence _ _ _ _ ?q w] =>
    pose proof (names_refresh q w) as H
  end.
  destruct (refresh_browser_presence _ _ _ _ _ w) as [q' w']. cbn [fst win] in *.
  rewrite H. reflexivity.
Qed.

Lemma browser_tasks_length : forall (l : list (string * checkbox)),
  (forall c, In c l -> exists t, lookup_task LOCALAPPDATA APPDATA (fst c) = Some t) ->
  List.length (flat_map (fun c => if cb_checked (snd c)
                                  then match lookup_task LOCALAPPDATA APPDATA (fst c) with
                                       | Some t => [t]
                                       | None => []
                                       end
                                  else []) l) =
  List.length (filter (fun c => cb_checked (snd c)) l).
Proof.
  induction l as [|c l IH]; intros H; [reflexivity|].
  cbn [flat_map filter]. rewrite length_app, IH by (intros c' Hc'; apply H; right; exact Hc').
  destruct (cb_checked (snd c)); [|reflexivity].
  destruct (H c (or_introl eq_refl)) as [t ->]. reflexivity.
Qed.

Lemma build_task_list_length : forall q,
  (forall c, In c (browser_checks q) ->
     exists t, lookup_task LOCALAPPDATA APPDATA (fst c) = Some t) ->
  List.length (build_task_list fnmatch TEMP LOCALAPPDATA APPDATA q) =
  (4 + List.length (filter (fun c => cb_checked (snd c)) (browser_checks q)))%nat.
Proof.
  intros q H. unfold build_task_list. rewrite length_app, (browser_tasks_length _ H).
  reflexivity.
Qed.

(** In every state the application can reach, the boxes are the six of the
    catalog, so [build_task_list] finds a task for every box (no
    [KeyError]); its list holds the four base tasks and one task per ticked
    box, and that is the range [update_progress_max] gives the bar. *)
Theorem progress_range_matches_tasks : forall w xs,
  let q := win (run_actions fnmatch TEMP LOCALAPPDATA APPDATA xs
                  (launch fnmatch TEMP LOCALAPPDATA APPDATA w)) in
  map fst (browser_checks q) =
    ["Google Chrome"; "Microsoft Edge"; "Brave"; "Vivaldi"; "Opera"; "Firefox"] /\
  (forall c, In c (browser_checks q) ->
     exists t, lookup_task LOCALAPPDATA APPDATA (fst c) = Some t) /\
  List.length (build_task_list fnmatch TEMP LOCALAPPDATA APPDATA q) =
    (4 + List.length (filter (fun c => cb_checked (snd c)) (browser_checks q)))%nat /\
  progress_max (update_progress_max fnmatch TEMP LOCALAPPDATA APPDATA q) =
    Z.of_nat (List.length (build_task_list fnmatch TEMP LOCALAPPDATA APPDATA q)).
Proof.
  intros w xs q.
  assert (Hnames : map fst (browser_checks q) =
            ["Google Chrome"; "Microsoft Edge"; "Brave"; "Vivaldi"; "Opera"; "Firefox"])
    by (unfold q; rewrite names_reachable; apply names_launch).
  assert (Hkeys : forall c, In c (browser_checks q) ->
            exists t, lookup_task LOCALAPPDATA APPDATA (fst c) = Some t).
  { intros c Hc. apply (in_map fst) in Hc. rewrite Hnames in Hc. cbn [In] in Hc.
    destruct Hc as [<-|[<-|[<-|[<-|[<-|[<-|[]]]]]]]; eexists; reflexivity. }
  split; [exact Hnames|]. split; [exact Hkeys|].
  pose proof (build_task_list_length q Hkeys) as Hlen. split; [exact Hlen|].
  cbn [update_progress_max progress_max]. rewrite Hlen. reflexivity.
Qed.

End TaskCount.

(** ** Sizes for the eye *)

Lemma float_of_int_exact : forall n,
  0 <= n < 2 ^ 53 -> float_of_int n = Some (mkFloat n 1).
Proof.
  intros n Hn. unfold float_of_int.
  destruct (Z.eqb_spec n 0) as [->|Hne]; [reflexivity|].
  assert (Hlog : Z.log2 n < 53) by (apply Z.log2_lt_pow2; lia).
  destruct (Z.leb_spec (Z.log2 n + 1) 53); [reflexivity|lia].
Qed.

Lemma human_size_loop_scaled : forall k fuel n d j,
  0 < d -> (j + k <= 4)%nat -> (k < fuel)%nat ->
  ((0 < k)%nat -> 1024 ^ Z.of_nat k * d <= n) ->
  ((j + k < 4)%nat -> n < 1024 ^ Z.of_nat (S k) * d) ->
  human_size_loop fuel (mkFloat n d) j = (mkFloat n (d * 1024 ^ Z.of_nat k), (j + k)%nat).
Proof.
  induction k as [|k IH]; intros fuel n d j Hd Hj Hfuel Hlo Hhi;
    (destruct fuel as [|fuel]; [lia|]); cbn [human_size_loop];
    unfold float_ge; cbn [f_num f_den];
    change (List.length units - 1)%nat with 4%nat.
  - change (1024 ^ Z.of_nat 0) with 1 in *. change (1024 ^ Z.of_nat 1) with 1024 in Hhi.
    replace (d * 1) with d by lia. replace (j + 0)%nat with j by lia.
    destruct (Nat.ltb_spec j 4) as [Hlt|Hge]; [|rewrite andb_false_r; reflexivity].
    destruct (Z.leb_spec (1024 * d) n); [lia|reflexivity].
  - specialize (Hlo ltac:(lia)). rewrite Nat2Z.inj_succ, Z.pow_succ_r in Hlo by lia.
    assert (Hk : 0 < 1024 ^ Z.of_nat k) by (apply Z.pow_pos_nonneg; lia).
    destruct (Nat.ltb_spec j 4) as [Hlt|Hge]; [|lia].
    destruct (Z.leb_spec (1024 * d) n) as [_|Hbad]; [|nia].
    cbn [andb]. unfold float_div. cbn [f_num f_den].
    rewrite (IH fuel n (d * 1024) (S j)); try lia.
    + f_equal; [|lia]. f_equal. rewrite Nat2Z.inj_succ, Z.pow_succ_r by lia. lia.
    + intros Hjk. rewrite Nat2Z.inj_succ, Z.pow_succ_r by lia.
      assert (H' := Hhi ltac:(lia)).
      rewrite !Nat2Z.inj_succ, !Z.pow_succ_r in H' by lia. lia.
Qed.

Lemma tenths_nearest : forall n d,
  0 <= n -> 0 < d ->
  2 * Z.abs (10 * n - tenths (mkFloat n d) * d) <= d.
Proof.
  intros n d Hn Hd. unfold tenths. cbn [f_num f_den].
  pose proof (Z.div_mod (10 * n) d ltac:(lia)) as Hdm.
  pose proof (Z.mod_pos_bound (10 * n) d Hd) as Hr.
  set (q := 10 * n / d) in *. set (r := (10 * n) mod d) in *.
  destruct (Z.ltb_spec d (2 * r)) as [Hup|Hdown]; cbn [orb].
  - lia.
  - destruct (Z.eqb_spec (2 * r) d) as [Htie|Hno]; cbn [andb]; [destruct (Z.odd q)|]; lia.
Qed.

(** Below 1024 bytes the label is the number itself, and a negative total
    shows as zero. *)
Theorem human_size_small : forall n,
  n < 1024 -> human_size n = Some (dec (Z.max 0 n) ++ " B")%string.
Proof.
  intros n Hn. unfold human_size.
  rewrite float_of_int_exact by (change (2 ^ 53) with 9007199254740992; lia).
  change (List.length units) with 5%nat.
  rewrite (human_size_loop_scaled 0 5 (Z.max 0 n) 1 0) by
    (try lia; change (1024 ^ Z.of_nat 1) with 1024; change (1024 ^ Z.of_nat 0) with 1; lia).
  cbn [Nat.add Nat.eqb nth units]. unfold int_of_float. cbn [f_num f_den].
  change (1024 ^ Z.of_nat 0) with 1. rewrite Z.mul_1_r, Z.div_1_r. reflexivity.
Qed.

Lemma human_size_small_witness : human_size (-7) = Some "0 B" /\ human_size 1023 = Some "1023 B".
Proof.
  split.
  - exact (human_size_small (-7) eq_refl).
  - exact (human_size_small 1023 eq_refl).
Defined.

(** From 1024 bytes on (and below 2^53, where [float] is exact) the label
    shows the total in the largest unit that does not exceed it, terabytes
    at most, as the nearest number of tenths of that unit: the figure shown
    is within a twentieth of the unit of the total. *)
Theorem human_size_scaled : forall n i,
  (1 <= i <= 4)%nat -> 1024 ^ Z.of_nat i <= n ->
  ((i < 4)%nat -> n < 1024 ^ Z.of_nat (S i)) -> n < 2 ^ 53 ->
  exists t,
    human_size n =
      Some ((dec (t / 10) ++ "." ++ dec (t mod 10)) ++ " " ++ nth i units "")%string /\
    2 * Z.abs (10 * n - t * 1024 ^ Z.of_nat i) <= 1024 ^ Z.of_nat i.
Proof.
  intros n i Hi Hlo Hhi Hn.
  assert (Hp : 0 < 1024 ^ Z.of_nat i) by (apply Z.pow_pos_nonneg; lia).
  exists (tenths (mkFloat n (1024 ^ Z.of_nat i))). split.
  - unfold human_size. rewrite Z.max_r by lia.
    rewrite float_of_int_exact by lia.
    change (List.length units) with 5%nat.
    rewrite (human_size_loop_scaled i 5 n 1 0) by (try lia; rewrite ?Z.mul_1_r; auto).
    rewrite Z.mul_1_l. cbn [Nat.add].
    destruct i as [|i]; [lia|]. reflexivity.
  - apply tenths_nearest; lia.
Qed.

Lemma human_size_scaled_witness :
  exists t,
    human_size 123456789 =
      Some ((dec (t / 10) ++ "." ++ dec (t mod 10)) ++ " " ++ nth 2 units "")%string /\
    2 * Z.abs (10 * 123456789 - t * 1024 ^ Z.of_nat 2) <= 1024 ^ Z.of_nat 2.
Proof.
  apply (human_size_scaled 123456789 2);
    [lia|vm_compute; discriminate|intros _; reflexivity|reflexivity].
Defined.

Lemma human_size_formats : forall n i,
  (1 <= i <= 4)%nat -> 1024 ^ Z.of_nat i <= n ->
  ((i < 4)%nat -> n < 1024 ^ Z.of_nat (S i)) -> n < 2 ^ 53 ->
  human_size n = Some (format_1f (mkFloat n (1024 ^ Z.of_nat i)) ++ " " ++ nth i units "")%string.
Proof.
  intros n i Hi Hlo Hhi Hn.
  assert (Hp : 0 < 1024 ^ Z.of_nat i) by (apply Z.pow_pos_nonneg; lia).
  unfold human_size. rewrite Z.max_r by lia.
  rewrite float_of_int_exact by lia.
  change (List.length units) with 5%nat.
  rewrite (human_size_loop_scaled i 5 n 1 0) by (try lia; rewrite ?Z.mul_1_r; auto).
  rewrite Z.mul_1_l. cbn [Nat.add].
  destruct i as [|i]; [lia|]. reflexivity.
Qed.

(** Just below the next unit the label overshoots: a total less than a
    twentieth of a unit short of 1024 units reads "1024.0" in the smaller
    unit (1048575 bytes show as "1024.0 KB", not as "1.0 MB"). *)
Theorem human_size_reads_1024 : forall n i,
  (1 <= i <= 3)%nat -> n < 1024 ^ Z.of_nat (S i) ->
  20 * 1024 ^ Z.of_nat (S i) - 1024 ^ Z.of_nat i <= 20 * n ->
  human_size n = Some ("1024.0 " ++ nth i units "")%string.
Proof.
  intros n i Hi Hhi Hlo.
  assert (Hp : 0 < 1024 ^ Z.of_nat i) by (apply Z.pow_pos_nonneg; lia).
  assert (Hs : 1024 ^ Z.of_nat (S i) = 1024 * 1024 ^ Z.of_nat i)
    by (rewrite Nat2Z.inj_succ, Z.pow_succ_r by lia; reflexivity).
  assert (H53 : 1024 ^ Z.of_nat (S i) <= 2 ^ 50).
  { change (2 ^ 50) with (1024 ^ 5). apply Z.pow_le_mono_r; lia. }
  assert (Hlo' : 1024 ^ Z.of_nat i <= n) by lia.
  assert (Hn53 : n < 2 ^ 53) by (change (2 ^ 53) with (8 * 2 ^ 50); lia).
  rewrite (human_size_formats n i ltac:(lia) Hlo' (fun _ => Hhi) Hn53).
  assert (Ht : tenths (mkFloat n (1024 ^ Z.of_nat i)) = 10240).
  { unfold tenths. cbn [f_num f_den].
    set (d := 1024 ^ Z.of_nat i) in *.
    pose proof (Z.div_mod (10 * n) d ltac:(lia)) as Hdm.
    pose proof (Z.mod_pos_bound (10 * n) d Hp) as Hr.
    assert (Hq : 10 * n / d = 10239) by nia.
    rewrite Hq in *. set (r := (10 * n) mod d) in *.
    destruct (Z.ltb_spec d (2 * r)) as [Hup|Hdown]; cbn [orb]; [reflexivity|].
    destruct (Z.eqb_spec (2 * r) d) as [Htie|Hno]; [reflexivity|lia]. }
  unfold format_1f. cbv zeta. rewrite Ht.
  destruct i as [|[|[|[|i]]]]; try lia; reflexivity.
Qed.

Lemma human_size_reads_1024_witness : human_size 1048575 = Some "1024.0 KB".
Proof.
  apply (human_size_reads_1024 1048575 1); [lia|reflexivity|vm_compute; discriminate].
Defined.

(** *** Where [float] gives up *)

Lemma float_of_int_rounds : forall n,
  2 ^ 53 <= n ->
  let e := Z.log2 n - 52 in
  let q := n / 2 ^ e in
  let r := n mod 2 ^ e in
  let q' := if (2 ^ (e - 1) <? r) || ((r =? 2 ^ (e - 1)) && Z.odd q) then q + 1 else q in
  0 < e /\ 2 ^ 52 <= q < 2 ^ 53 /\
  float_of_int n = if q' * 2 ^ e <? 2 ^ 1024 then Some (mkFloat (q' * 2 ^ e) 1) else None.
Proof.
  intros n Hn. cbv zeta.
  assert (H53 : 0 < 2 ^ 53) by reflexivity.
  assert (Hpos : 0 < n) by lia.
  pose proof (Z.log2_spec n Hpos) as Hlog.
  assert (Hl : 53 <= Z.log2 n).
  { apply Z.log2_le_pow2; lia. }
  set (l := Z.log2 n) in *.
  assert (He : 0 < l - 52) by lia.
  assert (Hsplit : 2 ^ l = 2 ^ 52 * 2 ^ (l - 52)).
  { rewrite <- Z.pow_add_r by lia. f_equal. lia. }
  assert (Hsplit' : 2 ^ Z.succ l = 2 ^ 53 * 2 ^ (l - 52)).
  { rewrite <- Z.pow_add_r by lia. f_equal. lia. }
  assert (HP : 0 < 2 ^ (l - 52)) by (apply Z.pow_pos_nonneg; lia).
  split; [exact He|]. split.
  - split.
    + apply Z.div_le_lower_bound; lia.
    + apply Z.div_lt_upper_bound; lia.
  - unfold float_of_int. fold l.
    destruct (Z.eqb_spec n 0) as [->|_]; [lia|].
    destruct (Z.leb_spec (l + 1) 53) as [Hbad|_]; [lia|].
    replace (l + 1 - 53) with (l - 52) by lia.
    rewrite Z.shiftr_div_pow2, Z.land_ones, !Z.shiftl_mul_pow2 by lia.
    rewrite Z.mul_1_l. reflexivity.
Qed.

Lemma float_of_int_none : forall n,
  0 <= n -> (float_of_int n = None <-> 2 ^ 1024 - 2 ^ 970 <= n).
Proof.
  intros n Hn0.
  assert (E53 : 2 ^ 53 = 2 * 2 ^ 52) by reflexivity.
  assert (E1024 : 2 ^ 1024 = 2 ^ 53 * (2 * 2 ^ 970)) by reflexivity.
  assert (E1023 : 2 ^ 53 * 2 ^ 970 < 2 ^ 1024 - 2 ^ 970) by reflexivity.
  assert (H970 : 0 < 2 ^ 970) by reflexivity.
  assert (H52 : 0 < 2 ^ 52) by reflexivity.
  destruct (Z.lt_ge_cases n (2 ^ 53)) as [Hsmall|Hbig].
  - rewrite float_of_int_exact by lia. split; [discriminate|]. intros H. exfalso. nia.
  - destruct (float_of_int_rounds n Hbig) as (He & Hq & ->).
    set (e := Z.log2 n - 52) in *. set (q := n / 2 ^ e) in *. set (r := n mod 2 ^ e) in *.
    assert (HP : 0 < 2 ^ e) by (apply Z.pow_pos_nonneg; lia).
    pose proof (Z.div_mod n (2 ^ e) ltac:(lia)) as Hdm. fold q r in Hdm.
    pose proof (Z.mod_pos_bound n (2 ^ e) HP) as Hr. fold r in Hr.
    assert (Hhalf : 2 ^ e = 2 * 2 ^ (e - 1)).
    { rewrite <- Z.pow_succ_r by lia. f_equal. lia. }
    set (h := 2 ^ (e - 1)) in *.
    set (q' := if (h <? r) || ((r =? h) && Z.odd q) then q + 1 else q).
    assert (Hq' : q <= q' <= q + 1)
      by (unfold q'; destruct ((h <? r) || ((r =? h) && Z.odd q)); lia).
    destruct (Z.lt_trichotomy e 971) as [Hlt|[Heq|Hgt]].
    + (* the exponent is in range *)
      assert (Hle : 2 ^ e <= 2 ^ 970) by (apply Z.pow_le_mono_r; lia).
      assert (Hv : q' * 2 ^ e <= 2 ^ 53 * 2 ^ 970) by (apply Z.mul_le_mono_nonneg; lia).
      destruct (Z.ltb_spec (q' * 2 ^ e) (2 ^ 1024)) as [_|Hbad]; [|lia].
      split; [discriminate|]. intros H. exfalso.
      assert (n < 2 ^ 53 * 2 ^ e) by nia.
      assert (2 ^ 53 * 2 ^ e <= 2 ^ 53 * 2 ^ 970) by (apply Z.mul_le_mono_nonneg_l; lia).
      lia.
    + (* the last binade *)
      assert (HP971 : 2 ^ e = 2 * 2 ^ 970) by (rewrite Heq; reflexivity).
      assert (Hh : h = 2 ^ 970) by lia.
      assert (Hup : q' = q + 1 <-> (q = 2 ^ 53 - 1 -> h <= r) /\ (h < r \/ (r = h /\ Z.odd q = true))).
      { unfold q'. destruct (Z.ltb_spec h r) as [H1|H1]; cbn [orb].
        - split; [intros _; split; [lia|left; exact H1]|reflexivity].
        - destruct (Z.eqb_spec r h) as [H2|H2]; cbn [andb].
          + destruct (Z.odd q) eqn:Ho.
            * split; [intros _; split; [lia|right; split; [exact H2|reflexivity]]|reflexivity].
            * split; [lia|]. intros [_ [H3|[_ H3]]]; [lia|discriminate].
          + split; [lia|]. intros [_ [H3|[H3 _]]]; lia. }
      assert (Hodd : Z.odd (2 ^ 53 - 1) = true) by reflexivity.
      destruct (Z.ltb_spec (q' * 2 ^ e) (2 ^ 1024)) as [Hin|Hout].
      * split; [discriminate|]. intros HT. exfalso.
        assert (Hqmax : q = 2 ^ 53 - 1) by nia.
        assert (Hrh : h <= r) by nia.
        assert (q' = q + 1).
        { apply Hup. split; [intros _; exact Hrh|].
          destruct (Z.eq_dec r h) as [Erh|Nrh]; [right; split; [exact Erh|]|left; lia].
          rewrite Hqmax. exact Hodd. }
        nia.
      * split; [|reflexivity]. intros _.
        assert (Hq1 : q' = q + 1) by nia.
        assert (Hqmax : q = 2 ^ 53 - 1) by nia.
        apply Hup in Hq1. destruct Hq1 as [Hrh _]. specialize (Hrh Hqmax). nia.
    + (* beyond the largest double *)
      assert (Hge : 2 ^ 972 <= 2 ^ e) by (apply Z.pow_le_mono_r; lia).
      assert (E972 : 2 ^ 972 = 4 * 2 ^ 970) by reflexivity.
      assert (Hv : 2 ^ 52 * 2 ^ 972 <= q' * 2 ^ e) by (apply Z.mul_le_mono_nonneg; lia).
      destruct (Z.ltb_spec (q' * 2 ^ e) (2 ^ 1024)) as [Hbad|_]; [lia|].
      split; [|reflexivity]. intros _.
      assert (2 ^ 52 * 2 ^ 972 <= q * 2 ^ e) by (apply Z.mul_le_mono_nonneg; lia).
      lia.
Qed.

(** [human_size] raises ([OverflowError], from [float]) exactly for the
    totals that round beyond the largest double, 2^1024 - 2^970 and up; for
    every other integer it returns a label. *)
Theorem human_size_overflow : forall n,
  human_size n = None <-> 2 ^ 1024 - 2 ^ 970 <= n.
Proof.
  intros n. unfold human_size.
  pose proof (float_of_int_none (Z.max 0 n) ltac:(lia)) as H.
  assert (H0 : 0 < 2 ^ 1024 - 2 ^ 970) by reflexivity.
  destruct (float_of_int (Z.max 0 n)) as [f0|].
  - destruct (human_size_loop _ f0 0) as [f i].
    split; [discriminate|]. intros Hn. exfalso.
    assert (Hc : Some f0 = None) by (apply H; lia). discriminate.
  - split; [|reflexivity]. intros _. destruct H as [H _]. specialize (H eq_refl). lia.
Qed.

(** ** Each primitive and the kind of entry it is for *)

Lemma lstat_plain : forall root p n,
  stat_node false root p = Some n -> is_link n = false ->
  exists q, realpath MAX_LINK_HOPS root false p = Some q /\
            realpath MAX_LINK_HOPS root true p = Some q /\ node_at root q = Some n.
Proof.
  unfold stat_node. intros root p n H Hl.
  destruct (realpath MAX_LINK_HOPS root false p) as [q|] eqn:Hq; [|discriminate].
  exists q. split; [reflexivity|]. split; [|exact H].
  eapply realpath_follow_plain; eassumption.
Qed.

(** [safe_remove_file] is for files: given a directory it returns 0 and
    removes nothing, whichever calls fail: the directory is still there and
    every file, directory and link of the tree is as it was.  (The [chmod]
    of line 43 runs before [unlink] refuses; what it clears is the
    directory's own read-only attribute, which the tree does not record.) *)
Theorem safe_remove_file_spares_directories : forall p es w,
  stat_node false (fs w) p = Some (Dir es) ->
  fst (safe_remove_file p w) = 0 /\ fs (snd (safe_remove_file p w)) = fs w.
Proof.
  intros p es [root fl bb bq] H. cbn [fs] in *.
  destruct (lstat_plain _ _ _ H eq_refl) as (q & Hq & Hqt & Hn).
  assert (Hst : stat_node true root p = Some (Dir es)) by (unfold stat_node; rewrite Hqt; exact Hn).
  assert (Hch : chmod_rw_at root p = Some root)
    by (unfold chmod_rw_at; rewrite Hqt, Hn; reflexivity).
  assert (Hun : unlink_at root p = None).
  { unfold unlink_at. rewrite Hq. destruct q; [reflexivity|]. rewrite Hn. reflexivity. }
  rewrite safe_remove_file_eval. cbv zeta. rewrite Hch, Hst.
  destruct (nth 0 fl false); [split; reflexivity|].
  destruct (negb (exists_at root p)); [split; reflexivity|].
  destruct (nth 1 fl false); [split; reflexivity|].
  destruct (is_symlink_at root p); [split; reflexivity|].
  destruct (nth 3 fl false), (nth 4 fl false); rewrite ?Hun; split; reflexivity.
Qed.

Lemma safe_remove_file_spares_directories_witness :
  fst (safe_remove_file ["d"; "sub"] sample_world) = 0 /\
  fs (snd (safe_remove_file ["d"; "sub"] sample_world)) = fs sample_world.
Proof.
  exact (safe_remove_file_spares_directories ["d"; "sub"] _ sample_world eq_refl).
Defined.

Lemma os_scandir_none : forall p w,
  listdir (fs w) p = None -> fst (os_scandir p w) = Raise.
Proof.
  intros p w H. unfold os_scandir.
  apply (wp_fs_query _ (fun root => listdir root p) (fun r _ => r = Raise)).
  intros w' _. split; [reflexivity|]. intros a Ha. congruence.
Qed.

Lemma walk_no_listing : forall fuel body top freed w,
  listdir (fs w) top = None ->
  exists w', os_walk_bottomup fuel body top freed w = Some (freed, w') /\ fs w' = fs w.
Proof.
  intros fuel body top freed w H. rewrite os_walk_bottomup_eq.
  pose proof (os_scandir_none top w H) as Hr. pose proof (os_scandir_fs top w) as Hfs.
  destruct (os_scandir top w) as [[entries|] w1]; cbn [fst snd] in *; [discriminate|].
  exists w1. split; [reflexivity|exact Hfs].
Qed.

(** [wipe_tree] is for real directories: given a path that is missing, a
    symbolic link (to a directory as well) or a regular file, it returns 0
    and changes nothing, whichever calls fail. *)
Theorem wipe_tree_needs_directory : forall p w,
  (forall es, stat_node false (fs w) p <> Some (Dir es)) ->
  fst (wipe_tree p w) = 0 /\ fs (snd (wipe_tree p w)) = fs w.
Proof.
  intros p w Hnd.
  set (Q := fun (z : Z) (w' : world) => z = 0 /\ fs w' = fs w).
  change (wpT (wipe_tree p) Q w).
  unfold wipe_tree. apply wpT_try. apply wp_bind, wp_fs_query. intros w1 Hw1.
  split; [apply wpT_giving; split; [reflexivity|exact Hw1]|]. intros ex Hex.
  destruct ex; cbn [negb]; [|apply wp_ret; split; [reflexivity|exact Hw1]].
  apply wp_bind, wp_fs_query. intros w2 Hw2. rewrite Hw1 in Hw2.
  split; [apply wpT_giving; split; [reflexivity|exact Hw2]|]. intros sl Hsl.
  destruct sl; [apply wp_ret; split; [reflexivity|exact Hw2]|].
  injection Hex as Hex. injection Hsl as Hsl. rewrite ?Hw1 in Hsl.
  destruct (checks_passed _ _ Hex Hsl) as (q & n & Hq & Hqt & Hn & Hl).
  assert (Hfile : exists s ro, n = File s ro).
  { destruct n as [s ro|es|dl t]; [eauto| |discriminate].
    exfalso. apply (Hnd es). unfold stat_node. rewrite Hq. exact Hn. }
  destruct Hfile as (s & ro & ->).
  assert (Hnl : forall w', fs w' = fs w -> listdir (fs w') p = None)
    by (intros w' ->; unfold listdir, stat_node; rewrite Hqt, Hn; reflexivity).
  assert (Hrm : forall w', fs w' = fs w -> rmdir_at (fs w') p = None).
  { intros w' ->. unfold rmdir_at. rewrite Hq. destruct q; [reflexivity|]. rewrite Hn.
    reflexivity. }
  apply wp_bind, wp_lift. unfold wpT at 1.
  destruct (walk_no_listing (height (fs w2)) wipe_tree_body p 0 w2 (Hnl w2 Hw2))
    as (w3 & -> & Hw3).
  cbn [fst snd]. rewrite Hw2 in Hw3.
  apply wp_bind, wp_lift, wpT_try. unfold Path_rmdir. apply wp_fs_update. intros w4. split.
  - intros Hw4. unfold wpT, pass. cbn [fst snd]. apply wp_ret. split; [reflexivity|congruence].
  - intros root' Hr. rewrite (Hrm w3 Hw3) in Hr. discriminate.
Qed.

Lemma wipe_tree_needs_directory_witness :
  (fst (wipe_tree ["d"; "dlnk"] sample_world) = 0 /\
   fs (snd (wipe_tree ["d"; "dlnk"] sample_world)) = fs sample_world) /\
  (fst (wipe_tree ["d"; "a.txt"] sample_world) = 0 /\
   fs (snd (wipe_tree ["d"; "a.txt"] sample_world)) = fs sample_world).
Proof.
  split.
  - apply (wipe_tree_needs_directory ["d"; "dlnk"] sample_world). intros es. discriminate.
  - apply (wipe_tree_needs_directory ["d"; "a.txt"] sample_world). intros es. discriminate.
Defined.

(** [wipe_dir_contents] and [delete_globs] are for directories: given a
    path that does not lead to one (missing, or a regular file) they change
    nothing, whichever calls fail, and what they return, when they return,
    is 0. *)
Theorem not_a_directory_is_left_alone : forall fnmatch patterns p w,
  is_dir_at (fs w) p = false ->
  (fs (snd (wipe_dir_contents p w)) = fs w /\
   (fst (wipe_dir_contents p w) = Ok 0 \/ fst (wipe_dir_contents p w) = Raise)) /\
  (fs (snd (delete_globs fnmatch p patterns w)) = fs w /\
   (fst (delete_globs fnmatch p patterns w) = Ok 0 \/
    fst (delete_globs fnmatch p patterns w) = Raise)).
Proof.
  intros fnmatch patterns p w Hd.
  set (Q := fun (r : result Z) (w' : world) => fs w' = fs w /\ (r = Ok 0 \/ r = Raise)).
  assert (Hguard : forall (rest : M Z),
            wp (ex <- Path_exists p ;;
                if negb ex then ret 0 else
                isdir <- Path_is_dir p ;;
                if negb isdir then ret 0 else rest) Q w).
  { intros rest. apply wp_bind, wp_fs_query. intros w1 Hw1.
    split; [split; [exact Hw1|right; reflexivity]|]. intros ex _.
    destruct ex; cbn [negb]; [|apply wp_ret; split; [exact Hw1|left; reflexivity]].
    apply wp_bind, wp_fs_query. intros w2 Hw2. rewrite Hw1 in Hw2.
    split; [split; [exact Hw2|right; reflexivity]|]. intros isdir Hi.
    injection Hi as Hi. rewrite ?Hw1, Hd in Hi. subst isdir. cbn [negb].
    apply wp_ret. split; [exact Hw2|left; reflexivity]. }
  split.
  - apply (Hguard (lift (scan_try p wipe_entry))).
  - unfold delete_globs. apply Hguard.
Qed.

Lemma not_a_directory_is_left_alone_witness :
  (fs (snd (wipe_dir_contents ["d"; "a.txt"] sample_world)) = fs sample_world /\
   (fst (wipe_dir_contents ["d"; "a.txt"] sample_world) = Ok 0 \/
    fst (wipe_dir_contents ["d"; "a.txt"] sample_world) = Raise)) /\
  (fs (snd (delete_globs glob_match ["d"; "a.txt"] ["*"] sample_world)) = fs sample_world /\
   (fst (delete_globs glob_match ["d"; "a.txt"] ["*"] sample_world) = Ok 0 \/
    fst (delete_globs glob_match ["d"; "a.txt"] ["*"] sample_world) = Raise)).
Proof.
  exact (not_a_directory_is_left_alone glob_match ["*"] ["d"; "a.txt"] sample_world eq_refl).
Defined.

(** ** Cleaning twice *)

Lemma existsb_named_filter : forall (P : string * node -> bool) x es,
  existsb (named x) es = false -> existsb (named x) (filter P es) = false.
Proof.
  intros P x es. induction es as [|e es IH]; intros H; [reflexivity|].
  cbn [existsb] in H. apply orb_false_elim in H. destruct H as [He Hes].
  cbn [filter]. destruct (P e); [cbn [existsb]; rewrite He|]; apply IH; exact Hes.
Qed.

Lemma unique_names_filter : forall (P : string * node -> bool) es,
  unique_names (Dir es) = true -> unique_names (Dir (filter P es)) = true.
Proof.
  intros P es. induction es as [|e es IH]; intros H; [reflexivity|].
  rewrite unique_names_cons in H. apply andb_prop in H. destruct H as [H Hrest].
  apply andb_prop in H. destruct H as [He Hf]. apply negb_true_iff in Hf.
  cbn [filter]. destruct (P e); [|apply IH; exact Hrest].
  rewrite unique_names_cons, He, (existsb_named_filter P _ _ Hf), (IH Hrest). reflexivity.
Qed.

Lemma filter_none : forall A (P : A -> bool) l,
  filter P (filter (fun a => negb (P a)) l) = [].
Proof.
  intros A P l. induction l as [|a l IH]; [reflexivity|].
  cbn [filter]. destruct (P a) eqn:Ha; cbn [negb filter]; [exact IH|]. rewrite Ha. exact IH.
Qed.

Lemma filter_twice : forall A (P : A -> bool) l, filter P (filter P l) = filter P l.
Proof.
  intros A P l. induction l as [|a l IH]; [reflexivity|].
  cbn [filter]. destruct (P a) eqn:Ha; [cbn [filter]; rewrite Ha, IH; reflexivity|exact IH].
Qed.

Lemma with_fs_set_same : forall w d n,
  node_at (fs w) d = Some n -> with_fs (set_at (fs w) d n) w = w.
Proof. intros w d n H. rewrite (set_at_same _ _ _ H). apply with_fs_same. Qed.

(** When no call fails, a second [delete_globs] over the same folder with
    the same patterns finds nothing left to delete: it returns 0 and
    changes nothing. *)
Theorem delete_globs_twice : forall fnmatch patterns d es w,
  quiet w -> node_at (fs w) d = Some (Dir es) -> unique_names (Dir es) = true ->
  delete_globs fnmatch d patterns (snd (delete_globs fnmatch d patterns w)) =
  (Ok 0, snd (delete_globs fnmatch d patterns w)).
Proof.
  intros fnmatch patterns d es w Hq Hp Hu.
  rewrite (delete_globs_quiet _ _ _ _ _ Hq Hp Hu). cbn [snd].
  set (es' := filter (fun e => negb (matched fnmatch patterns e)) es).
  set (w1 := with_fs _ w).
  assert (Hp1 : node_at (fs w1) d = Some (Dir es'))
    by (unfold w1; destruct w as [root fl bb bq]; cbn [fs with_fs] in *;
        eapply node_at_set_at_same; exact Hp).
  rewrite (delete_globs_quiet fnmatch patterns d es' w1 (quiet_with_fs _ _ Hq) Hp1
             (unique_names_filter _ _ Hu)).
  unfold es' at 1 2. rewrite filter_none, filter_twice. fold es'.
  rewrite (with_fs_set_same _ _ _ Hp1). reflexivity.
Qed.

Lemma delete_globs_twice_witness :
  delete_globs glob_match ["Explorer"] ["thumbcache*.db"; "iconcache*.db"]
    (snd (delete_globs glob_match ["Explorer"] ["thumbcache*.db"; "iconcache*.db"]
            sample_explorer)) =
  (Ok 0, snd (delete_globs glob_match ["Explorer"] ["thumbcache*.db"; "iconcache*.db"]
                sample_explorer)).
Proof.
  exact (delete_globs_twice glob_match ["thumbcache*.db"; "iconcache*.db"] ["Explorer"] _
           sample_explorer eq_refl eq_refl eq_refl).
Defined.

(** When no call fails, a second wipe of a directory that holds no link
    frees nothing and changes nothing: [wipe_dir_contents] finds the
    directory empty, [wipe_tree] finds it gone. *)
Theorem wipe_twice : forall d es w,
  quiet w -> unique_names (fs w) = true ->
  node_at (fs w) d = Some (Dir es) -> link_free (Dir es) = true ->
  wipe_dir_contents d (snd (wipe_dir_contents d w)) = (Ok 0, snd (wipe_dir_contents d w)) /\
  (d <> [] -> wipe_tree d (snd (wipe_tree d w)) = (0, snd (wipe_tree d w))).
Proof.
  intros d es w Hq Hu Hp Hl.
  pose proof (unique_names_at _ _ _ Hu Hp) as Hud. split.
  - rewrite (wipe_dir_contents_plain _ _ _ Hq Hp Hud Hl). cbn [snd].
    set (w1 := with_fs _ w).
    assert (Hp1 : node_at (fs w1) d = Some (Dir []))
      by (unfold w1; destruct w as [root fl bb bq]; cbn [fs with_fs] in *;
          eapply node_at_set_at_same; exact Hp).
    rewrite (wipe_dir_contents_plain d [] w1 (quiet_with_fs _ _ Hq) Hp1 eq_refl eq_refl).
    rewrite (with_fs_set_same _ _ _ Hp1). reflexivity.
  - intros Hne. rewrite (wipe_tree_plain _ _ _ Hq Hp Hne Hud Hl). cbn [snd].
    set (w1 := with_fs _ w).
    assert (Hgone : exists_at (fs w1) d = false)
      by (unfold w1; destruct w as [root fl bb bq]; cbn [fs with_fs] in *;
          eapply exists_at_removed; eassumption).
    unfold wipe_tree. rewrite try_except_eval, bind_eval. unfold Path_exists.
    rewrite fs_query_quiet by (apply quiet_with_fs; exact Hq).
    rewrite Hgone. reflexivity.
Qed.

Lemma wipe_twice_witness :
  wipe_dir_contents ["d"; "sub"] (snd (wipe_dir_contents ["d"; "sub"] sample_world)) =
    (Ok 0, snd (wipe_dir_contents ["d"; "sub"] sample_world)) /\
  (["d"; "sub"] <> [] ->
   wipe_tree ["d"; "sub"] (snd (wipe_tree ["d"; "sub"] sample_world)) =
     (0, snd (wipe_tree ["d"; "sub"] sample_world))).
Proof.
  exact (wipe_twice ["d"; "sub"] _ sample_world eq_refl eq_refl eq_refl eq_refl).
Defined.

(** ** The window after a run *)

(** Handling the [done] signal gives the controls back: both buttons and
    every box are enabled, whatever they were, the ticks are as the user
    left them and the status reads done.  The boxes owe this to the refresh
    at the end of [on_done]: [set_busy(False)] by itself leaves every box
    that [set_busy(True)] disabled as it is. *)
Theorem done_restores_controls : forall fnmatch TEMP L A bytes q w,
  let q' := fst (deliver fnmatch TEMP L A (Done bytes) q w) in
  clean_btn q' = true /\ close_btn q' = true /\
  Forall (fun c => cb_enabled (snd c) = true) (browser_checks q') /\
  map (fun c => (fst c, cb_checked (snd c))) (browser_checks q') =
    map (fun c => (fst c, cb_checked (snd c))) (browser_checks q) /\
  status_label q' = Finished /\
  Forall (fun c => cb_enabled (snd c) = false)
         (browser_checks (set_busy false (set_busy true q))).
Proof.
  intros fnmatch TEMP L A bytes q w. cbv zeta.
  cbn [deliver]. unfold bindT, giving, refresh_browser_presence, bindT, giving.
  destruct (browser_presence L A w) as [present w'].
  cbn [fst update_progress_max clean_btn close_btn browser_checks status_label set_busy negb].
  split; [reflexivity|]. split; [reflexivity|]. split; [|split; [|split; [reflexivity|]]].
  - apply Forall_forall. intros c Hc. apply in_map_iff in Hc. destruct Hc as (c0 & <- & _).
    reflexivity.
  - rewrite !map_map. apply map_ext. intros c. reflexivity.
  - rewrite map_map. apply Forall_forall. intros c Hc. apply in_map_iff in Hc.
    destruct Hc as (c0 & <- & _). reflexivity.
Qed.

(** ** A started run, step by step *)

Section StartedRun.

Variable fnmatch : string -> string -> bool.
Variables TEMP LOCALAPPDATA APPDATA : path.

Lemma set_nth_set_nth : forall A (l : list A) n x y,
  set_nth n y (set_nth n x l) = set_nth n y l.
Proof.
  induction l as [|a l IH]; intros [|n] x y; cbn; try reflexivity. rewrite IH. reflexivity.
Qed.

Lemma nth_error_set_nth_same : forall A (l : list A) n x k,
  nth_error l n = Some k -> nth_error (set_nth n x l) n = Some x.
Proof.
  induction l as [|a l IH]; intros [|n] x k H; cbn in *; try discriminate; [reflexivity|].
  eapply IH. exact H.
Qed.

Lemma set_nth_same : forall A (l : list A) n x,
  nth_error l n = Some x -> set_nth n x l = l.
Proof.
  induction l as [|a l IH]; intros [|n] x H; cbn in *; try discriminate; [congruence|].
  rewrite IH by exact H. reflexivity.
Qed.

Lemma run_actions_cons : forall x xs a,
  run_actions fnmatch TEMP LOCALAPPDATA APPDATA (x :: xs) a =
  run_actions fnmatch TEMP LOCALAPPDATA APPDATA xs (act fnmatch TEMP LOCALAPPDATA APPDATA x a).
Proof. reflexivity. Qed.

Lemma run_actions_app : forall xs ys a,
  run_actions fnmatch TEMP LOCALAPPDATA APPDATA (xs ++ ys) a =
  run_actions fnmatch TEMP LOCALAPPDATA APPDATA ys
    (run_actions fnmatch TEMP LOCALAPPDATA APPDATA xs a).
Proof. intros xs ys a. unfold run_actions. apply fold_left_app. Qed.

(** A running worker that takes all its tasks in turn queues the stage and
    progress events of the loop of [run] and leaves the world as that loop
    leaves it. *)
Lemma worker_takes_all : forall todo t i steps total a,
  nth_error (workers a) t = Some (mkWorker todo i steps total true) ->
  run_actions fnmatch TEMP LOCALAPPDATA APPDATA
    (repeat (WorkerTask t) (List.length todo)) a =
  let out := run_from todo i steps total (os a) in
  mkSession (win a)
    (set_nth t (mkWorker [] (i + Z.of_nat (List.length todo)) steps (snd (fst out)) true)
       (workers a))
    (inbox a ++ fst (fst out))
    (snd out).
Proof.
  induction todo as [|[name func] rest IH]; intros t i steps total a Ht; cbv zeta.
  - cbn [List.length repeat run_actions fold_left run_from]. unfold giving. cbn [fst snd].
    rewrite app_nil_r, Z.add_0_r.
    rewrite (set_nth_same _ _ _ _ Ht). destruct a. reflexivity.
  - cbn [List.length repeat]. rewrite run_actions_cons. cbn [act].
    unfold worker_task at 1. rewrite Ht.
    cbn [run_from]. unfold bindT, giving.
    destruct (invoke func (os a)) as [freed w1].
    set (a1 := mkSession _ _ _ w1).
    assert (Ht1 : nth_error (workers a1) t =
                  Some (mkWorker rest (i + 1) steps (total + Z.max 0 freed) true))
      by (unfold a1; cbn [workers]; eapply nth_error_set_nth_same; exact Ht).
    rewrite (IH t (i + 1) steps (total + Z.max 0 freed) a1 Ht1). cbv zeta.
    unfold a1. cbn [win workers inbox os].
    destruct (run_from rest (i + 1) steps (total + Z.max 0 freed) w1) as [[evs tot] w2].
    cbn [fst snd]. rewrite set_nth_set_nth, <- app_assoc. cbn [app].
    f_equal. f_equal. f_equal. lia.
Qed.

Lemma worker_exit_done : forall t i steps total a,
  nth_error (workers a) t = Some (mkWorker [] i steps total true) ->
  worker_exit t a =
  mkSession (win a) (set_nth t (mkWorker [] i steps total false) (workers a))
    (inbox a ++ [Done (c_int total)]) (os a).
Proof. intros t i steps total a H. unfold worker_exit. rewrite H. reflexivity. Qed.

(** From a start request that is accepted to the end of [run]: the worker
    the window holds runs the tasks of [build_task_list], what it queues for
    the window is exactly what [run] emits (stage and progress per task,
    then the one [done]), the world is as [run] leaves it, and the worker is
    no longer running. *)
Theorem started_run_queues_run_events : forall a,
  cleaner_running a = false ->
  let tasks := build_task_list fnmatch TEMP LOCALAPPDATA APPDATA (win a) in
  let t := List.length (workers a) in
  let b := run_actions fnmatch TEMP LOCALAPPDATA APPDATA
             (RequestStart :: repeat (WorkerTask t) (List.length tasks) ++ [WorkerExit t]) a in
  cleaner (win b) = Some t /\
  isRunning b t = false /\
  inbox b = inbox a ++ fst (CleanerThread_run tasks (os a)) /\
  os b = snd (CleanerThread_run tasks (os a)).
Proof.
  intros a Hidle tasks t b. unfold b. clear b.
  rewrite run_actions_cons, run_actions_app. cbn [act].
  set (a1 := start_clean fnmatch TEMP LOCALAPPDATA APPDATA a).
  assert (Hw1 : workers a1 =
                workers a ++ [mkWorker tasks 1 (Z.of_nat (List.length tasks)) 0 true])
    by (unfold a1, start_clean; rewrite Hidle; reflexivity).
  assert (Hc1 : cleaner (win a1) = Some t)
    by (unfold a1, start_clean; rewrite Hidle; reflexivity).
  assert (Hi1 : inbox a1 = inbox a) by (unfold a1, start_clean; rewrite Hidle; reflexivity).
  assert (Ho1 : os a1 = os a) by (unfold a1, start_clean; rewrite Hidle; reflexivity).
  assert (Ht1 : nth_error (workers a1) t =
                Some (mkWorker tasks 1 (Z.of_nat (List.length tasks)) 0 true)).
  { rewrite Hw1. unfold t. rewrite nth_error_app2 by lia. rewrite Nat.sub_diag. reflexivity. }
  rewrite (worker_takes_all tasks t 1 _ 0 a1 Ht1). cbv zeta. rewrite Ho1, Hi1.
  unfold CleanerThread_run, bindT, giving.
  destruct (run_from tasks 1 (Z.of_nat (List.length tasks)) 0 (os a)) as [[evs tot] w2].
  cbn [fst snd].
  set (a2 := mkSession (win a1) _ _ w2).
  assert (Ht2 : nth_error (workers a2) t =
                Some (mkWorker [] (1 + Z.of_nat (List.length tasks))
                        (Z.of_nat (List.length tasks)) tot true))
    by (unfold a2; cbn [workers]; eapply nth_error_set_nth_same; exact Ht1).
  rewrite run_actions_cons. cbn [act run_actions fold_left].
  rewrite (worker_exit_done _ _ _ _ _ Ht2).
  cbn [win inbox os]. unfold isRunning. cbn [workers].
  rewrite (nth_error_set_nth_same _ _ _ _ _ Ht2). cbn [wk_running].
  split; [exact Hc1|]. split; [reflexivity|]. split; [|reflexivity].
  unfold a2. cbn [inbox]. rewrite <- app_assoc. reflexivity.
Qed.

End StartedRun.

Lemma started_run_queues_run_events_witness :
  let a := launch glob_match ["d"] ["out"] ["out"] sample_world in
  let tasks := build_task_list glob_match ["d"] ["out"] ["out"] (win a) in
  let b := run_actions glob_match ["d"] ["out"] ["out"]
             (RequestStart :: repeat (WorkerTask 0) (List.length tasks) ++ [WorkerExit 0]) a in
  cleaner (win b) = Some 0%nat /\
  isRunning b 0 = false /\
  inbox b = inbox a ++ fst (CleanerThread_run tasks (os a)) /\
  os b = snd (CleanerThread_run tasks (os a)).
Proof.
  exact (started_run_queues_run_events glob_match ["d"] ["out"] ["out"]
           (launch glob_match ["d"] ["out"] ["out"] sample_world) eq_refl).
Defined.
